(** * German article bot: the generative-response normalization pipeline

    A shallow embedding of the Go packages [entities], [usecases], [ai],
    [handlers], [telegram] and [console], together with the parts of the Go
    standard library they call ([strings], [regexp], [encoding/json],
    [html/template]).  Go strings are byte sequences; they are modelled by
    [string], whose characters are the 256 values of [ascii]. *)

From Stdlib Require Import Bool Arith List String Ascii NArith DecimalString Lia.
Import ListNotations.

Open Scope list_scope.
Open Scope string_scope.
Open Scope nat_scope.

(** ** Bytes that cannot be written inside a literal *)

Definition dquote : ascii := "034"%char.
Definition DQ : string := String dquote EmptyString.
Definition LF : string := String "010"%char EmptyString.
Definition TAB : string := String "009"%char EmptyString.

(** ** Package [strings] *)

Module strings.

Fixpoint HasPrefix (s prefix : string) {struct prefix} : bool :=
  match prefix with
  | EmptyString => true
  | String p prefix' =>
      match s with
      | EmptyString => false
      | String c s' => Ascii.eqb c p && HasPrefix s' prefix'
      end
  end.

Fixpoint Contains (s substr : string) : bool :=
  HasPrefix s substr
  || match s with
     | EmptyString => false
     | String _ s' => Contains s' substr
     end.

(** [Split s sep] for a non-empty [sep]: the pieces of [s] between the
    non-overlapping occurrences of [sep], found left to right.  [skip]
    counts the bytes of an occurrence still to be passed over. *)
Fixpoint splitFrom (sep s : string) (skip : nat) : list string :=
  match s with
  | EmptyString => [EmptyString]
  | String c s' =>
      match skip with
      | S skip' => splitFrom sep s' skip'
      | 0 =>
          if HasPrefix s sep
          then EmptyString :: splitFrom sep s' (String.length sep - 1)
          else match splitFrom sep s' 0 with
               | piece :: rest => String c piece :: rest
               | [] => [String c EmptyString]
               end
      end
  end.

Definition Split (s sep : string) : list string := splitFrom sep s 0.

(** The encodings (UTF-8) of the code points with the Unicode White_Space
    property, which is what [unicode.IsSpace] tests: U+0009..U+000D, U+0020,
    U+0085, U+00A0, U+1680, U+2000..U+200A, U+2028, U+2029, U+202F, U+205F
    and U+3000. *)
Definition asciiSpace (c : ascii) : bool :=
  let n := nat_of_ascii c in
  ((9 <=? n) && (n <=? 13)) || (n =? 32).

Definition space2 (c0 c1 : ascii) : bool :=
  let n0 := nat_of_ascii c0 in
  let n1 := nat_of_ascii c1 in
  (n0 =? 194) && ((n1 =? 133) || (n1 =? 160)).

Definition space3 (c0 c1 c2 : ascii) : bool :=
  let n0 := nat_of_ascii c0 in
  let n1 := nat_of_ascii c1 in
  let n2 := nat_of_ascii c2 in
  ((n0 =? 225) && (n1 =? 154) && (n2 =? 128))
  || ((n0 =? 226) && (n1 =? 128)
      && (((128 <=? n2) && (n2 <=? 138))
          || (n2 =? 168) || (n2 =? 169) || (n2 =? 175)))
  || ((n0 =? 226) && (n1 =? 129) && (n2 =? 159))
  || ((n0 =? 227) && (n1 =? 128) && (n2 =? 128)).

(** Length of the white-space code point that [s] starts with, 0 if none. *)
Definition leadingSpace (s : string) : nat :=
  match s with
  | EmptyString => 0
  | String c0 s0 =>
      if asciiSpace c0 then 1 else
      match s0 with
      | EmptyString => 0
      | String c1 s1 =>
          if space2 c0 c1 then 2 else
          match s1 with
          | EmptyString => 0
          | String c2 _ => if space3 c0 c1 c2 then 3 else 0
          end
      end
  end.

(** The same test from the end: [r] is the string reversed. *)
Definition trailingSpace (r : string) : nat :=
  match r with
  | EmptyString => 0
  | String c0 r0 =>
      if asciiSpace c0 then 1 else
      match r0 with
      | EmptyString => 0
      | String c1 r1 =>
          if space2 c1 c0 then 2 else
          match r1 with
          | EmptyString => 0
          | String c2 _ => if space3 c2 c1 c0 then 3 else 0
          end
      end
  end.

Fixpoint drop (n : nat) (s : string) : string :=
  match n, s with
  | S n', String _ s' => drop n' s'
  | _, _ => s
  end.

Fixpoint rev (s : string) : string :=
  match s with
  | EmptyString => EmptyString
  | String c s' => rev s' ++ String c EmptyString
  end.

(** [trimWith width fuel s] removes white-space code points from the front
    of [s] while there are any. *)
Fixpoint trimWith (width : string -> nat) (fuel : nat) (s : string) : string :=
  match fuel with
  | 0 => s
  | S fuel' =>
      match width s with
      | 0 => s
      | w => trimWith width fuel' (drop w s)
      end
  end.

Definition TrimLeftSpace (s : string) : string :=
  trimWith leadingSpace (String.length s) s.

Definition TrimRightSpace (s : string) : string :=
  rev (trimWith trailingSpace (String.length s) (rev s)).

Definition TrimSpace (s : string) : string :=
  TrimRightSpace (TrimLeftSpace s).

Fixpoint Repeat (s : string) (count : nat) : string :=
  match count with
  | 0 => EmptyString
  | S count' => s ++ Repeat s count'
  end.

End strings.

(** ** Package [regexp]

    The two patterns of the program are built from literal bytes, byte
    classes, concatenation, greedy repetition and one capturing group.  The
    matcher below is the backtracking reading of Go's leftmost-first rule: at
    a given start, a repetition tries the longer alternative before the
    shorter one.  Go matches code points; every literal and class member of
    the two patterns is an ASCII byte, and an ASCII byte never occurs inside
    the encoding of another code point, so matching byte by byte finds the
    same matches. *)

Module regexp.

Inductive Regexp : Type :=
| Lit (c : ascii)
| Class (p : ascii -> bool)
| Cat (r1 r2 : Regexp)
| Star (r : Regexp)
| Group (n : nat) (r : Regexp).

(** Submatches: group number and the text it matched, latest first. *)
Definition submatches : Type := list (nat * string).

Definition outcome : Type := option (string * submatches).

Definition cont : Type := string -> submatches -> outcome.

(** The part of [s] in front of its suffix [rest]. *)
Definition consumed (s rest : string) : string :=
  substring 0 (String.length s - String.length rest) s.

(** Greedy repetition of [step], at most [fuel] times, each round having to
    consume input. *)
Fixpoint starLoop (step : string -> submatches -> cont -> outcome)
         (k : cont) (fuel : nat) (s : string) (m : submatches) : outcome :=
  match fuel with
  | 0 => k s m
  | S fuel' =>
      match step s m (fun s1 m1 =>
                        if String.length s1 <? String.length s
                        then starLoop step k fuel' s1 m1
                        else None) with
      | Some res => Some res
      | None => k s m
      end
  end.

Fixpoint run (r : Regexp) (s : string) (m : submatches) (k : cont) : outcome :=
  match r with
  | Lit c =>
      match s with
      | String a s' => if Ascii.eqb a c then k s' m else None
      | EmptyString => None
      end
  | Class p =>
      match s with
      | String a s' => if p a then k s' m else None
      | EmptyString => None
      end
  | Cat r1 r2 => run r1 s m (fun s1 m1 => run r2 s1 m1 k)
  | Star r1 => starLoop (run r1) k (String.length s) s m
  | Group n r1 => run r1 s m (fun s1 m1 => k s1 ((n, consumed s s1) :: m1))
  end.

(** A match that starts at the first byte of [s]: the matched text, the
    input after it and the submatches. *)
Definition matchAt (re : Regexp) (s : string) : option (string * string * submatches) :=
  match run re s [] (fun rest m => Some (rest, m)) with
  | Some (rest, m) => Some (consumed s rest, rest, m)
  | None => None
  end.

(** [FindString]: the text of the leftmost match, empty if there is none. *)
Fixpoint FindString (re : Regexp) (s : string) : string :=
  match matchAt re s with
  | Some (text, _, _) => text
  | None =>
      match s with
      | EmptyString => EmptyString
      | String _ s' => FindString re s'
      end
  end.

Fixpoint submatch (m : submatches) (n : nat) : string :=
  match m with
  | [] => EmptyString
  | (i, text) :: m' => if i =? n then text else submatch m' n
  end.

(** Replacement templates: [$n] and [${n}] stand for submatch [n], [$$]
    for a dollar sign.  The patterns of the program have no named groups,
    so a name that is not a number expands to nothing. *)
Definition isDigit (c : ascii) : bool :=
  let n := nat_of_ascii c in (48 <=? n) && (n <=? 57).

Definition isWordByte (c : ascii) : bool :=
  let n := nat_of_ascii c in
  isDigit c || ((65 <=? n) && (n <=? 90)) || ((97 <=? n) && (n <=? 122)) || (n =? 95).

Fixpoint allDigits (s : string) : bool :=
  match s with
  | EmptyString => true
  | String c s' => isDigit c && allDigits s'
  end.

Fixpoint number (acc : nat) (s : string) : nat :=
  match s with
  | EmptyString => acc
  | String c s' => number (10 * acc + (nat_of_ascii c - 48)) s'
  end.

(** The submatch a name stands for. *)
Definition named (m : submatches) (whole name : string) : string :=
  match name with
  | EmptyString => EmptyString
  | String c rest =>
      if allDigits name && negb (Ascii.eqb c "0" && negb (String.eqb rest EmptyString))
      then match number 0 name with
           | 0 => whole
           | n => submatch m n
           end
      else EmptyString
  end.

Inductive expandState : Type :=
| Plain
| Dollar
| Name (acc : string)
| Braced (acc : string).

Fixpoint expandFrom (st : expandState) (template : string)
         (m : submatches) (whole : string) : string :=
  match template with
  | EmptyString =>
      match st with
      | Plain => EmptyString
      | Dollar => "$"
      | Name acc => named m whole acc
      | Braced acc => "${" ++ acc
      end
  | String c t =>
      let plain :=
        if Ascii.eqb c "$" then expandFrom Dollar t m whole
        else String c (expandFrom Plain t m whole) in
      match st with
      | Plain => plain
      | Dollar =>
          if Ascii.eqb c "$" then String c (expandFrom Plain t m whole)
          else if Ascii.eqb c "{" then expandFrom (Braced EmptyString) t m whole
          else if isWordByte c then expandFrom (Name (String c EmptyString)) t m whole
          else String "$" plain
      | Name acc =>
          if isWordByte c then expandFrom (Name (acc ++ String c EmptyString)) t m whole
          else named m whole acc ++ plain
      | Braced acc =>
          if Ascii.eqb c "}" && negb (String.eqb acc EmptyString)
          then named m whole acc ++ expandFrom Plain t m whole
          else if isWordByte c then expandFrom (Braced (acc ++ String c EmptyString)) t m whole
          else "${" ++ acc ++ plain
      end
  end.

Definition Expand (template : string) (m : submatches) (whole : string) : string :=
  expandFrom Plain template m whole.

(** [ReplaceAllString]: the matches are found left to right and do not
    overlap; [skip] counts the bytes of the current match still to be
    passed over, and [after] tells that a match ended exactly here (an
    empty match directly after another match is not replaced). *)
Fixpoint replaceFrom (re : Regexp) (repl : string) (s : string)
         (skip : nat) (after : bool) : string :=
  match skip with
  | S skip' =>
      match s with
      | EmptyString => EmptyString
      | String _ s' => replaceFrom re repl s' skip' true
      end
  | 0 =>
      match matchAt re s with
      | Some (text, _, m) =>
          match String.length text with
          | 0 =>
              (if after then EmptyString else Expand repl m text)
              ++ match s with
                 | EmptyString => EmptyString
                 | String c s' => String c (replaceFrom re repl s' 0 false)
                 end
          | S n =>
              Expand repl m text
              ++ match s with
                 | EmptyString => EmptyString
                 | String _ s' => replaceFrom re repl s' n true
                 end
          end
      | None =>
          match s with
          | EmptyString => EmptyString
          | String c s' => String c (replaceFrom re repl s' 0 false)
          end
      end
  end.

Definition ReplaceAllString (re : Regexp) (src repl : string) : string :=
  replaceFrom re repl src 0 false.

End regexp.


(** ** Package [unicode/utf8] *)

Module utf8.

Definition RuneError : N := 65533%N.

Definition byteOf (n : N) : ascii := ascii_of_N n.

Definition isCont (c : ascii) : bool :=
  let n := N_of_ascii c in ((128 <=? n) && (n <=? 191))%N.

(** [DecodeRuneInString]: the first code point of [s] and its width in
    bytes; [(RuneError, 1)] for an encoding that is invalid, too short,
    too long for its value, or of a surrogate. *)
Definition DecodeRuneInString (s : string) : N * nat :=
  match s with
  | EmptyString => (RuneError, 0)
  | String c0 s0 =>
      let b0 := N_of_ascii c0 in
      if (b0 <? 128)%N then (b0, 1)
      else if ((b0 <? 194) || (244 <? b0))%N then (RuneError, 1)
      else
        match s0 with
        | EmptyString => (RuneError, 1)
        | String c1 s1 =>
            let b1 := N_of_ascii c1 in
            let lo := (if b0 =? 224 then 160 else if b0 =? 240 then 144 else 128)%N in
            let hi := (if b0 =? 237 then 159 else if b0 =? 244 then 143 else 191)%N in
            if ((b1 <? lo) || (hi <? b1))%N then (RuneError, 1)
            else if (b0 <? 224)%N then (((b0 mod 32) * 64 + b1 mod 64)%N, 2)
            else
              match s1 with
              | EmptyString => (RuneError, 1)
              | String c2 s2 =>
                  let b2 := N_of_ascii c2 in
                  if negb (isCont c2) then (RuneError, 1)
                  else if (b0 <? 240)%N
                  then (((b0 mod 16) * 4096 + (b1 mod 64) * 64 + b2 mod 64)%N, 3)
                  else
                    match s2 with
                    | EmptyString => (RuneError, 1)
                    | String c3 _ =>
                        let b3 := N_of_ascii c3 in
                        if negb (isCont c3) then (RuneError, 1)
                        else (((b0 mod 8) * 262144 + (b1 mod 64) * 4096
                               + (b2 mod 64) * 64 + b3 mod 64)%N, 4)
                    end
              end
        end
  end.

Definition encode3 (r : N) : string :=
  String (byteOf (224 + r / 4096))
    (String (byteOf (128 + (r / 64) mod 64))
       (String (byteOf (128 + r mod 64)) EmptyString)).

(** [EncodeRune]: a surrogate or a value above U+10FFFF is written as
    U+FFFD. *)
Definition EncodeRune (r : N) : string :=
  if (r <? 128)%N then String (byteOf r) EmptyString
  else if (r <? 2048)%N
  then String (byteOf (192 + r / 64)) (String (byteOf (128 + r mod 64)) EmptyString)
  else if ((1114111 <? r) || ((55296 <=? r) && (r <=? 57343)))%N
  then encode3 RuneError
  else if (r <? 65536)%N then encode3 r
  else String (byteOf (240 + r / 262144))
         (String (byteOf (128 + (r / 4096) mod 64))
            (String (byteOf (128 + (r / 64) mod 64))
               (String (byteOf (128 + r mod 64)) EmptyString))).

End utf8.

(** ** Package [entities] *)

Module entities.

(** article_request.go *)
Record ArticleRequest : Type := {
  Word : string;
  Language : string
}.

Definition NewArticleRequest (word language : string) : ArticleRequest :=
  let language := if String.eqb language EmptyString then "en" else language in
  {| Word := word; Language := language |}.

Definition IsValid (r : ArticleRequest) : bool :=
  negb (String.eqb (Word r) EmptyString).

(** article_response.go *)
Record TranslationsInfo : Type := {
  NominativeExample : string;
  NominativeTranslation : string;
  AccusativeExample : string;
  AccusativeTranslation : string;
  DativeExample : string;
  DativeTranslation : string;
  GenitiveExample : string;
  GenitiveTranslation : string
}.

Record ExampleInfo : Type := {
  Definite : TranslationsInfo;
  Indefinite : TranslationsInfo
}.

Record ExamplesInfo : Type := {
  Singular : ExampleInfo;
  Plural : ExampleInfo
}.

Record ArticleInfo : Type := {
  WordWithArticle : string;
  Translation : string;
  Example : ExamplesInfo
}.

(** A slice is modelled by a list; the nil slice and the empty slice are
    both the empty list (the program only takes their length, ranges over
    them and serializes them under [omitempty]). *)
Record ArticleResponse : Type := {
  Success : bool;
  Error : string;
  Data : list ArticleInfo
}.

Definition NewSuccessResponse (data : list ArticleInfo) : ArticleResponse :=
  {| Success := true; Error := EmptyString; Data := data |}.

Definition NewErrorResponse (err : string) : ArticleResponse :=
  {| Success := false; Error := err; Data := [] |}.

(** The zero values [TranslationsInfo{}] and [ExampleInfo{}], and the
    comparison [!=] with them (Go compares structs field by field). *)
Definition zeroTranslationsInfo : TranslationsInfo :=
  {| NominativeExample := EmptyString; NominativeTranslation := EmptyString;
     AccusativeExample := EmptyString; AccusativeTranslation := EmptyString;
     DativeExample := EmptyString; DativeTranslation := EmptyString;
     GenitiveExample := EmptyString; GenitiveTranslation := EmptyString |}.

Definition zeroExampleInfo : ExampleInfo :=
  {| Definite := zeroTranslationsInfo; Indefinite := zeroTranslationsInfo |}.

Definition zeroExamplesInfo : ExamplesInfo :=
  {| Singular := zeroExampleInfo; Plural := zeroExampleInfo |}.

Definition zeroArticleInfo : ArticleInfo :=
  {| WordWithArticle := EmptyString; Translation := EmptyString;
     Example := zeroExamplesInfo |}.

Definition eqTranslationsInfo (a b : TranslationsInfo) : bool :=
  String.eqb (NominativeExample a) (NominativeExample b)
  && String.eqb (NominativeTranslation a) (NominativeTranslation b)
  && String.eqb (AccusativeExample a) (AccusativeExample b)
  && String.eqb (AccusativeTranslation a) (AccusativeTranslation b)
  && String.eqb (DativeExample a) (DativeExample b)
  && String.eqb (DativeTranslation a) (DativeTranslation b)
  && String.eqb (GenitiveExample a) (GenitiveExample b)
  && String.eqb (GenitiveTranslation a) (GenitiveTranslation b).

Definition eqExampleInfo (a b : ExampleInfo) : bool :=
  eqTranslationsInfo (Definite a) (Definite b)
  && eqTranslationsInfo (Indefinite a) (Indefinite b).

End entities.

(** ** Package [encoding/json]

    [Unmarshal] first checks that the whole input is one valid JSON text
    (the scanner below, a state machine over the bytes with a stack of open
    arrays and objects) and then stores the value into the Go variable.  The
    scanner here builds the value while it checks. *)

Module json.

#[local] Unset Elimination Schemes.
Inductive Value : Type :=
| Null
| Bool (b : bool)
| Number (literal : string)
| Str (s : string)
| Array (items : list Value)
| Object (members : list (string * Value)).
#[local] Set Elimination Schemes.

(** *** String literals *)

Definition hexVal (c : ascii) : option N :=
  let n := N_of_ascii c in
  if ((48 <=? n) && (n <=? 57))%N then Some (n - 48)%N
  else if ((97 <=? n) && (n <=? 102))%N then Some (n - 87)%N
  else if ((65 <=? n) && (n <=? 70))%N then Some (n - 55)%N
  else None.

(** [getu4 s]: the number written by the escape [\uXXXX] that [s] starts
    with, if it starts with one. *)
Definition getu4 (s : string) : option N :=
  match s with
  | String c0 (String c1 (String h1 (String h2 (String h3 (String h4 _))))) =>
      if Ascii.eqb c0 "\" && Ascii.eqb c1 "u" then
        match hexVal h1, hexVal h2, hexVal h3, hexVal h4 with
        | Some a, Some b, Some c, Some d => Some (((a * 16 + b) * 16 + c) * 16 + d)%N
        | _, _, _, _ => None
        end
      else None
  | _ => None
  end.

Definition isSurrogate (r : N) : bool := ((55296 <=? r) && (r <? 57344))%N.

(** [utf16.DecodeRune] *)
Definition decodeSurrogates (r1 r2 : N) : N :=
  if ((55296 <=? r1) && (r1 <? 56320) && (56320 <=? r2) && (r2 <? 57344))%N
  then ((r1 - 55296) * 1024 + (r2 - 56320) + 65536)%N
  else utf8.RuneError.

Definition unescape (c : ascii) : ascii :=
  if Ascii.eqb c "b" then "008"%char
  else if Ascii.eqb c "f" then "012"%char
  else if Ascii.eqb c "n" then "010"%char
  else if Ascii.eqb c "r" then "013"%char
  else if Ascii.eqb c "t" then "009"%char
  else c.

(** [unquote]: the bytes a scanned string literal stands for (the text
    between its quotes is [s]).  Escapes are replaced, a surrogate pair
    written as two escapes becomes one code point, and bytes that are not
    valid UTF-8 become U+FFFD.  [skip] counts bytes already accounted for. *)
Fixpoint unquoteFrom (s : string) (skip : nat) : string :=
  match s with
  | EmptyString => EmptyString
  | String c s' =>
      match skip with
      | S skip' => unquoteFrom s' skip'
      | 0 =>
          if Ascii.eqb c "\" then
            match s' with
            | EmptyString => EmptyString
            | String e _ =>
                if Ascii.eqb e "u" then
                  match getu4 s with
                  | None => EmptyString
                  | Some rr =>
                      if isSurrogate rr then
                        match getu4 (strings.drop 6 s) with
                        | Some rr1 =>
                            let dec := decodeSurrogates rr rr1 in
                            if (dec =? utf8.RuneError)%N
                            then utf8.EncodeRune utf8.RuneError ++ unquoteFrom s' 5
                            else utf8.EncodeRune dec ++ unquoteFrom s' 11
                        | None => utf8.EncodeRune utf8.RuneError ++ unquoteFrom s' 5
                        end
                      else utf8.EncodeRune rr ++ unquoteFrom s' 5
                  end
                else String (unescape e) (unquoteFrom s' 1)
            end
          else if (N_of_ascii c <? 128)%N then String c (unquoteFrom s' 0)
          else
            let (r, size) := utf8.DecodeRuneInString s in
            utf8.EncodeRune r ++ unquoteFrom s' (size - 1)
      end
  end.

Definition unquote (s : string) : string := unquoteFrom s 0.

(** *** Numbers and the three literal names *)

Definition isDigit (c : ascii) : bool :=
  let n := nat_of_ascii c in (48 <=? n) && (n <=? 57).

Fixpoint digits (s : string) : string :=
  match s with
  | String c s' => if isDigit c then digits s' else s
  | EmptyString => s
  end.

Definition digits1 (s : string) : option string :=
  match s with
  | String c s' => if isDigit c then Some (digits s') else None
  | EmptyString => None
  end.

Definition exponent (s : string) : bool :=
  match s with
  | EmptyString => true
  | String c s' =>
      if Ascii.eqb c "e" || Ascii.eqb c "E" then
        let s'' := match s' with
                   | String sign t =>
                       if Ascii.eqb sign "+" || Ascii.eqb sign "-" then t else s'
                   | EmptyString => s'
                   end in
        match digits1 s'' with
        | Some EmptyString => true
        | _ => false
        end
      else false
  end.

Definition fraction (s : string) : bool :=
  match s with
  | String c s' =>
      if Ascii.eqb c "." then
        match digits1 s' with
        | Some rest => exponent rest
        | None => false
        end
      else exponent s
  | EmptyString => true
  end.

Definition validNumber (s : string) : bool :=
  let s := match s with
           | String c s' => if Ascii.eqb c "-" then s' else s
           | EmptyString => s
           end in
  match s with
  | String c s' =>
      if Ascii.eqb c "0" then fraction s'
      else if isDigit c then fraction (digits s')
      else false
  | EmptyString => false
  end.

Definition atom (text : string) : option Value :=
  if String.eqb text "true" then Some (Bool true)
  else if String.eqb text "false" then Some (Bool false)
  else if String.eqb text "null" then Some Null
  else if validNumber text then Some (Number text)
  else None.

Definition isAtomByte (c : ascii) : bool :=
  let n := nat_of_ascii c in
  isDigit c || ((65 <=? n) && (n <=? 90)) || ((97 <=? n) && (n <=? 122))
  || Ascii.eqb c "+" || Ascii.eqb c "-" || Ascii.eqb c ".".

(** *** The scanner *)

Definition isSpace (c : ascii) : bool :=
  let n := nat_of_ascii c in (n =? 32) || (n =? 9) || (n =? 13) || (n =? 10).

(** An open array with its items so far, or an open object with its
    members so far and the key whose value is being read; both latest
    first. *)
Inductive frame : Type :=
| InArray (items : list Value)
| InObject (members : list (string * Value)) (key : option string).

Inductive mode : Type :=
| BeginValue
| BeginValueOrEmpty
| BeginStringOrEmpty
| BeginString
| InString (raw : string)
| InStringEsc (raw : string)
| InStringEscU (raw : string) (remaining : nat)
| InAtom (text : string)
| ObjectKey
| EndValue
| EndTop (v : Value)
| Invalid.

Record scanner : Type := {
  parseState : list frame;
  step : mode
}.

Definition maxNestingDepth : nat := 100 * 100.

Definition invalid : scanner := {| parseState := []; step := Invalid |}.

Definition push (f : frame) (stack : list frame) (next : mode) : scanner :=
  if List.length stack <? maxNestingDepth
  then {| parseState := f :: stack; step := next |}
  else invalid.

(** A value is complete: it is the whole text, the next item of the open
    array, or the value of the pending key of the open object. *)
Definition endValue (stack : list frame) (v : Value) : scanner :=
  match stack with
  | [] => {| parseState := []; step := EndTop v |}
  | InArray items :: rest =>
      {| parseState := InArray (v :: items) :: rest; step := EndValue |}
  | InObject members (Some key) :: rest =>
      {| parseState := InObject ((key, v) :: members) None :: rest; step := EndValue |}
  | InObject _ None :: _ => invalid
  end.

(** A string literal is complete: a key if an object waits for one. *)
Definition endString (stack : list frame) (raw : string) : scanner :=
  let s := unquote (strings.rev raw) in
  match stack with
  | InObject members None :: rest =>
      {| parseState := InObject members (Some s) :: rest; step := ObjectKey |}
  | _ => endValue stack (Str s)
  end.

Definition beginValue (stack : list frame) (c : ascii) : scanner :=
  if Ascii.eqb c "{" then push (InObject [] None) stack BeginStringOrEmpty
  else if Ascii.eqb c "[" then push (InArray []) stack BeginValueOrEmpty
  else if Ascii.eqb c dquote then {| parseState := stack; step := InString EmptyString |}
  else if isAtomByte c then {| parseState := stack; step := InAtom (String c EmptyString) |}
  else invalid.

(** After a value: a comma, or the end of the open array or object. *)
Definition afterValue (sc : scanner) (c : ascii) : scanner :=
  match step sc with
  | EndValue =>
      if isSpace c then sc else
      match parseState sc with
      | InArray items :: rest =>
          if Ascii.eqb c "," then {| parseState := parseState sc; step := BeginValue |}
          else if Ascii.eqb c "]" then endValue rest (Array (List.rev items))
          else invalid
      | InObject members None :: rest =>
          if Ascii.eqb c "," then {| parseState := parseState sc; step := BeginString |}
          else if Ascii.eqb c "}" then endValue rest (Object (List.rev members))
          else invalid
      | _ => invalid
      end
  | EndTop _ => if isSpace c then sc else invalid
  | _ => invalid
  end.

Definition next (sc : scanner) (c : ascii) : scanner :=
  let stack := parseState sc in
  match step sc with
  | BeginValue => if isSpace c then sc else beginValue stack c
  | BeginValueOrEmpty =>
      if isSpace c then sc
      else if Ascii.eqb c "]" then
        match stack with
        | InArray _ :: rest => endValue rest (Array [])
        | _ => invalid
        end
      else beginValue stack c
  | BeginStringOrEmpty =>
      if isSpace c then sc
      else if Ascii.eqb c "}" then
        match stack with
        | InObject _ _ :: rest => endValue rest (Object [])
        | _ => invalid
        end
      else if Ascii.eqb c dquote then {| parseState := stack; step := InString EmptyString |}
      else invalid
  | BeginString =>
      if isSpace c then sc
      else if Ascii.eqb c dquote then {| parseState := stack; step := InString EmptyString |}
      else invalid
  | InString raw =>
      if Ascii.eqb c dquote then endString stack raw
      else if Ascii.eqb c "\" then {| parseState := stack; step := InStringEsc (String c raw) |}
      else if nat_of_ascii c <? 32 then invalid
      else {| parseState := stack; step := InString (String c raw) |}
  | InStringEsc raw =>
      if Ascii.eqb c "u" then {| parseState := stack; step := InStringEscU (String c raw) 4 |}
      else if Ascii.eqb c "b" || Ascii.eqb c "f" || Ascii.eqb c "n" || Ascii.eqb c "r"
              || Ascii.eqb c "t" || Ascii.eqb c "\" || Ascii.eqb c "/" || Ascii.eqb c dquote
      then {| parseState := stack; step := InString (String c raw) |}
      else invalid
  | InStringEscU raw remaining =>
      match hexVal c with
      | None => invalid
      | Some _ =>
          match remaining with
          | S (S n) => {| parseState := stack; step := InStringEscU (String c raw) (S n) |}
          | _ => {| parseState := stack; step := InString (String c raw) |}
          end
      end
  | InAtom text =>
      if isAtomByte c then {| parseState := stack; step := InAtom (String c text) |}
      else
        match atom (strings.rev text) with
        | Some v => afterValue (endValue stack v) c
        | None => invalid
        end
  | ObjectKey =>
      if isSpace c then sc
      else if Ascii.eqb c ":" then {| parseState := stack; step := BeginValue |}
      else invalid
  | EndValue | EndTop _ => afterValue sc c
  | Invalid => invalid
  end.

Fixpoint scan (sc : scanner) (data : string) : scanner :=
  match data with
  | EmptyString => sc
  | String c data' => scan (next sc c) data'
  end.

(** End of input: the text is valid if a top-level value is complete. *)
Definition eof (sc : scanner) : option Value :=
  match step sc with
  | EndTop v => Some v
  | InAtom text =>
      match parseState sc, atom (strings.rev text) with
      | [], Some v => Some v
      | _, _ => None
      end
  | _ => None
  end.

Definition parse (data : string) : option Value :=
  eof (scan {| parseState := []; step := BeginValue |} data).

(** *** Storing a value into a Go variable

    A JSON [null] leaves a string, a boolean or a struct as it is and sets
    a slice to nil; a value of the wrong kind is an error.  An object
    member is stored into the field whose name is the key, or else into
    the field whose name is the key up to letter case; other members are
    skipped.  A member that occurs twice is stored twice into the same
    field. *)

(** [foldName]: ASCII letters in upper case; U+017F and U+212A fold to S
    and K. *)
Fixpoint foldName (s : string) : string :=
  match s with
  | EmptyString => EmptyString
  | String c0 s0 =>
      let n0 := nat_of_ascii c0 in
      let plain :=
        String (if (97 <=? n0) && (n0 <=? 122) then ascii_of_nat (n0 - 32) else c0)
               (foldName s0) in
      match s0 with
      | String c1 s1 =>
          let n1 := nat_of_ascii c1 in
          if (n0 =? 197) && (n1 =? 191) then String "S" (foldName s1)
          else
            match s1 with
            | String c2 s2 =>
                if (n0 =? 226) && (n1 =? 132) && (nat_of_ascii c2 =? 170)
                then String "K" (foldName s2)
                else plain
            | EmptyString => plain
            end
      | EmptyString => plain
      end
  end.

Fixpoint indexOf (p : string -> bool) (names : list string) : option nat :=
  match names with
  | [] => None
  | name :: names' =>
      if p name then Some 0
      else match indexOf p names' with
           | Some i => Some (S i)
           | None => None
           end
  end.

Definition field (names : list string) (key : string) : option nat :=
  match indexOf (String.eqb key) names with
  | Some i => Some i
  | None => indexOf (fun name => String.eqb (foldName key) (foldName name)) names
  end.

Definition storeString (v : Value) (old : string) : option string :=
  match v with
  | Null => Some old
  | Str s => Some s
  | _ => None
  end.

Definition storeBool (v : Value) (old : bool) : option bool :=
  match v with
  | Null => Some old
  | Bool b => Some b
  | _ => None
  end.

Fixpoint storeMembers {A : Type} (set : string -> Value -> A -> option A)
         (members : list (string * Value)) (a : A) : option A :=
  match members with
  | [] => Some a
  | (key, v) :: members' =>
      match set key v a with
      | Some a' => storeMembers set members' a'
      | None => None
      end
  end.

Definition storeStruct {A : Type} (set : string -> Value -> A -> option A)
           (v : Value) (old : A) : option A :=
  match v with
  | Null => Some old
  | Object members => storeMembers set members old
  | _ => None
  end.

(** Items are stored into the cells of the backing array of the slice, a
    cell beyond it being a new zero cell; the result is the backing array
    and the number of items. *)
Fixpoint storeItems {A : Type} (zero : A) (store : Value -> A -> option A)
         (items : list Value) (backing : list A) : option (list A * nat) :=
  match items with
  | [] => Some (backing, 0)
  | v :: items' =>
      match store v (List.hd zero backing) with
      | None => None
      | Some a =>
          match storeItems zero store items' (List.tl backing) with
          | Some (backing', n) => Some (a :: backing', S n)
          | None => None
          end
      end
  end.

Definition storeSlice {A : Type} (zero : A) (store : Value -> A -> option A)
           (v : Value) (backing : list A) : option (list A * nat) :=
  match v with
  | Null => Some ([], 0)
  | Array [] => Some ([], 0)
  | Array items => storeItems zero store items backing
  | _ => None
  end.

Import entities.

Definition translationsInfoFields : list string :=
  [ "nominativeExample"; "nominativeTranslation";
    "accusativeExample"; "accusativeTranslation";
    "dativeExample"; "dativeTranslation";
    "genitiveExample"; "genitiveTranslation" ].

Definition setTranslationsInfo (key : string) (v : Value) (t : TranslationsInfo)
  : option TranslationsInfo :=
  let get i :=
    match i with
    | 0 => NominativeExample t | 1 => NominativeTranslation t
    | 2 => AccusativeExample t | 3 => AccusativeTranslation t
    | 4 => DativeExample t | 5 => DativeTranslation t
    | 6 => GenitiveExample t | _ => GenitiveTranslation t
    end in
  match field translationsInfoFields key with
  | None => Some t
  | Some i =>
      match storeString v (get i) with
      | None => None
      | Some s =>
          let pick j := if j =? i then s else get j in
          Some {| NominativeExample := pick 0; NominativeTranslation := pick 1;
                  AccusativeExample := pick 2; AccusativeTranslation := pick 3;
                  DativeExample := pick 4; DativeTranslation := pick 5;
                  GenitiveExample := pick 6; GenitiveTranslation := pick 7 |}
      end
  end.

Definition storeTranslationsInfo : Value -> TranslationsInfo -> option TranslationsInfo :=
  storeStruct setTranslationsInfo.

Definition setExampleInfo (key : string) (v : Value) (e : ExampleInfo)
  : option ExampleInfo :=
  match field ["definite"; "indefinite"] key with
  | Some 0 =>
      match storeTranslationsInfo v (Definite e) with
      | Some t => Some {| Definite := t; Indefinite := Indefinite e |}
      | None => None
      end
  | Some _ =>
      match storeTranslationsInfo v (Indefinite e) with
      | Some t => Some {| Definite := Definite e; Indefinite := t |}
      | None => None
      end
  | None => Some e
  end.

Definition storeExampleInfo : Value -> ExampleInfo -> option ExampleInfo :=
  storeStruct setExampleInfo.

Definition setExamplesInfo (key : string) (v : Value) (e : ExamplesInfo)
  : option ExamplesInfo :=
  match field ["singular"; "plural"] key with
  | Some 0 =>
      match storeExampleInfo v (Singular e) with
      | Some x => Some {| Singular := x; Plural := Plural e |}
      | None => None
      end
  | Some _ =>
      match storeExampleInfo v (Plural e) with
      | Some x => Some {| Singular := Singular e; Plural := x |}
      | None => None
      end
  | None => Some e
  end.

Definition storeExamplesInfo : Value -> ExamplesInfo -> option ExamplesInfo :=
  storeStruct setExamplesInfo.

Definition setArticleInfo (key : string) (v : Value) (a : ArticleInfo)
  : option ArticleInfo :=
  match field ["wordWithArticle"; "translation"; "example"] key with
  | Some 0 =>
      match storeString v (WordWithArticle a) with
      | Some s => Some {| WordWithArticle := s; Translation := Translation a;
                          Example := Example a |}
      | None => None
      end
  | Some 1 =>
      match storeString v (Translation a) with
      | Some s => Some {| WordWithArticle := WordWithArticle a; Translation := s;
                          Example := Example a |}
      | None => None
      end
  | Some _ =>
      match storeExamplesInfo v (Example a) with
      | Some e => Some {| WordWithArticle := WordWithArticle a;
                          Translation := Translation a; Example := e |}
      | None => None
      end
  | None => Some a
  end.

Definition storeArticleInfo : Value -> ArticleInfo -> option ArticleInfo :=
  storeStruct setArticleInfo.

(** *** Marshal: string literals as [Marshal] writes them

    Quotes, backslashes and control bytes are escaped, and so are the
    bytes for less-than, greater-than and ampersand (HTML escaping is on by
    default), U+2028 and U+2029; a byte that is not valid UTF-8 is written
    as the escape of U+FFFD. *)

Definition hexDigit (n : N) : ascii :=
  if (n <? 10)%N then ascii_of_N (48 + n) else ascii_of_N (87 + n).

Definition escapeByte (c : ascii) : string :=
  let n := N_of_ascii c in
  if Ascii.eqb c "\" || Ascii.eqb c dquote then String "\" (String c EmptyString)
  else if (n =? 8)%N then "\b"
  else if (n =? 12)%N then "\f"
  else if (n =? 10)%N then "\n"
  else if (n =? 13)%N then "\r"
  else if (n =? 9)%N then "\t"
  else if ((n <? 32) || (n =? 60) || (n =? 62) || (n =? 38))%N
  then "\u00" ++ String (hexDigit (n / 16)) (String (hexDigit (n mod 16)) EmptyString)
  else String c EmptyString.

(** [pending] counts the remaining bytes of the code point being passed
    over, which are copied if [copy] is set. *)
Fixpoint quoteFrom (s : string) (pending : nat) (copy : bool) : string :=
  match s with
  | EmptyString => EmptyString
  | String c s' =>
      match pending with
      | S pending' =>
          if copy then String c (quoteFrom s' pending' copy)
          else quoteFrom s' pending' copy
      | 0 =>
          if (N_of_ascii c <? 128)%N then escapeByte c ++ quoteFrom s' 0 false
          else
            let (r, size) := utf8.DecodeRuneInString s in
            if (r =? utf8.RuneError)%N && (size =? 1)
            then "\ufffd" ++ quoteFrom s' 0 false
            else if ((r =? 8232) || (r =? 8233))%N
            then "\u202" ++ String (hexDigit (r mod 16)) (quoteFrom s' (size - 1) false)
            else String c (quoteFrom s' (size - 1) true)
      end
  end.

Definition quote (s : string) : string := DQ ++ quoteFrom s 0 false ++ DQ.

Fixpoint join (sep : string) (pieces : list string) : string :=
  match pieces with
  | [] => EmptyString
  | [piece] => piece
  | piece :: pieces' => piece ++ sep ++ join sep pieces'
  end.

Fixpoint encode (v : Value) : string :=
  match v with
  | Null => "null"
  | Bool true => "true"
  | Bool false => "false"
  | Number literal => literal
  | Str s => quote s
  | Array items => "[" ++ join "," (List.map encode items) ++ "]"
  | Object members =>
      "{" ++ join "," (List.map (fun m => quote (fst m) ++ ":" ++ encode (snd m)) members)
          ++ "}"
  end.

(** [MarshalIndent v prefix indent] lays the same text out over lines. *)
Fixpoint encodeIndent (prefix indent : string) (depth : nat) (v : Value) : string :=
  let newline d := LF ++ prefix ++ strings.Repeat indent d in
  match v with
  | Array ((_ :: _) as items) =>
      "[" ++ newline (S depth)
          ++ join ("," ++ newline (S depth))
               (List.map (encodeIndent prefix indent (S depth)) items)
          ++ newline depth ++ "]"
  | Object ((_ :: _) as members) =>
      "{" ++ newline (S depth)
          ++ join ("," ++ newline (S depth))
               (List.map (fun m => quote (fst m) ++ ": "
                                   ++ encodeIndent prefix indent (S depth) (snd m))
                         members)
          ++ newline depth ++ "}"
  | _ => encode v
  end.

(** The values of the entities, following their struct tags: a string
    field tagged [omitempty] is left out when empty, a slice so tagged
    when it has no items; a struct field is always written. *)
Definition omitempty (key s : string) : list (string * Value) :=
  if String.eqb s EmptyString then [] else [(key, Str s)].

Definition ofTranslationsInfo (t : TranslationsInfo) : Value :=
  Object (omitempty "nominativeExample" (NominativeExample t)
          ++ omitempty "nominativeTranslation" (NominativeTranslation t)
          ++ omitempty "accusativeExample" (AccusativeExample t)
          ++ omitempty "accusativeTranslation" (AccusativeTranslation t)
          ++ omitempty "dativeExample" (DativeExample t)
          ++ omitempty "dativeTranslation" (DativeTranslation t)
          ++ omitempty "genitiveExample" (GenitiveExample t)
          ++ omitempty "genitiveTranslation" (GenitiveTranslation t))%list.

Definition ofExampleInfo (e : ExampleInfo) : Value :=
  Object [ ("definite", ofTranslationsInfo (Definite e));
           ("indefinite", ofTranslationsInfo (Indefinite e)) ].

Definition ofExamplesInfo (e : ExamplesInfo) : Value :=
  Object [ ("singular", ofExampleInfo (Singular e));
           ("plural", ofExampleInfo (Plural e)) ].

Definition ofArticleInfo (a : ArticleInfo) : Value :=
  Object [ ("wordWithArticle", Str (WordWithArticle a));
           ("translation", Str (Translation a));
           ("example", ofExamplesInfo (Example a)) ].

Definition ofArticleResponse (r : ArticleResponse) : Value :=
  Object ([("success", Bool (Success r))]
          ++ omitempty "error" (Error r)
          ++ match Data r with
             | [] => []
             | data => [("data", Array (List.map ofArticleInfo data))]
             end)%list.

End json.

(** ** Package [html/template]

    The prompt template consists of text and of actions that print one
    field of the data, written as a dot and the field name between double
    braces.  The package escapes what an action prints for the HTML context
    the action stands in; the template text has no less-than sign, so every
    action stands in HTML text and its value passes through the HTML
    escaper.  The data is a map from field names to strings. *)

Module template.

Inductive node : Type :=
| TextNode (text : string)
| FieldNode (name : string).

Definition flush (text : string) (rest : list node) : list node :=
  match text with
  | EmptyString => rest
  | _ => TextNode (strings.rev text) :: rest
  end.

(** [Parse]: [acc] holds, latest byte first, the text or the action read so
    far; [skip] the bytes of a delimiter still to be passed over. *)
Fixpoint parseFrom (s : string) (inAction : bool) (acc : string) (skip : nat)
  : option (list node) :=
  match s with
  | EmptyString => if inAction then None else Some (flush acc [])
  | String c s' =>
      match skip with
      | S skip' => parseFrom s' inAction acc skip'
      | 0 =>
          if inAction then
            if strings.HasPrefix s "}}" then
              match strings.TrimSpace (strings.rev acc) with
              | String "." name =>
                  match parseFrom s' false EmptyString 1 with
                  | Some rest => Some (FieldNode name :: rest)
                  | None => None
                  end
              | _ => None
              end
            else parseFrom s' true (String c acc) 0
          else if strings.HasPrefix s "{{" then
            match parseFrom s' true EmptyString 1 with
            | Some rest => Some (flush acc rest)
            | None => None
            end
          else parseFrom s' false (String c acc) 0
      end
  end.

Definition Parse (text : string) : option (list node) :=
  parseFrom text false EmptyString 0.

(** The HTML escaper: the replacement table of the package. *)
Definition htmlReplacement (c : ascii) : string :=
  let n := nat_of_ascii c in
  if n =? 0 then utf8.EncodeRune utf8.RuneError
  else if n =? 34 then "&#34;"
  else if n =? 38 then "&amp;"
  else if n =? 39 then "&#39;"
  else if n =? 43 then "&#43;"
  else if n =? 60 then "&lt;"
  else if n =? 62 then "&gt;"
  else String c EmptyString.

Fixpoint htmlEscaper (s : string) : string :=
  match s with
  | EmptyString => EmptyString
  | String c s' => htmlReplacement c ++ htmlEscaper s'
  end.

Fixpoint lookup (data : list (string * string)) (name : string) : string :=
  match data with
  | [] => EmptyString
  | (key, value) :: data' => if String.eqb key name then value else lookup data' name
  end.

Fixpoint Execute (nodes : list node) (data : list (string * string)) : string :=
  match nodes with
  | [] => EmptyString
  | TextNode text :: nodes' => text ++ Execute nodes' data
  | FieldNode name :: nodes' => htmlEscaper (lookup data name) ++ Execute nodes' data
  end.

End template.

(** ** Package [genai]: the reply of the model *)

Module genai.

Record Part : Type := { Text : string }.

Record Content : Type := { Parts : list Part }.

(** The content of a candidate is a pointer, nil when the candidate
    carries none. *)
Record Candidate : Type := { Content_ : option Content }.

Record GenerateContentResponse : Type := { Candidates : list Candidate }.

End genai.

(** ** What the program does besides computing

    Log entries, tracing spans and the call of the model are recorded, in
    order, in a trace that every operation threads through. *)

Inductive error : Type := errorString (msg : string).

Definition errorText (e : error) : string := let (msg) := e in msg.

Inductive severity : Type := INFO | WARNING | ERROR.

Inductive event : Type :=
| Log (level : severity) (payload : list (string * string))
| SpanStart (name : string)
| SpanEnd
| GenerateContent (model contents : string).

Definition M (A : Type) : Type := list event -> A * list event.

Definition ret {A : Type} (a : A) : M A := fun trace => (a, trace).

Definition bind {A B : Type} (m : M A) (f : A -> M B) : M B :=
  fun trace => let (a, trace') := m trace in f a trace'.

Definition emit (e : event) : M unit := fun trace => (tt, (trace ++ [e])%list).

Notation "x <- m ;; k" := (bind m (fun x => k))
  (at level 61, m at next level, right associativity).
Notation "m ;;; k" := (bind m (fun _ => k))
  (at level 61, right associativity).

(** A result as Go functions of the program return it: a response that may
    be nil, and an error that may be nil. *)
Definition result : Type := option entities.ArticleResponse * option error.

(** ** Package [ai] *)

Module ai.

Import entities genai.

Definition q (s : string) : string := DQ ++ s ++ DQ.

Definition lines (l : list string) : string := json.join LF l.

Definition modelName : string := "gemini-2.0-flash".

Definition prompt : string :=
  lines [
    "You are a German language assistant. I will provide you with a German noun (Nomen), and you need to determine the correct article (der, die, das).";
    EmptyString;
    "The word is: " ++ q "{{.Word}}";
    "определённый артикль — definite article";
    "неопределённый артикль — indefinite article";
    "Respond in JSON format with EXACTLY this structure:";
    "{";
    "  " ++ q "error" ++ ": false/true,";
    "  " ++ q "errorMessage" ++ ": " ++ q "Only if there's an error, explain what's wrong in {{.Language}} language" ++ ",";
    "  " ++ q "data" ++ ": [";
    "    {";
    "      " ++ q "wordWithArticle" ++ ": " ++ q "article + word in German" ++ ",";
    "      " ++ q "translation" ++ ": " ++ q "translation in {{.Language}}" ++ ",";
    "	  " ++ q "example" ++ ": {";
    "		" ++ q "singular" ++ ": {";
    "			" ++ q "definite" ++ ": {";
    "				" ++ q "nominativeExample" ++ ": " ++ q "simple example using the word \" ++ "{{.Word}}\" ++ q " in singular nominative definite case" ++ ",";
    "				" ++ q "nominativeTranslation" ++ ": " ++ q "translation of the singular nominative definite example in {{.Language}}" ++ ",";
    "				" ++ q "accusativeExample" ++ ": " ++ q "simple example using the word \" ++ "{{.Word}}\" ++ q " in singular accusative definite case" ++ ",";
    "				" ++ q "accusativeTranslation" ++ ": " ++ q "translation of the singular accusative definite example in {{.Language}}" ++ ",";
    "				" ++ q "dativeExample" ++ ": " ++ q "simple example using the word \" ++ "{{.Word}}\" ++ q " in singular dative definite case" ++ ",";
    "				" ++ q "dativeTranslation" ++ ": " ++ q "translation of the singular dative definite example in {{.Language}}" ++ ",";
    "				" ++ q "genitiveExample" ++ ": " ++ q "simple example using the word \" ++ "{{.Word}}\" ++ q " in singular genitive definite case" ++ ",";
    "				" ++ q "genitiveTranslation" ++ ": " ++ q "translation of the singular genitive definite example in {{.Language}}";
    "			},";
    "			" ++ q "indefinite" ++ ": {";
    "				" ++ q "nominativeExample" ++ ": " ++ q "simple example using the word \" ++ "{{.Word}}\" ++ q " in singular nominative indefinite case" ++ ",";
    "				" ++ q "nominativeTranslation" ++ ": " ++ q "translation of the singular nominative indefinite example in {{.Language}}" ++ ",";
    "				" ++ q "accusativeExample" ++ ": " ++ q "simple example using the word \" ++ "{{.Word}}\" ++ q " in singular accusative indefinite case" ++ ",";
    "				" ++ q "accusativeTranslation" ++ ": " ++ q "translation of the singular accusative indefinite example in {{.Language}}" ++ ",";
    "				" ++ q "dativeExample" ++ ": " ++ q "simple example using the word \" ++ "{{.Word}}\" ++ q " in singular dative indefinite case" ++ ",";
    "				" ++ q "dativeTranslation" ++ ": " ++ q "translation of the singular dative indefinite example in {{.Language}}" ++ ",";
    "				" ++ q "genitiveExample" ++ ": " ++ q "simple example using the word \" ++ "{{.Word}}\" ++ q " in singular genitive indefinite case" ++ ",";
    "				" ++ q "genitiveTranslation" ++ ": " ++ q "translation of the singular genitive indefinite example in {{.Language}}";
    "			},";
    "		},";
    "		" ++ q "plural" ++ ": {";
    "			" ++ q "definite" ++ ": {";
    "				" ++ q "nominativeExample" ++ ": " ++ q "simple example using the word \" ++ "{{.Word}}\" ++ q " in plural nominative definite case" ++ ",";
    "				" ++ q "nominativeTranslation" ++ ": " ++ q "translation of the plural nominative definite example in {{.Language}}" ++ ",";
    "				" ++ q "accusativeExample" ++ ": " ++ q "simple example using the word \" ++ "{{.Word}}\" ++ q " in plural accusative definite case" ++ ",";
    "				" ++ q "accusativeTranslation" ++ ": " ++ q "translation of the plural accusative definite example in {{.Language}}" ++ ",";
    "				" ++ q "dativeExample" ++ ": " ++ q "simple example using the word \" ++ "{{.Word}}\" ++ q " in plural dative definite case" ++ ",";
    "				" ++ q "dativeTranslation" ++ ": " ++ q "translation of the plural dative definite example in {{.Language}}" ++ ",";
    "				" ++ q "genitiveExample" ++ ": " ++ q "simple example using the word \" ++ "{{.Word}}\" ++ q " in plural genitive definite case" ++ ",";
    "				" ++ q "genitiveTranslation" ++ ": " ++ q "translation of the plural genitive definite example in {{.Language}}";
    "			},";
    "			" ++ q "indefinite" ++ ": {";
    "				" ++ q "nominativeExample" ++ ": " ++ q "simple example using the word \" ++ "{{.Word}}\" ++ q " in plural nominative indefinite case" ++ ",";
    "				" ++ q "nominativeTranslation" ++ ": " ++ q "translation of the plural nominative indefinite example in {{.Language}}" ++ ",";
    "				" ++ q "accusativeExample" ++ ": " ++ q "simple example using the word \" ++ "{{.Word}}\" ++ q " in plural accusative indefinite case" ++ ",";
    "				" ++ q "accusativeTranslation" ++ ": " ++ q "translation of the plural accusative indefinite example in {{.Language}}" ++ ",";
    "				" ++ q "dativeExample" ++ ": " ++ q "simple example using the word \" ++ "{{.Word}}\" ++ q " in plural dative indefinite case" ++ ",";
    "				" ++ q "dativeTranslation" ++ ": " ++ q "translation of the plural dative indefinite example in {{.Language}}" ++ ",";
    "				" ++ q "genitiveExample" ++ ": " ++ q "simple example using the word \" ++ "{{.Word}}\" ++ q " in plural genitive indefinite case" ++ ",";
    "				" ++ q "genitiveTranslation" ++ ": " ++ q "translation of the plural genitive indefinite example in {{.Language}}";
    "			},";
    "		},";
    "	  }";
    "    }";
    "  ]";
    "}";
    EmptyString;
    "If the input is not a German noun or contains multiple words that aren't a compound noun, set " ++ q "error" ++ " to true and provide an appropriate error message.";
    "If there are multiple possible interpretations, include each as a separate object in the data array.";
    "Ensure ALL field values are properly escaped for JSON."
  ].

(** The external model: what [client.Models.GenerateContent] answers to
    a request, a reply or an error. *)
Definition Client : Type := string -> string -> GenerateContentResponse + error.

Record GeminiService : Type := { client : Client }.

Definition NewGeminiService (c : Client) : GeminiService := {| client := c |}.

(** The pattern [(?s)\{.*}]: an opening brace, any bytes (the flag lets the
    dot match a line feed too), a closing brace. *)
Definition anyByte (c : ascii) : bool := true.

Definition re : regexp.Regexp :=
  regexp.Cat (regexp.Lit "{")
    (regexp.Cat (regexp.Star (regexp.Class anyByte)) (regexp.Lit "}")).

(** The pattern [,(\s*[}\]])]: a comma, then as group 1 any white space
    (tab, line feed, form feed, carriage return, space) and a closing brace
    or bracket. *)
Definition perlSpace (c : ascii) : bool :=
  let n := nat_of_ascii c in
  (n =? 9) || (n =? 10) || (n =? 12) || (n =? 13) || (n =? 32).

Definition closing (c : ascii) : bool := Ascii.eqb c "}" || Ascii.eqb c "]".

Definition reValidate : regexp.Regexp :=
  regexp.Cat (regexp.Lit ",")
    (regexp.Group 1
       (regexp.Cat (regexp.Star (regexp.Class perlSpace)) (regexp.Class closing))).

(** The text handed to the JSON parser for the text of a candidate. *)
Definition clean (textResponse : string) : string :=
  let match_ := regexp.FindString re textResponse in
  let textResponse := strings.TrimSpace match_ in
  regexp.ReplaceAllString reValidate textResponse "$1".

(** The struct the reply is parsed into, and the variable of that type
    while members are stored into it: [varData] is the backing array of the
    slice [Data] and its length. *)
Record aiResponse : Type := {
  Error : bool;
  ErrorMessage : string;
  Data : list ArticleInfo
}.

Record aiResponseVar : Type := {
  varError : bool;
  varErrorMessage : string;
  varData : list ArticleInfo * nat
}.

Definition setAiResponse (key : string) (v : json.Value) (r : aiResponseVar)
  : option aiResponseVar :=
  match json.field ["error"; "errorMessage"; "data"] key with
  | Some 0 =>
      match json.storeBool v (varError r) with
      | Some b => Some {| varError := b; varErrorMessage := varErrorMessage r;
                          varData := varData r |}
      | None => None
      end
  | Some 1 =>
      match json.storeString v (varErrorMessage r) with
      | Some s => Some {| varError := varError r; varErrorMessage := s;
                          varData := varData r |}
      | None => None
      end
  | Some _ =>
      match json.storeSlice zeroArticleInfo json.storeArticleInfo v (fst (varData r)) with
      | Some d => Some {| varError := varError r; varErrorMessage := varErrorMessage r;
                          varData := d |}
      | None => None
      end
  | None => Some r
  end.

(** [json.Unmarshal] into a fresh [aiResponse]; [None] is an error. *)
Definition Unmarshal (data : string) : option aiResponse :=
  match json.parse data with
  | None => None
  | Some v =>
      match json.storeStruct setAiResponse v
              {| varError := false; varErrorMessage := EmptyString; varData := ([], 0) |} with
      | Some r => Some {| Error := varError r; ErrorMessage := varErrorMessage r;
                          Data := List.firstn (snd (varData r)) (fst (varData r)) |}
      | None => None
      end
  end.

(** The two ways out of the loop once a candidate has parsed. *)
Definition classify (aiResponse : aiResponse) : ArticleResponse :=
  if Error aiResponse
  then NewErrorResponse (ErrorMessage aiResponse)
  else NewSuccessResponse (Data aiResponse).

Definition itoa (i : nat) : string :=
  DecimalString.NilEmpty.string_of_uint (Nat.to_uint i).

(** The text of a candidate: its non-empty text parts, concatenated. *)
Fixpoint textOf (parts : list Part) (textResponse : string) : string :=
  match parts with
  | [] => textResponse
  | part :: parts' =>
      textOf parts' (if negb (String.eqb (Text part) EmptyString)
                     then textResponse ++ Text part
                     else textResponse)
  end.

(** The loop over the candidates, [i] being the index of the first. *)
Fixpoint candidates (i : nat) (l : list Candidate) : M result :=
  match l with
  | [] => ret (Some (NewErrorResponse "Failed to parse AI response"), None)
  | candidate :: l' =>
      match Content_ candidate with
      | None =>
          emit (Log WARNING
                  [("message", "Candidate " ++ itoa i ++ " has no content parts")]) ;;;
          candidates (S i) l'
      | Some {| Parts := [] |} =>
          emit (Log WARNING
                  [("message", "Candidate " ++ itoa i ++ " has no content parts")]) ;;;
          candidates (S i) l'
      | Some content =>
          let textResponse := textOf (Parts content) EmptyString in
          if String.eqb textResponse EmptyString then
            emit (Log WARNING
                    [("message", "Candidate " ++ itoa i ++ " has no text content")]) ;;;
            candidates (S i) l'
          else
            let textResponse := clean textResponse in
            match Unmarshal textResponse with
            | None =>
                (* the entry also carries the text of the parse error *)
                emit (Log ERROR [("message", "Failed to parse JSON response");
                                 ("response", textResponse)]) ;;;
                candidates (S i) l'
            | Some aiResponse => ret (Some (classify aiResponse), None)
            end
      end
  end.

Definition parseGeminiResponse (resp : GenerateContentResponse) : M result :=
  match Candidates resp with
  | [] =>
      emit (Log WARNING [("message", "No candidates in Gemini response")]) ;;;
      ret (Some (NewErrorResponse "No response from AI service"), None)
  | l => candidates 0 l
  end.

(** The prompt for a request: [Parse] of the template, then [Execute] on
    the map of the two fields.  The template is a constant that parses
    (lemma [compile_some]), so [None] never comes out. *)
Definition compile (request : ArticleRequest) : option string :=
  match template.Parse prompt with
  | Some tmpl =>
      Some (template.Execute tmpl [("Word", Word request); ("Language", Language request)])
  | None => None
  end.

Definition GenerateArticleInfo (s : GeminiService) (request : ArticleRequest) : M result :=
  match compile request with
  | None =>
      emit (Log ERROR [("message", "Failed to parse prompt template");
                       ("word", Word request); ("language", Language request)]) ;;;
      ret (None, Some (errorString "template"))
  | Some contents =>
      emit (GenerateContent modelName contents) ;;;
      match client s modelName contents with
      | inr err =>
          emit (Log ERROR [("message", "Failed to generate content with Gemini");
                           ("error", errorText err);
                           ("word", Word request); ("language", Language request)]) ;;;
          ret (None, Some err)
      | inl resp => parseGeminiResponse resp
      end
  end.

End ai.

(** ** Package [services]: the interface of the AI service *)

Module services.

Class AIService (S : Type) : Type := {
  GenerateArticleInfo : S -> entities.ArticleRequest -> M result
}.

#[export] Instance GeminiAIService : AIService ai.GeminiService := {
  GenerateArticleInfo := ai.GenerateArticleInfo
}.

End services.

(** ** Package [usecases] *)

Module usecases.

Import entities services.

Section Execute.

Context {S : Type} `{AIService S}.

Record DetermineArticleUseCase : Type := { aiService : S }.

Definition NewDetermineArticleUseCase (s : S) : DetermineArticleUseCase :=
  {| aiService := s |}.

Definition Execute (uc : DetermineArticleUseCase) (request : ArticleRequest) : M result :=
  emit (SpanStart "Process Article Request") ;;;
  res <-
    (if negb (IsValid request) then
       emit (Log WARNING [("message", "Invalid article request");
                          ("word", Word request); ("language", Language request)]) ;;;
       ret (Some (NewErrorResponse "Word cannot be empty"), None)
     else
       emit (Log INFO [("message", "Processing article request");
                       ("word", Word request); ("language", Language request)]) ;;;
       r <- GenerateArticleInfo (aiService uc) request ;;
       match snd r with
       | Some err => ret (Some (NewErrorResponse "Failed to process request"), Some err)
       | None => ret (fst r, None)
       end) ;;
  emit SpanEnd ;;;
  ret res.

End Execute.

Arguments DetermineArticleUseCase S : clear implicits.

End usecases.

(** ** Package [handlers]: the language of an HTTP request *)

Module handlers.

Definition extractLanguageFromHeader (acceptLanguage : string) : string :=
  if String.eqb acceptLanguage EmptyString then "en"
  else
    match strings.Split acceptLanguage "," with
    | first :: _ =>
        let lang := strings.TrimSpace first in
        let lang := if strings.Contains lang "-"
                    then List.hd EmptyString (strings.Split lang "-") else lang in
        let lang := if strings.Contains lang ";"
                    then List.hd EmptyString (strings.Split lang ";") else lang in
        lang
    | [] => "en"
    end.

(** [HandleArticleRequest], from the header to the request entity. *)
Definition articleRequest (word acceptLanguage : string) : entities.ArticleRequest :=
  let language := extractLanguageFromHeader acceptLanguage in
  let language := if String.eqb language EmptyString then "en" else language in
  entities.NewArticleRequest word language.

End handlers.

(** ** Package [telegram]: the chat message for a response *)

Module telegram.

Import entities.

Definition nonEmpty (s : string) : bool := negb (String.eqb s EmptyString).

(** One [if] of [wr]: a line for a case and an article, written when the
    translations are not the zero struct and both texts are non-empty. *)
Definition line (label : string) (t : TranslationsInfo) (example translation : string)
           (st : string * bool) : string * bool :=
  if negb (eqTranslationsInfo t zeroTranslationsInfo)
     && nonEmpty example && nonEmpty translation
  then (fst st ++ "• <b>" ++ label ++ ":</b> " ++ example ++ " / <i>" ++ translation
               ++ "</i>" ++ LF, true)
  else st.

(** [if hasData { result.WriteString(newline); hasData = false }] *)
Definition separator (st : string * bool) : string * bool :=
  if snd st then (fst st ++ LF, false) else st.

Definition wr (result : string) (info : ExampleInfo) : string :=
  let d := Definite info in
  let i := Indefinite info in
  let st := (result, false) in
  let st := line "Nominative Definite" d (NominativeExample d) (NominativeTranslation d) st in
  let st := line "Nominative Indefinite" i (NominativeExample i) (NominativeTranslation i) st in
  let st := separator st in
  let st := line "Accusative Definite" d (AccusativeExample d) (AccusativeTranslation d) st in
  let st := line "Accusative Indefinite" i (AccusativeExample i) (AccusativeTranslation i) st in
  let st := separator st in
  let st := line "Dative Definite" d (DativeExample d) (DativeTranslation d) st in
  let st := line "Dative Indefinite" i (DativeExample i) (DativeTranslation i) st in
  let st := separator st in
  let st := line "Genitive Definite" d (GenitiveExample d) (GenitiveTranslation d) st in
  let st := line "Genitive Indefinite" i (GenitiveExample i) (GenitiveTranslation i) st in
  fst st.

Definition block (result : string) (info : ArticleInfo) : string :=
  let result := result ++ "🇩🇪 <b>" ++ WordWithArticle info ++ "</b>" ++ LF in
  let result := result ++ "📖 <i>" ++ Translation info ++ "</i>" ++ LF ++ LF in
  let st := (result, false) in
  let st :=
    if negb (eqExampleInfo (Singular (Example info)) zeroExampleInfo)
    then (wr (fst st ++ "📝 <b>Singular Examples:</b>" ++ LF) (Singular (Example info)), true)
    else st in
  let st :=
    if negb (eqExampleInfo (Plural (Example info)) zeroExampleInfo)
    then
      let result := if snd st then fst st ++ LF else fst st in
      (wr (result ++ "📝 <b>Plural Examples:</b>" ++ LF) (Plural (Example info)), true)
    else st in
  fst st.

Fixpoint blocks (result : string) (i : nat) (data : list ArticleInfo) : string :=
  match data with
  | [] => result
  | info :: data' =>
      let result :=
        if 0 <? i then result ++ LF ++ LF ++ strings.Repeat "─" 10 ++ LF ++ LF
        else result in
      blocks (block result info) (S i) data'
  end.

Definition formatResponse (response : ArticleResponse) : string :=
  if negb (Success response) then "❌ <b>Error:</b> " ++ Error response
  else
    match Data response with
    | [] => "❌ No information found for this word."
    | data => blocks EmptyString 0 data
    end.

End telegram.

(** ** Package [console] *)

Module console.

Import entities services.

Section ProcessRequest.

Context {S : Type} `{AIService S}.

Definition ProcessRequest (uc : usecases.DetermineArticleUseCase S)
           (word language : string) : M (string * option error) :=
  emit (SpanStart "ConsoleHandler.ProcessRequest") ;;;
  emit (Log INFO [("message", "Processing console request");
                  ("word", word); ("language", language)]) ;;;
  let request := NewArticleRequest word language in
  r <- usecases.Execute uc request ;;
  out <-
    match r with
    | (_, Some err) =>
        emit (Log ERROR [("message", "Failed to process console request");
                         ("error", errorText err); ("word", word)]) ;;;
        ret (EmptyString, Some err)
    | (Some response, None) =>
        ret (json.encodeIndent EmptyString "  " 0 (json.ofArticleResponse response), None)
    | (None, None) => ret ("null", None)
    end ;;
  emit SpanEnd ;;;
  ret out.

End ProcessRequest.

End console.

(** ** Definitions the statements below are written with

    These follow the words of the specification, not the code; the theorems
    compare the code with them. *)

Module spec.

Import entities genai.

(** Position of the leftmost and of the rightmost occurrence of a byte. *)
Fixpoint indexFirst (c : ascii) (s : string) : option nat :=
  match s with
  | EmptyString => None
  | String a s' =>
      if Ascii.eqb a c then Some 0
      else match indexFirst c s' with
           | Some i => Some (S i)
           | None => None
           end
  end.

Fixpoint indexLast (c : ascii) (s : string) : option nat :=
  match s with
  | EmptyString => None
  | String a s' =>
      match indexLast c s' with
      | Some j => Some (S j)
      | None => if Ascii.eqb a c then Some 0 else None
      end
  end.

(** The substring from the leftmost opening brace through the rightmost
    closing brace; empty when there is none to take. *)
Definition jsonPayload (text : string) : string :=
  match indexFirst "{" text, indexLast "}" text with
  | Some i, Some j => if i <? j then substring i (j - i + 1) text else EmptyString
  | _, _ => EmptyString
  end.

(** [closes s]: [s] is, after optional white space, at a closing brace or
    bracket. *)
Fixpoint closes (s : string) : bool :=
  match s with
  | EmptyString => false
  | String c s' => ai.closing c || (ai.perlSpace c && closes s')
  end.

(** Every comma in front of such a place is deleted, the rest is kept. *)
Fixpoint dropTrailingCommas (s : string) : string :=
  match s with
  | EmptyString => EmptyString
  | String c s' =>
      if Ascii.eqb c "," && closes s' then dropTrailingCommas s'
      else String c (dropTrailingCommas s')
  end.

(** The text of a candidate, empty if it has no content, and the payload
    it yields, if it has text and the text parses. *)
Definition candidateText (c : Candidate) : string :=
  match Content_ c with
  | None => EmptyString
  | Some content => ai.textOf (Parts content) EmptyString
  end.

Definition payload (c : Candidate) : option ai.aiResponse :=
  if String.eqb (candidateText c) EmptyString then None
  else ai.Unmarshal (ai.clean (candidateText c)).

(** The payload of the first candidate that yields one. *)
Fixpoint firstPayload (l : list Candidate) : option ai.aiResponse :=
  match l with
  | [] => None
  | c :: l' =>
      match payload c with
      | Some p => Some p
      | None => firstPayload l'
      end
  end.

(** A candidate with a single text part. *)
Definition textCandidate (text : string) : Candidate :=
  {| Content_ := Some {| Parts := [ {| Text := text |} ] |} |}.

(** The invariant of a response: the error text is non-empty exactly when
    the response is a failure, and there is data only in a success. *)
Definition invariant (r : ArticleResponse) : Prop :=
  (Error r <> EmptyString <-> Success r = false)
  /\ (Data r <> [] -> Success r = true).

(** What [Execute] records for a request that is not valid, and what it
    records before it calls the AI service. *)
Definition validationEvents (request : ArticleRequest) : list event :=
  [ SpanStart "Process Article Request";
    Log WARNING [("message", "Invalid article request");
                 ("word", Word request); ("language", Language request)];
    SpanEnd ].

Definition startEvents (request : ArticleRequest) : list event :=
  [ SpanStart "Process Article Request";
    Log INFO [("message", "Processing article request");
              ("word", Word request); ("language", Language request)] ].

(** The part of a language code in front of its first hyphen or
    semicolon, and the first item of a comma-separated list. *)
Fixpoint upTo (stop : ascii -> bool) (s : string) : string :=
  match s with
  | EmptyString => EmptyString
  | String c s' => if stop c then EmptyString else String c (upTo stop s')
  end.

Definition primarySubtag (code : string) : string :=
  upTo (fun c => Ascii.eqb c "-" || Ascii.eqb c ";") code.

Definition firstItem (header : string) : string :=
  upTo (fun c => Ascii.eqb c ",") header.

Fixpoint occurs (c : ascii) (s : string) : bool :=
  match s with
  | EmptyString => false
  | String a s' => Ascii.eqb a c || occurs c s'
  end.

Fixpoint endsWith (s suffix : string) : bool :=
  String.eqb s suffix
  || match s with
     | EmptyString => false
     | String _ s' => endsWith s' suffix
     end.

(** The prompt with the word and the language put in as they are. *)
Fixpoint substitute (nodes : list template.node) (word language : string) : string :=
  match nodes with
  | [] => EmptyString
  | template.TextNode text :: nodes' => text ++ substitute nodes' word language
  | template.FieldNode name :: nodes' =>
      (if String.eqb name "Word" then word
       else if String.eqb name "Language" then language else EmptyString)
      ++ substitute nodes' word language
  end.

(** A text that the HTML escaper leaves as it is. *)
Fixpoint plainText (s : string) : bool :=
  match s with
  | EmptyString => true
  | String c s' =>
      String.eqb (template.htmlReplacement c) (String c EmptyString) && plainText s'
  end.

(** A case is present for an article when its example and its
    translation are both non-empty; its line in the chat message; and the
    blank line that separates the cases. *)
Definition present (example translation : string) : bool :=
  telegram.nonEmpty example && telegram.nonEmpty translation.

Definition caseLine (label example translation : string) : string :=
  if present example translation
  then "• <b>" ++ label ++ ":</b> " ++ example ++ " / <i>" ++ translation ++ "</i>" ++ LF
  else EmptyString.

Definition blankLine (written : bool) : string := if written then LF else EmptyString.

(** The payload of a reply as [json.Marshal] writes it. *)
Definition Marshal (r : ai.aiResponse) : string :=
  json.encode
    (json.Object [ ("error", json.Bool (ai.Error r));
                   ("errorMessage", json.Str (ai.ErrorMessage r));
                   ("data", json.Array (List.map json.ofArticleInfo (ai.Data r))) ]).

End spec.

(** ** Auxiliary functions for the proofs about the two patterns *)

Module aux.

(** Greedy repetition of a byte class, by recursion on the input. *)
Fixpoint starClass (p : ascii -> bool) (k : regexp.cont) (s : string)
         (m : regexp.submatches) : regexp.outcome :=
  match s with
  | EmptyString => k s m
  | String a s' =>
      if p a then
        match starClass p k s' m with
        | Some res => Some res
        | None => k s m
        end
      else k s m
  end.

(** What follows the last occurrence of [c] in [s]. *)
Fixpoint afterLast (c : ascii) (s : string) : option string :=
  match s with
  | EmptyString => None
  | String a s' =>
      match afterLast c s' with
      | Some r => Some r
      | None => if Ascii.eqb a c then Some s' else None
      end
  end.

(** What follows the closing brace or bracket that [s] is at, after
    optional white space. *)
Fixpoint afterClose (s : string) : option string :=
  match s with
  | EmptyString => None
  | String a s' =>
      if ai.closing a then Some s'
      else if ai.perlSpace a then afterClose s'
      else None
  end.

Fixpoint allSpace (w : string) : bool :=
  match w with
  | EmptyString => true
  | String a w' => ai.perlSpace a && allSpace w'
  end.

End aux.

(** ** Inputs used in examples, witnesses and counterexamples *)

Module examples.

Import entities genai.


(** A reply in a Markdown code fence, followed by commentary. *)
Definition fencePre : string := "```json" ++ LF.
Definition emptyDataMembers : string := ai.q "error" ++ ":false," ++ ai.q "data" ++ ":[]".
Definition fencePost : string := LF ++ "```" ++ LF ++ "Hope this helps!".
Definition fenced : string :=
  fencePre ++ String "{" (emptyDataMembers ++ String "}" fencePost).

(** A reply that reports an error and gives no message. *)
Definition errorWithoutMessage : string := "{" ++ ai.q "error" ++ ":true}".

(** Candidates without text, a candidate that is prose, and the payload
    of the fenced reply. *)
Definition noContent : Candidate := {| Content_ := None |}.
Definition noParts : Candidate := {| Content_ := Some {| Parts := [] |} |}.
Definition prose : Candidate := spec.textCandidate "I cannot answer that.".
Definition emptyData : ai.aiResponse :=
  {| ai.Error := false; ai.ErrorMessage := EmptyString; ai.Data := [] |}.

(** A model that answers every prompt with one candidate of the given
    text, and a model whose call fails. *)
Definition replying (text : string) : ai.Client :=
  fun _ _ => inl {| Candidates := [spec.textCandidate text] |}.

Definition failing (msg : string) : ai.Client :=
  fun _ _ => inr (errorString msg).

Definition useCase (c : ai.Client) : usecases.DetermineArticleUseCase ai.GeminiService :=
  usecases.NewDetermineArticleUseCase (ai.NewGeminiService c).

(** An interpretation with the nominative of the singular only. *)
Definition nominativeOnly : TranslationsInfo :=
  {| NominativeExample := "Das Haus ist alt.";
     NominativeTranslation := "The house is old.";
     AccusativeExample := EmptyString; AccusativeTranslation := EmptyString;
     DativeExample := EmptyString; DativeTranslation := EmptyString;
     GenitiveExample := EmptyString; GenitiveTranslation := EmptyString |}.

Definition hausNominative : ArticleInfo :=
  {| WordWithArticle := "das Haus";
     Translation := "the house";
     Example := {| Singular := {| Definite := nominativeOnly;
                                  Indefinite := zeroTranslationsInfo |};
                   Plural := zeroExampleInfo |} |}.

(** An interpretation whose translation has a comma in front of a closing
    bracket. *)
Definition hausBracket : ArticleInfo :=
  {| WordWithArticle := "das Haus";
     Translation := "the house [building,]";
     Example := zeroExamplesInfo |}.

Definition hausBracketRead : ArticleInfo :=
  {| WordWithArticle := "das Haus";
     Translation := "the house [building]";
     Example := zeroExamplesInfo |}.

(** The reply of the model to a text that is not a noun, and a clean
    reply with one interpretation. *)
Definition notANoun : string :=
  "{" ++ ai.q "error" ++ ":true," ++ ai.q "errorMessage" ++ ":"
      ++ ai.q "Not a German noun" ++ "}".

Definition hausReply : string :=
  spec.Marshal {| ai.Error := false; ai.ErrorMessage := EmptyString;
                  ai.Data := [hausNominative] |}.

End examples.

(** ** Package [telegram]: the handler of a text message

    What the handler sends is its result here: the text and whether it is
    sent as HTML.  [None] stands for the run-time panic of formatting a nil
    response.  The sender of the message is taken to be present; its
    language code is an argument. *)

Module bot.

Import entities services.

Inductive sendOption : Type := Plain | ModeHTML.

Definition getUserLanguage (languageCode : string) : string :=
  if negb (String.eqb languageCode EmptyString) then languageCode else "en".

Section handleText.

Context {S : Type} `{AIService S}.

Definition handleText (uc : usecases.DetermineArticleUseCase S)
           (text languageCode : string) : M (option (string * sendOption)) :=
  emit (SpanStart "Telegram Text Message") ;;;
  sent <-
    (let word := strings.TrimSpace text in
     if String.eqb word EmptyString
     then ret (Some ("Please send me a German word to analyze.", Plain))
     else
       let language := getUserLanguage languageCode in
       let request := NewArticleRequest word language in
       r <- usecases.Execute uc request ;;
       match r with
       | (_, Some _) =>
           ret (Some ("Sorry, I encountered an error while processing your request. Please try again.",
                      Plain))
       | (Some response, None) => ret (Some (telegram.formatResponse response, ModeHTML))
       | (None, None) => ret None
       end) ;;
  emit SpanEnd ;;;
  ret sent.

End handleText.

End bot.

(** ** Package [handlers]: the HTTP handler

    A response writer holds the headers, the status code once it is
    written, and the body.  Reading the form of a GET request and decoding
    the body of a POST request are calls into [net/http] and
    [encoding/json]; what they give for a request, the word or an error, is
    a parameter of the handler. *)

Module rest.

Import entities services.

Record Request : Type := {
  Method : string;
  AcceptLanguage : string;
  RawQuery : string;
  Body : string
}.

Record ResponseWriter : Type := {
  Header : list (string * string);
  StatusCode : option nat;
  Written : string
}.

Definition newWriter : ResponseWriter :=
  {| Header := []; StatusCode := None; Written := EmptyString |}.

(** [w.Header().Set(key, value)] *)
Fixpoint set (h : list (string * string)) (key value : string) : list (string * string) :=
  match h with
  | [] => [(key, value)]
  | (k, v) :: h' => if String.eqb k key then (key, value) :: h' else (k, v) :: set h' key value
  end.

Definition HeaderSet (w : ResponseWriter) (key value : string) : ResponseWriter :=
  {| Header := set (Header w) key value; StatusCode := StatusCode w; Written := Written w |}.

(** [w.WriteHeader(code)]: the first status code written stays. *)
Definition WriteHeader (w : ResponseWriter) (code : nat) : ResponseWriter :=
  match StatusCode w with
  | Some _ => w
  | None => {| Header := Header w; StatusCode := Some code; Written := Written w |}
  end.

(** [w.Write(data)]: writes status 200 first if none was written. *)
Definition Write (w : ResponseWriter) (data : string) : ResponseWriter :=
  let w := WriteHeader w 200 in
  {| Header := Header w; StatusCode := StatusCode w; Written := Written w ++ data |}.

Definition StatusOK : nat := 200.
Definition StatusBadRequest : nat := 400.
Definition StatusMethodNotAllowed : nat := 405.
Definition StatusInternalServerError : nat := 500.

Definition setCORSHeaders (w : ResponseWriter) : ResponseWriter :=
  let w := HeaderSet w "Access-Control-Allow-Origin" "*" in
  let w := HeaderSet w "Access-Control-Allow-Methods" "GET, POST, OPTIONS" in
  let w := HeaderSet w "Access-Control-Allow-Headers"
             "Content-Type, Accept-Language, Authorization" in
  HeaderSet w "Access-Control-Max-Age" "86400".

(** [json.NewEncoder(w).Encode(data)] for a response that may be nil: the
    JSON text and a line feed. *)
Definition encodeResponse (data : option ArticleResponse) : string :=
  match data with
  | Some r => json.encode (json.ofArticleResponse r) ++ LF
  | None => "null" ++ LF
  end.

Definition writeJSONResponse (w : ResponseWriter) (data : option ArticleResponse)
           (statusCode : nat) : ResponseWriter :=
  let w := HeaderSet w "Content-Type" "application/json" in
  let w := WriteHeader w statusCode in
  Write w (encodeResponse data).

Definition writeErrorResponse (w : ResponseWriter) (message : string) (statusCode : nat)
  : ResponseWriter :=
  writeJSONResponse w (Some (NewErrorResponse message)) statusCode.

Section HandleArticleRequest.

Context {S : Type} `{AIService S}.

(** [r.ParseForm()] followed by [r.Form.Get] of the word. *)
Variable formWord : Request -> string + error.

(** [json.NewDecoder(r.Body).Decode] into the struct with the word. *)
Variable decodeWord : string -> string + error.

(** From the word on: the part of the handler after the [switch]. *)
Definition serve (uc : usecases.DetermineArticleUseCase S) (w : ResponseWriter)
           (word language : string) : M ResponseWriter :=
  if String.eqb word EmptyString
  then ret (writeErrorResponse w "Word parameter is required" StatusBadRequest)
  else
    let articleRequest := NewArticleRequest word language in
    r <- usecases.Execute uc articleRequest ;;
    match snd r with
    | Some err =>
        emit (Log ERROR [("message", "Use case execution failed");
                         ("error", errorText err); ("word", word)]) ;;;
        ret (writeErrorResponse w "Internal server error" StatusInternalServerError)
    | None => ret (writeJSONResponse w (fst r) StatusOK)
    end.

Definition HandleArticleRequest (uc : usecases.DetermineArticleUseCase S)
           (w : ResponseWriter) (r : Request) : M ResponseWriter :=
  let w := setCORSHeaders w in
  if String.eqb (Method r) "OPTIONS" then ret (WriteHeader w StatusOK)
  else
    emit (SpanStart "HTTP Handler") ;;;
    w <-
      (let language := handlers.extractLanguageFromHeader (AcceptLanguage r) in
       language <-
         (if String.eqb language EmptyString then
            emit (Log WARNING [("message", "No language specified, defaulting to 'en'")]) ;;;
            ret "en"
          else ret language) ;;
       if String.eqb (Method r) "GET" then
         match formWord r with
         | inr err =>
             emit (Log ERROR [("message", "Failed to parse form");
                              ("error", errorText err)]) ;;;
             ret (writeErrorResponse w "Invalid request format" StatusBadRequest)
         | inl word => serve uc w word language
         end
       else if String.eqb (Method r) "POST" then
         match decodeWord (Body r) with
         | inr err =>
             emit (Log ERROR [("message", "Failed to decode JSON body");
                              ("error", errorText err)]) ;;;
             ret (writeErrorResponse w "Invalid JSON format" StatusBadRequest)
         | inl word => serve uc w word language
         end
       else ret (writeErrorResponse w "Method not allowed" StatusMethodNotAllowed)) ;;
    emit SpanEnd ;;;
    ret w.

End HandleArticleRequest.

End rest.

(** ** Command [console]: [main]

    The arguments of the process are [args], the program name first; the
    container is taken as initialised.  The outcome is what is printed, what
    is logged as fatal, and the exit code. *)

Module cmd.

Import entities services.

Record outcome : Type := {
  Stdout : list string;
  Fatal : option string;
  ExitCode : nat
}.

Section main.

Context {S : Type} `{AIService S}.

Definition main (uc : usecases.DetermineArticleUseCase S) (args : list string) : M outcome :=
  match args with
  | [] | [_] =>
      ret {| Stdout := [ "Usage: go run cmd/console/main.go <word> [language]";
                         "Example: go run cmd/console/main.go Haus en" ];
             Fatal := None; ExitCode := 1 |}
  | _ :: word :: rest =>
      let language := match rest with
                      | language :: _ => language
                      | [] => "en"
                      end in
      r <- console.ProcessRequest uc word language ;;
      match snd r with
      | Some err =>
          ret {| Stdout := [];
                 Fatal := Some ("Failed to process request: " ++ errorText err);
                 ExitCode := 1 |}
      | None => ret {| Stdout := [fst r]; Fatal := None; ExitCode := 0 |}
      end
  end.

End main.

End cmd.

(** ** What a trace shows *)

Module observe.

Definition isCall (e : event) : bool :=
  match e with
  | GenerateContent _ _ => true
  | _ => false
  end.

Definition isLog (e : event) : bool :=
  match e with
  | Log _ _ => true
  | _ => false
  end.

(** The number of calls of the model in a trace. *)
Definition calls (t : list event) : nat := List.length (List.filter isCall t).

End observe.

(** ** More definitions for statements *)

Module more.

Import entities genai.

(** No comma of [s] stands in front of a closing brace or bracket (with
    optional white space between them). *)
Fixpoint noTrailingComma (s : string) : bool :=
  match s with
  | EmptyString => true
  | String c s' => negb (Ascii.eqb c "," && spec.closes s') && noTrailingComma s'
  end.

(** The texts of all parts, concatenated. *)
Fixpoint allText (parts : list Part) : string :=
  match parts with
  | [] => EmptyString
  | part :: parts' => Text part ++ allText parts'
  end.

(** The text of one interpretation in a chat message: the two header
    lines, then the block of the singular and the block of the plural, each
    only if some field of the number is non-empty, with a blank line between
    the two blocks. *)
Definition numberBlock (label : string) (e : ExampleInfo) : string :=
  if negb (eqExampleInfo e zeroExampleInfo)
  then label ++ LF ++ telegram.wr EmptyString e
  else EmptyString.

Definition blockText (info : ArticleInfo) : string :=
  let singular := Singular (Example info) in
  let plural := Plural (Example info) in
  "🇩🇪 <b>" ++ WordWithArticle info ++ "</b>" ++ LF
  ++ "📖 <i>" ++ Translation info ++ "</i>" ++ LF ++ LF
  ++ numberBlock "📝 <b>Singular Examples:</b>" singular
  ++ (if negb (eqExampleInfo singular zeroExampleInfo)
         && negb (eqExampleInfo plural zeroExampleInfo)
      then LF else EmptyString)
  ++ numberBlock "📝 <b>Plural Examples:</b>" plural.

(** The line between two interpretations, and the text of the
    interpretations after the first. *)
Definition divider : string := LF ++ LF ++ strings.Repeat "─" 10 ++ LF ++ LF.

Fixpoint following (data : list ArticleInfo) : string :=
  match data with
  | [] => EmptyString
  | info :: data' => divider ++ blockText info ++ following data'
  end.

(** Texts that are empty or end with a line feed. *)
Definition ended (s : string) : Prop := s = EmptyString \/ exists body, s = body ++ LF.

(** The lines of one case: definite article, then indefinite article. *)
Definition caseLines (name definiteExample definiteTranslation
                      indefiniteExample indefiniteTranslation : string) : string :=
  spec.caseLine (name ++ " Definite") definiteExample definiteTranslation
  ++ spec.caseLine (name ++ " Indefinite") indefiniteExample indefiniteTranslation.

Definition casePresent (definiteExample definiteTranslation
                        indefiniteExample indefiniteTranslation : string) : bool :=
  spec.present definiteExample definiteTranslation
  || spec.present indefiniteExample indefiniteTranslation.

(** The four CORS headers. *)
Definition cors : list (string * string) :=
  [ ("Access-Control-Allow-Origin", "*");
    ("Access-Control-Allow-Methods", "GET, POST, OPTIONS");
    ("Access-Control-Allow-Headers", "Content-Type, Accept-Language, Authorization");
    ("Access-Control-Max-Age", "86400") ].

Fixpoint lookup (h : list (string * string)) (key : string) : option string :=
  match h with
  | [] => None
  | (k, v) :: h' => if String.eqb k key then Some v else lookup h' key
  end.

(** A decoder of request bodies for examples: the whole body is one JSON
    object whose member [word] is a string. *)
Definition decodeWholeBody (body : string) : string + error :=
  match json.parse body with
  | Some v =>
      match json.storeStruct
              (fun key v (word : string) =>
                 match json.field ["word"] key with
                 | Some _ => json.storeString v word
                 | None => Some word
                 end) v EmptyString with
      | Some word => inl word
      | None => inr (errorString "json: cannot unmarshal")
      end
  | None => inr (errorString "invalid character")
  end.

Definition noForm (r : rest.Request) : string + error := inl EmptyString.

(** The body of an error response of the HTTP handler, and the indented
    JSON of the empty-word failure. *)
Definition errorBody (message : string) : string :=
  "{" ++ ai.q "success" ++ ":false," ++ ai.q "error" ++ ":" ++ ai.q message ++ "}" ++ LF.

Definition emptyWordJSON : string :=
  "{" ++ LF ++ "  " ++ ai.q "success" ++ ": false," ++ LF
      ++ "  " ++ ai.q "error" ++ ": " ++ ai.q "Word cannot be empty" ++ LF ++ "}".

(** The JSON value of a payload, following the tags of its struct. *)
Definition ofAiResponse (r : ai.aiResponse) : json.Value :=
  json.Object [ ("error", json.Bool (ai.Error r));
                ("errorMessage", json.Str (ai.ErrorMessage r));
                ("data", json.Array (List.map json.ofArticleInfo (ai.Data r))) ].

(** The bytes that the HTML escaper replaces by text without them. *)
Definition markup : list ascii :=
  [ "000"%char; dquote; "'"%char; "+"%char; "<"%char; ">"%char ].

(** How often a byte stands in a text. *)
Fixpoint count (c : ascii) (s : string) : nat :=
  match s with
  | EmptyString => 0
  | String a s' => (if Ascii.eqb a c then 1 else 0) + count c s'
  end.

End more.

(** * Theorems *)

Import entities genai services.

(** ** Facts about strings *)

Lemma append_empty_r (s : string) : s ++ EmptyString = s.
Proof. induction s as [|c s IH]; simpl; [reflexivity | now rewrite IH]. Qed.

Lemma append_assoc (a b c : string) : (a ++ b) ++ c = a ++ (b ++ c).
Proof. induction a as [|x a IH]; simpl; [reflexivity | now rewrite IH]. Qed.

Lemma length_append (a b : string) :
  String.length (a ++ b) = String.length a + String.length b.
Proof. induction a as [|x a IH]; simpl; [reflexivity | now rewrite IH]. Qed.

Lemma substring_prefix (a r : string) :
  substring 0 (String.length a) (a ++ r) = a.
Proof. induction a as [|x a IH]; simpl; [now destruct r | now rewrite IH]. Qed.

Lemma consumed_append (a r : string) : regexp.consumed (a ++ r) r = a.
Proof.
  unfold regexp.consumed. rewrite length_append.
  replace (String.length a + String.length r - String.length r) with (String.length a) by lia.
  apply substring_prefix.
Qed.

Lemma rev_append (a b : string) : strings.rev (a ++ b) = strings.rev b ++ strings.rev a.
Proof.
  induction a as [|x a IH]; simpl.
  - now rewrite append_empty_r.
  - now rewrite IH, append_assoc.
Qed.

Lemma rev_involutive (s : string) : strings.rev (strings.rev s) = s.
Proof.
  induction s as [|x s IH]; simpl; [reflexivity|].
  now rewrite rev_append, IH.
Qed.

Lemma length_rev (s : string) : String.length (strings.rev s) = String.length s.
Proof.
  induction s as [|x s IH]; simpl; [reflexivity|].
  rewrite length_append, IH. simpl. lia.
Qed.

(** * The matcher on a repeated byte class *)

Lemma starLoop_class (p : ascii -> bool) (k : regexp.cont) :
  forall fuel s m,
    String.length s <= fuel ->
    regexp.starLoop (regexp.run (regexp.Class p)) k fuel s m = aux.starClass p k s m.
Proof.
  induction fuel as [|fuel IH]; intros s m Hlen.
  - destruct s; [reflexivity | simpl in Hlen; lia].
  - destruct s as [|a s]; [reflexivity|].
    simpl. destruct (p a); [|reflexivity].
    assert (Hlt : (String.length s <? S (String.length s)) = true)
      by (apply Nat.ltb_lt; lia).
    rewrite Hlt, IH by (simpl in Hlen; lia). reflexivity.
Qed.

Lemma run_star_class (p : ascii -> bool) (k : regexp.cont) (s : string) (m : regexp.submatches) :
  regexp.run (regexp.Star (regexp.Class p)) s m k = aux.starClass p k s m.
Proof. simpl. now apply starLoop_class. Qed.

(** The equations of the matcher *)

Lemma run_Cat r1 r2 s m k :
  regexp.run (regexp.Cat r1 r2) s m k
  = regexp.run r1 s m (fun s1 m1 => regexp.run r2 s1 m1 k).
Proof. reflexivity. Qed.

Lemma run_Group n r s m k :
  regexp.run (regexp.Group n r) s m k
  = regexp.run r s m (fun s1 m1 => k s1 ((n, regexp.consumed s s1) :: m1)).
Proof. reflexivity. Qed.

Lemma run_Lit c s m k :
  regexp.run (regexp.Lit c) s m k
  = match s with
    | String a s' => if Ascii.eqb a c then k s' m else None
    | EmptyString => None
    end.
Proof. reflexivity. Qed.

Lemma run_Class p s m k :
  regexp.run (regexp.Class p) s m k
  = match s with
    | String a s' => if p a then k s' m else None
    | EmptyString => None
    end.
Proof. reflexivity. Qed.

(** * The pattern of the JSON object *)

Local Abbreviation final := (fun (rest : string) (m : regexp.submatches) => Some (rest, m)).

Lemma starClass_any_brace (t : string) (m : regexp.submatches) :
  aux.starClass ai.anyByte (fun s1 m1 => regexp.run (regexp.Lit "}") s1 m1 final) t m
  = match aux.afterLast "}" t with
    | Some r => Some (r, m)
    | None => None
    end.
Proof.
  induction t as [|a t IH]; [reflexivity|].
  cbn [aux.starClass aux.afterLast ai.anyByte]. rewrite IH.
  destruct (aux.afterLast "}" t); [reflexivity|].
  rewrite run_Lit. now destruct (Ascii.eqb a "}").
Qed.

Lemma matchAt_re (s : string) :
  regexp.matchAt ai.re s
  = match s with
    | EmptyString => None
    | String a t =>
        if Ascii.eqb a "{" then
          match aux.afterLast "}" t with
          | Some r => Some (regexp.consumed s r, r, [])
          | None => None
          end
        else None
    end.
Proof.
  unfold regexp.matchAt, ai.re. rewrite run_Cat, run_Lit.
  destruct s as [|a t]; [reflexivity|].
  destruct (Ascii.eqb a "{"); [|reflexivity].
  rewrite run_Cat, run_star_class, starClass_any_brace.
  now destruct (aux.afterLast "}" t).
Qed.

Lemma afterLast_split (c : ascii) (t r : string) :
  aux.afterLast c t = Some r -> exists mid, t = mid ++ String c r.
Proof.
  revert r. induction t as [|a t IH]; intros r H; [discriminate|].
  simpl in H. destruct (aux.afterLast c t) as [r'|] eqn:E.
  - injection H as <-. destruct (IH _ eq_refl) as [mid ->].
    now exists (String a mid).
  - destruct (Ascii.eqb a c) eqn:Ea; [|discriminate].
    injection H as <-. apply Ascii.eqb_eq in Ea. subst a. now exists EmptyString.
Qed.

Lemma afterLast_indexLast (c : ascii) (t : string) :
  aux.afterLast c t
  = match spec.indexLast c t with
    | Some j => Some (strings.drop (S j) t)
    | None => None
    end.
Proof.
  induction t as [|a t IH]; [reflexivity|].
  simpl. rewrite IH. destruct (spec.indexLast c t); [reflexivity|].
  now destruct (Ascii.eqb a c).
Qed.

Lemma indexLast_lt (c : ascii) (t : string) (j : nat) :
  spec.indexLast c t = Some j -> j < String.length t.
Proof.
  revert j. induction t as [|a t IH]; intros j H; [discriminate|].
  simpl in H. destruct (spec.indexLast c t) as [j'|].
  - injection H as <-. specialize (IH _ eq_refl). simpl. lia.
  - destruct (Ascii.eqb a c); [|discriminate]. injection H as <-. simpl. lia.
Qed.

Lemma length_drop (n : nat) (s : string) :
  String.length (strings.drop n s) = String.length s - n.
Proof.
  revert s. induction n as [|n IH]; intros [|a s]; simpl; try reflexivity. apply IH.
Qed.

(** No closing brace: no match anywhere. *)
Lemma FindString_re_none (t : string) :
  spec.indexLast "}" t = None -> regexp.FindString ai.re t = EmptyString.
Proof.
  induction t as [|a t IH]; intros H.
  - reflexivity.
  - simpl in H. destruct (spec.indexLast "}" t) eqn:E; [discriminate|].
    cbn [regexp.FindString]. rewrite matchAt_re, afterLast_indexLast, E.
    destruct (Ascii.eqb a "{"); now apply IH.
Qed.

Lemma FindString_re_payload (text : string) :
  regexp.FindString ai.re text = spec.jsonPayload text.
Proof.
  induction text as [|a t IH]; [reflexivity|].
  cbn [regexp.FindString]. rewrite matchAt_re, afterLast_indexLast.
  unfold spec.jsonPayload. cbn [spec.indexFirst spec.indexLast].
  destruct (Ascii.eqb a "{") eqn:Ea.
  - apply Ascii.eqb_eq in Ea. subst a.
    destruct (spec.indexLast "}" t) as [j|] eqn:E.
    + pose proof (indexLast_lt _ _ _ E) as Hj.
      cbn [Nat.ltb Nat.leb]. unfold regexp.consumed.
      rewrite length_drop. cbn [String.length].
      replace (S (String.length t) - (String.length t - S j)) with (S (S j)) by lia.
      replace (S j - 0 + 1) with (S (S j)) by lia. reflexivity.
    + cbn. now apply FindString_re_none.
  - rewrite IH. unfold spec.jsonPayload.
    destruct (spec.indexFirst "{" t) as [i|]; [|reflexivity].
    destruct (spec.indexLast "}" t) as [j|].
    + change (S i <? S j) with (i <? j). destruct (i <? j); [|reflexivity].
      replace (S j - S i + 1) with (j - i + 1) by lia. reflexivity.
    + destruct (Ascii.eqb a "}"); reflexivity.
Qed.

(** * The pattern of the trailing comma *)

Lemma closing_not_space (a : ascii) : ai.perlSpace a = true -> ai.closing a = false.
Proof.
  unfold ai.perlSpace, ai.closing. intros H.
  destruct (Ascii.eqb a "}") eqn:E1; [apply Ascii.eqb_eq in E1; subst a; discriminate|].
  destruct (Ascii.eqb a "]") eqn:E2; [apply Ascii.eqb_eq in E2; subst a; discriminate|].
  reflexivity.
Qed.

Lemma starClass_space_close (t0 : string) (m0 : regexp.submatches) :
  forall t m,
    aux.starClass ai.perlSpace
      (fun s1 m1 =>
         regexp.run (regexp.Class ai.closing) s1 m1
           (fun s2 m2 => Some (s2, (1, regexp.consumed t0 s2) :: m2))) t m
    = match aux.afterClose t with
      | Some r => Some (r, (1, regexp.consumed t0 r) :: m)
      | None => None
      end.
Proof.
  induction t as [|a t IH]; intros m; [reflexivity|].
  cbn [aux.starClass aux.afterClose]. rewrite IH, run_Class.
  destruct (ai.perlSpace a) eqn:Ews.
  - rewrite (closing_not_space _ Ews). now destruct (aux.afterClose t).
  - now destruct (ai.closing a).
Qed.

Lemma matchAt_reValidate (s : string) :
  regexp.matchAt ai.reValidate s
  = match s with
    | EmptyString => None
    | String a t =>
        if Ascii.eqb a "," then
          match aux.afterClose t with
          | Some r => Some (regexp.consumed s r, r, [(1, regexp.consumed t r)])
          | None => None
          end
        else None
    end.
Proof.
  unfold regexp.matchAt, ai.reValidate. rewrite run_Cat, run_Lit.
  destruct s as [|a t]; [reflexivity|].
  destruct (Ascii.eqb a ","); [|reflexivity].
  rewrite run_Group, run_Cat, run_star_class.
  rewrite (starClass_space_close t []).
  now destruct (aux.afterClose t).
Qed.

Lemma closes_afterClose (t : string) :
  spec.closes t = match aux.afterClose t with Some _ => true | None => false end.
Proof.
  induction t as [|a t IH]; [reflexivity|].
  simpl. rewrite IH. destruct (ai.closing a); [reflexivity|].
  now destruct (ai.perlSpace a).
Qed.

Lemma afterClose_split (t r : string) :
  aux.afterClose t = Some r ->
  exists w c, t = w ++ String c r /\ aux.allSpace w = true /\ ai.closing c = true.
Proof.
  revert r. induction t as [|a t IH]; intros r H; [discriminate|].
  simpl in H. destruct (ai.closing a) eqn:Ec.
  - injection H as <-. now exists EmptyString, a.
  - destruct (ai.perlSpace a) eqn:Ews; [|discriminate].
    destruct (IH _ H) as (w & c & -> & Hw & Hc).
    exists (String a w), c. simpl. now rewrite Ews, Hw.
Qed.

Lemma space_not_comma (a : ascii) : ai.perlSpace a = true -> Ascii.eqb a "," = false.
Proof.
  intros H. destruct (Ascii.eqb a ",") eqn:E; [|reflexivity].
  apply Ascii.eqb_eq in E. subst a. discriminate.
Qed.

Lemma closing_not_comma (a : ascii) : ai.closing a = true -> Ascii.eqb a "," = false.
Proof.
  intros H. destruct (Ascii.eqb a ",") eqn:E; [|reflexivity].
  apply Ascii.eqb_eq in E. subst a. discriminate.
Qed.

Lemma dropTrailingCommas_space (w : string) (c : ascii) (r : string) :
  aux.allSpace w = true -> ai.closing c = true ->
  spec.dropTrailingCommas (w ++ String c r) = w ++ String c (spec.dropTrailingCommas r).
Proof.
  intros Hw Hc. induction w as [|a w IH]; simpl.
  - now rewrite (closing_not_comma _ Hc).
  - simpl in Hw. apply andb_prop in Hw as [Ha Hw].
    rewrite (space_not_comma _ Ha), IH by assumption. reflexivity.
Qed.

Lemma replaceFrom_skip (re : regexp.Regexp) (repl w r : string) (after : bool) :
  w <> EmptyString ->
  regexp.replaceFrom re repl (w ++ r) (String.length w) after
  = regexp.replaceFrom re repl r 0 true.
Proof.
  revert after. induction w as [|a w IH]; intros after Hne; [congruence|].
  destruct w as [|b w].
  - simpl. reflexivity.
  - change (regexp.replaceFrom re repl (String a (String b w ++ r)) (S (String.length (String b w))) after)
      with (regexp.replaceFrom re repl (String b w ++ r) (String.length (String b w)) true).
    apply (IH true). discriminate.
Qed.

Lemma Expand_group1 (m : regexp.submatches) (whole : string) :
  regexp.Expand "$1" m whole = regexp.submatch m 1.
Proof. reflexivity. Qed.

Lemma consumed_close (w : string) (c : ascii) (r : string) :
  regexp.consumed (w ++ String c r) r = w ++ String c EmptyString.
Proof.
  replace (w ++ String c r) with ((w ++ String c EmptyString) ++ r)
    by now rewrite append_assoc.
  apply consumed_append.
Qed.

Lemma replaceFrom_skip_close (re : regexp.Regexp) (repl w : string) (c : ascii) (r : string) :
  regexp.replaceFrom re repl (w ++ String c r) (String.length (w ++ String c EmptyString)) true
  = regexp.replaceFrom re repl r 0 true.
Proof.
  replace (w ++ String c r) with ((w ++ String c EmptyString) ++ r)
    by now rewrite append_assoc.
  apply replaceFrom_skip. destruct w; discriminate.
Qed.

Lemma replaceFrom_reValidate :
  forall n s after,
    String.length s <= n ->
    regexp.replaceFrom ai.reValidate "$1" s 0 after = spec.dropTrailingCommas s.
Proof.
  induction n as [|n IH]; intros s after Hlen.
  - destruct s; [reflexivity | simpl in Hlen; lia].
  - destruct s as [|a t]; [reflexivity|].
    cbn [regexp.replaceFrom]. rewrite matchAt_reValidate.
    cbn [spec.dropTrailingCommas]. rewrite closes_afterClose.
    destruct (Ascii.eqb a ",") eqn:Ea.
    + destruct (aux.afterClose t) as [r|] eqn:Er.
      * destruct (afterClose_split _ _ Er) as (w & c & -> & Hw & Hc).
        cbn [andb].
        change (String a (w ++ String c r)) with (String a w ++ String c r).
        rewrite (consumed_close (String a w) c r), (consumed_close w c r).
        cbn [append String.length].
        rewrite Expand_group1. cbn [regexp.submatch Nat.eqb].
        rewrite replaceFrom_skip_close.
        rewrite IH by (simpl in Hlen; rewrite length_append in Hlen; simpl in Hlen; lia).
        rewrite append_assoc. cbn [append].
        now rewrite dropTrailingCommas_space.
      * cbn [andb]. now rewrite IH by (simpl in Hlen; lia).
    + cbn [andb]. now rewrite IH by (simpl in Hlen; lia).
Qed.

Lemma ReplaceAllString_reValidate (s : string) :
  regexp.ReplaceAllString ai.reValidate s "$1" = spec.dropTrailingCommas s.
Proof. unfold regexp.ReplaceAllString. now apply (replaceFrom_reValidate (String.length s)). Qed.

(** * Trimming a text that is empty or stands between braces *)

Lemma leadingSpace_open (s : string) : strings.leadingSpace (String "{" s) = 0.
Proof. destruct s as [|c1 [|c2 s2]]; reflexivity. Qed.

Lemma trailingSpace_close (r : string) : strings.trailingSpace (String "}" r) = 0.
Proof.
  destruct r as [|c1 [|c2 r2]]; try reflexivity.
  - cbn. unfold strings.space2. cbn. now rewrite andb_false_r.
  - cbn. unfold strings.space2, strings.space3. cbn.
    now rewrite !andb_false_r.
Qed.

Lemma trimWith_stop (width : string -> nat) (fuel : nat) (s : string) :
  width s = 0 -> strings.trimWith width fuel s = s.
Proof. intros H. destruct fuel; simpl; [reflexivity | now rewrite H]. Qed.

Lemma TrimSpace_braces (mid : string) :
  strings.TrimSpace (String "{" (mid ++ "}")) = String "{" (mid ++ "}").
Proof.
  unfold strings.TrimSpace, strings.TrimLeftSpace.
  rewrite trimWith_stop by apply leadingSpace_open.
  unfold strings.TrimRightSpace.
  change (String "{" (mid ++ "}")) with (String "{" mid ++ "}").
  remember (String "{" mid) as body.
  rewrite rev_append. change (strings.rev "}") with "}". cbn [append].
  rewrite trimWith_stop by apply trailingSpace_close.
  change (String "}" (strings.rev body)) with ("}" ++ strings.rev body).
  change "}" with (strings.rev "}") at 1.
  now rewrite <- rev_append, rev_involutive.
Qed.

Lemma FindString_re_shape (text : string) :
  regexp.FindString ai.re text = EmptyString
  \/ exists mid, regexp.FindString ai.re text = String "{" (mid ++ "}").
Proof.
  induction text as [|a t IH]; [now left|].
  cbn [regexp.FindString]. rewrite matchAt_re.
  destruct (Ascii.eqb a "{") eqn:Ea; [|exact IH].
  apply Ascii.eqb_eq in Ea. subst a.
  destruct (aux.afterLast "}" t) as [r|] eqn:Er; [|exact IH].
  destruct (afterLast_split _ _ _ Er) as [mid ->].
  right. exists mid.
  change (String "{" (mid ++ String "}" r)) with (String "{" mid ++ String "}" r).
  now rewrite consumed_close.
Qed.

Lemma TrimSpace_payload (text : string) :
  strings.TrimSpace (spec.jsonPayload text) = spec.jsonPayload text.
Proof.
  rewrite <- FindString_re_payload.
  destruct (FindString_re_shape text) as [-> | [mid ->]].
  - reflexivity.
  - apply TrimSpace_braces.
Qed.

Lemma clean_spec (text : string) :
  ai.clean text = spec.dropTrailingCommas (spec.jsonPayload text).
Proof.
  unfold ai.clean.
  now rewrite ReplaceAllString_reValidate, FindString_re_payload, TrimSpace_payload.
Qed.

(** * A JSON object inside other text *)

Lemma afterLast_absent (c : ascii) (s : string) :
  spec.occurs c s = false -> aux.afterLast c s = None.
Proof.
  induction s as [|a s IH]; intros H; [reflexivity|].
  simpl in H. apply orb_false_elim in H as [Ha Hs].
  simpl. now rewrite IH, Ha.
Qed.

Lemma afterLast_append (c : ascii) (obj post : string) :
  spec.occurs c post = false -> aux.afterLast c (obj ++ String c post) = Some post.
Proof.
  intros H. induction obj as [|a obj IH]; simpl.
  - now rewrite afterLast_absent, Ascii.eqb_refl.
  - now rewrite IH.
Qed.

Lemma FindString_re_wrapped (pre obj post : string) :
  spec.occurs "{" pre = false ->
  spec.occurs "}" post = false ->
  regexp.FindString ai.re (pre ++ String "{" (obj ++ String "}" post))
  = String "{" (obj ++ "}").
Proof.
  intros Hpre Hpost. induction pre as [|a pre IH].
  - cbn [append regexp.FindString]. rewrite matchAt_re, Ascii.eqb_refl.
    rewrite afterLast_append by assumption.
    change (String "{" (obj ++ String "}" post)) with (String "{" obj ++ String "}" post).
    now rewrite consumed_close.
  - simpl in Hpre. apply orb_false_elim in Hpre as [Ha Hpre].
    cbn [append regexp.FindString]. rewrite matchAt_re, Ha. now apply IH.
Qed.

Lemma clean_wrapped (pre obj post : string) :
  spec.occurs "{" pre = false ->
  spec.occurs "}" post = false ->
  ai.clean (pre ++ String "{" (obj ++ String "}" post))
  = spec.dropTrailingCommas (String "{" (obj ++ "}")).
Proof.
  intros Hpre Hpost. unfold ai.clean.
  rewrite FindString_re_wrapped by assumption.
  now rewrite TrimSpace_braces, ReplaceAllString_reValidate.
Qed.

(** * The loop over the candidates *)

Lemma candidates_miss (i : nat) (c : Candidate) (l : list Candidate) (trace : list event) :
  spec.payload c = None ->
  exists trace', ai.candidates i (c :: l) trace = ai.candidates (S i) l trace'.
Proof.
  unfold spec.payload, spec.candidateText. intros H.
  cbn [ai.candidates]. destruct (Content_ c) as [[parts]|].
  - destruct parts as [|part parts].
    + eexists. reflexivity.
    + cbn [Parts] in *.
      destruct (String.eqb (ai.textOf (part :: parts) EmptyString) EmptyString).
      * eexists. reflexivity.
      * rewrite H. eexists. reflexivity.
  - eexists. reflexivity.
Qed.

Lemma candidates_hit (i : nat) (c : Candidate) (l : list Candidate) (trace : list event)
      (p : ai.aiResponse) :
  spec.payload c = Some p ->
  ai.candidates i (c :: l) trace = (Some (ai.classify p), None, trace).
Proof.
  unfold spec.payload, spec.candidateText. intros H.
  cbn [ai.candidates]. destruct (Content_ c) as [[parts]|]; [|discriminate].
  destruct parts as [|part parts]; [discriminate|].
  cbn [Parts] in *.
  destruct (String.eqb (ai.textOf (part :: parts) EmptyString) EmptyString); [discriminate|].
  now rewrite H.
Qed.

Lemma candidates_result (l : list Candidate) :
  forall i trace,
    fst (ai.candidates i l trace)
    = (Some match spec.firstPayload l with
            | Some p => ai.classify p
            | None => NewErrorResponse "Failed to parse AI response"
            end, None).
Proof.
  induction l as [|c l IH]; intros i trace; [reflexivity|].
  cbn [spec.firstPayload]. destruct (spec.payload c) as [p|] eqn:E.
  - now rewrite (candidates_hit _ _ _ _ _ E).
  - destruct (candidates_miss i c l trace E) as [trace' ->]. apply IH.
Qed.

Lemma parseGeminiResponse_result (resp : GenerateContentResponse) (trace : list event) :
  fst (ai.parseGeminiResponse resp trace)
  = (Some match spec.firstPayload (Candidates resp) with
          | Some p => ai.classify p
          | None =>
              NewErrorResponse
                match Candidates resp with
                | [] => "No response from AI service"
                | _ => "Failed to parse AI response"
                end
          end, None).
Proof.
  unfold ai.parseGeminiResponse. destruct (Candidates resp) as [|c l]; [reflexivity|].
  apply candidates_result.
Qed.

Lemma firstPayload_skip (skipped rest : list Candidate) :
  Forall (fun x => spec.payload x = None) skipped ->
  spec.firstPayload (skipped ++ rest) = spec.firstPayload rest.
Proof.
  induction 1 as [|x skipped Hx _ IH]; [reflexivity|].
  cbn [app spec.firstPayload]. now rewrite Hx.
Qed.

Lemma payload_cases (c : Candidate) :
  spec.candidateText c = EmptyString
  \/ ai.Unmarshal (ai.clean (spec.candidateText c)) = None ->
  spec.payload c = None.
Proof.
  unfold spec.payload. intros [-> | H]; [reflexivity|].
  now destruct (String.eqb (spec.candidateText c) EmptyString).
Qed.

Lemma payload_some (c : Candidate) (p : ai.aiResponse) :
  spec.candidateText c <> EmptyString ->
  ai.Unmarshal (ai.clean (spec.candidateText c)) = Some p ->
  spec.payload c = Some p.
Proof.
  unfold spec.payload. intros Hne H.
  destruct (String.eqb (spec.candidateText c) EmptyString) eqn:E; [|exact H].
  apply String.eqb_eq in E. contradiction.
Qed.

(** * The use case *)

Section UseCase.

Context {S : Type} `{AIService S}.

Lemma Execute_invalid (uc : usecases.DetermineArticleUseCase S)
      (request : ArticleRequest) (trace : list event) :
  IsValid request = false ->
  usecases.Execute uc request trace
  = (Some (NewErrorResponse "Word cannot be empty"), None,
     (trace ++ spec.validationEvents request)%list).
Proof.
  intros Hv. unfold usecases.Execute, bind, emit, ret. rewrite Hv. cbn.
  now rewrite <- !app_assoc.
Qed.

Lemma Execute_valid (uc : usecases.DetermineArticleUseCase S)
      (request : ArticleRequest) (trace : list event) :
  IsValid request = true ->
  usecases.Execute uc request trace
  = let (r, trace') :=
      GenerateArticleInfo (usecases.aiService uc) request
        (trace ++ spec.startEvents request)%list in
    (match snd r with
     | Some err => (Some (NewErrorResponse "Failed to process request"), Some err)
     | None => (fst r, None)
     end, (trace' ++ [SpanEnd])%list).
Proof.
  intros Hv. unfold usecases.Execute, bind, emit, ret, spec.startEvents.
  rewrite Hv. cbn [negb]. rewrite <- app_assoc. cbn [app].
  destruct (GenerateArticleInfo _ _ _) as [[r e] trace']. cbn.
  now destruct e.
Qed.

End UseCase.

(** * Properties of the pipeline *)





(** C2.  Extraction goes through the candidates in order and returns what
    the first one that parses gives, whatever follows it: a candidate
    without text and a candidate whose repaired text does not parse are
    passed over.  For an empty sequence, and when no candidate parses, the
    result is a failure response, returned as a value with a nil error. *)
Theorem C2_extraction_takes_first_parsable :
  (forall (skipped : list Candidate) (c : Candidate) (rest : list Candidate)
          (p : ai.aiResponse) (trace : list event),
      Forall (fun x => spec.candidateText x = EmptyString
                       \/ ai.Unmarshal (ai.clean (spec.candidateText x)) = None) skipped ->
      spec.candidateText c <> EmptyString ->
      ai.Unmarshal (ai.clean (spec.candidateText c)) = Some p ->
      fst (ai.parseGeminiResponse {| Candidates := skipped ++ c :: rest |} trace)
      = (Some (ai.classify p), None))
  /\ (forall (l : list Candidate) (trace : list event),
         Forall (fun x => spec.candidateText x = EmptyString
                          \/ ai.Unmarshal (ai.clean (spec.candidateText x)) = None) l ->
         fst (ai.parseGeminiResponse {| Candidates := l |} trace)
         = (Some (NewErrorResponse
                    match l with
                    | [] => "No response from AI service"
                    | _ => "Failed to parse AI response"
                    end), None)).
Proof.
  split.
  - intros skipped c rest p trace Hskip Hne Hp.
    rewrite parseGeminiResponse_result. cbn [Candidates].
    assert (E : spec.firstPayload (skipped ++ c :: rest) = Some p).
    { rewrite firstPayload_skip.
      - cbn [spec.firstPayload]. now rewrite (payload_some _ _ Hne Hp).
      - eapply Forall_impl; [|exact Hskip]. intros x. apply payload_cases. }
    now rewrite E.
  - intros l trace Hall.
    rewrite parseGeminiResponse_result. cbn [Candidates].
    assert (E : spec.firstPayload (l ++ []) = None).
    { rewrite firstPayload_skip; [reflexivity|].
      eapply Forall_impl; [|exact Hall]. intros y. apply payload_cases. }
    rewrite app_nil_r in E. now rewrite E.
Qed.

(** Three candidates without a payload, then the fenced reply; and two
    candidates without a payload. *)
Lemma C2_extraction_witness :
  fst (ai.parseGeminiResponse
         {| Candidates := [examples.noContent; examples.noParts; examples.prose]
                          ++ spec.textCandidate examples.fenced :: [examples.prose] |} [])
  = (Some (NewSuccessResponse []), None)
  /\ fst (ai.parseGeminiResponse {| Candidates := [examples.noContent; examples.prose] |} [])
     = (Some (NewErrorResponse "Failed to parse AI response"), None).
Proof.
  split.
  - refine (proj1 C2_extraction_takes_first_parsable
              [examples.noContent; examples.noParts; examples.prose]
              (spec.textCandidate examples.fenced) [examples.prose] examples.emptyData [] _ _ _).
    + apply Forall_cons; [left; reflexivity|].
      apply Forall_cons; [left; reflexivity|].
      apply Forall_cons; [right; vm_compute; reflexivity|].
      apply Forall_nil.
    + vm_compute; discriminate.
    + vm_compute; reflexivity.
  - refine (proj2 C2_extraction_takes_first_parsable [examples.noContent; examples.prose] [] _).
    apply Forall_cons; [left; reflexivity|].
    apply Forall_cons; [right; vm_compute; reflexivity|].
    apply Forall_nil.
Defined.

(** C5.  Classification is a total function of the parsed payload: a
    payload with the error flag gives the failure response that carries its
    error message, any other payload the success response that wraps its
    data unchanged; and a success without interpretations is rendered by the
    chat formatter as the fixed message that no information was found.  The
    loop returns the classification of the payload of the candidate. *)
Theorem C5_classification :
  forall p : ai.aiResponse,
    (ai.Error p = true ->
     ai.classify p = {| Success := false; Error := ai.ErrorMessage p; Data := [] |})
    /\ (ai.Error p = false ->
        ai.classify p = {| Success := true; Error := EmptyString; Data := ai.Data p |})
    /\ (ai.Error p = false -> ai.Data p = [] ->
        telegram.formatResponse (ai.classify p) = "❌ No information found for this word.")
    /\ (forall (c : Candidate) (trace : list event),
           spec.payload c = Some p ->
           fst (ai.parseGeminiResponse {| Candidates := [c] |} trace)
           = (Some (ai.classify p), None)).
Proof.
  intros p. unfold ai.classify. repeat split.
  - now intros ->.
  - now intros ->.
  - intros -> Hd. unfold telegram.formatResponse. cbn. now rewrite Hd.
  - intros c trace Hp. rewrite parseGeminiResponse_result. cbn. now rewrite Hp.
Qed.

(** The fenced reply has no error and no data. *)
Lemma C5_classification_witness :
  spec.payload (spec.textCandidate examples.fenced) = Some examples.emptyData
  /\ fst (ai.parseGeminiResponse
            {| Candidates := [spec.textCandidate examples.fenced] |} [])
     = (Some (NewSuccessResponse []), None)
  /\ telegram.formatResponse (ai.classify examples.emptyData)
     = "❌ No information found for this word.".
Proof.
  split; [vm_compute; reflexivity|]. split.
  - exact (proj2 (proj2 (proj2 (C5_classification examples.emptyData)))
             (spec.textCandidate examples.fenced) [] eq_refl).
  - exact (proj1 (proj2 (proj2 (C5_classification examples.emptyData))) eq_refl eq_refl).
Defined.

(** * The pipeline with the Gemini service *)

Lemma compile_some (request : ArticleRequest) :
  exists contents, ai.compile request = Some contents.
Proof.
  unfold ai.compile. destruct (template.Parse ai.prompt) as [nodes|] eqn:E.
  - eexists. reflexivity.
  - vm_compute in E. discriminate.
Qed.

Lemma GenerateArticleInfo_result (s : ai.GeminiService) (request : ArticleRequest)
      (trace : list event) :
  exists contents,
    ai.compile request = Some contents
    /\ fst (ai.GenerateArticleInfo s request trace)
       = match ai.client s ai.modelName contents with
         | inr err => (None, Some err)
         | inl resp => fst (ai.parseGeminiResponse resp
                              (trace ++ [GenerateContent ai.modelName contents])%list)
         end.
Proof.
  destruct (compile_some request) as [contents E]. exists contents. split; [exact E|].
  unfold ai.GenerateArticleInfo. rewrite E. unfold bind, emit, ret. cbn.
  now destruct (ai.client s ai.modelName contents).
Qed.

(** C3, as stated, fails: a word of white space only is a valid request. *)
Lemma C3_whitespace_word_counterexample :
  ~ (forall word : string,
        strings.TrimSpace word = EmptyString ->
        forall (client : ai.Client) (language : string) (trace : list event),
          fst (usecases.Execute (examples.useCase client)
                 (NewArticleRequest word language) trace)
          = (Some (NewErrorResponse "Word cannot be empty"), None)).
Proof.
  intros claim.
  specialize (claim " " eq_refl (examples.replying examples.fenced) "en" []).
  vm_compute in claim. discriminate.
Qed.

(** C3, amended.  For the empty word the use case fails with the
    empty-word error: it returns the response with success false and the
    error text, a nil error, and records nothing but the span and the
    warning, so the AI service is not called.  For every non-empty word,
    white space included, the request is valid and the outcome is that of
    the AI service. *)
Theorem C3_empty_word_short_circuits :
  forall (S : Type) (H : AIService S) (uc : usecases.DetermineArticleUseCase S)
         (word language : string) (trace : list event),
    (word = EmptyString ->
     usecases.Execute uc (NewArticleRequest word language) trace
     = (Some {| Success := false; Error := "Word cannot be empty"; Data := [] |}, None,
        (trace ++ spec.validationEvents (NewArticleRequest word language))%list))
    /\ (word <> EmptyString ->
        IsValid (NewArticleRequest word language) = true
        /\ usecases.Execute uc (NewArticleRequest word language) trace
           = let (r, trace') :=
               GenerateArticleInfo (usecases.aiService uc) (NewArticleRequest word language)
                 (trace ++ spec.startEvents (NewArticleRequest word language))%list in
             (match snd r with
              | Some err => (Some (NewErrorResponse "Failed to process request"), Some err)
              | None => (fst r, None)
              end, (trace' ++ [SpanEnd])%list))
    /\ json.encode (json.ofArticleResponse (NewErrorResponse "Word cannot be empty"))
       = "{" ++ ai.q "success" ++ ":false," ++ ai.q "error" ++ ":"
             ++ ai.q "Word cannot be empty" ++ "}".
Proof.
  intros S H uc word language trace. split; [|split].
  - intros ->. now apply Execute_invalid.
  - intros Hne.
    assert (Hv : IsValid (NewArticleRequest word language) = true).
    { unfold IsValid, NewArticleRequest. cbn.
      destruct (String.eqb word EmptyString) eqn:E; [|reflexivity].
      apply String.eqb_eq in E. contradiction. }
    split; [exact Hv|]. now apply Execute_valid.
  - vm_compute. reflexivity.
Qed.

(** The empty word with the Gemini service. *)
Lemma C3_empty_word_witness :
  usecases.Execute (examples.useCase (examples.replying examples.fenced))
    (NewArticleRequest EmptyString "en") []
  = (Some {| Success := false; Error := "Word cannot be empty"; Data := [] |}, None,
     spec.validationEvents (NewArticleRequest EmptyString "en")).
Proof.
  exact (proj1 (C3_empty_word_short_circuits _ _
                  (examples.useCase (examples.replying examples.fenced))
                  EmptyString "en" []) eq_refl).
Defined.

(** C10.  For a valid request, the error that [Execute] returns is the
    error that the AI service returned: non-nil exactly when the service
    failed.  In that case the response is the failure response with the
    text that the request could not be processed; otherwise the response is
    the one of the service. *)
Theorem C10_execute_error_propagation :
  forall (S : Type) (H : AIService S) (uc : usecases.DetermineArticleUseCase S)
         (request : ArticleRequest) (trace : list event),
    IsValid request = true ->
    let served := fst (GenerateArticleInfo (usecases.aiService uc) request
                         (trace ++ spec.startEvents request)%list) in
    let out := fst (usecases.Execute uc request trace) in
    snd out = snd served
    /\ (forall err, snd served = Some err ->
                    out = (Some (NewErrorResponse "Failed to process request"), Some err))
    /\ (snd served = None -> out = (fst served, None)).
Proof.
  intros S H uc request trace Hv. cbn zeta.
  rewrite (Execute_valid uc request trace Hv).
  destruct (GenerateArticleInfo _ _ _) as [[r e] trace']. cbn.
  destruct e as [err|]; cbn; repeat split; try discriminate; try reflexivity.
  now intros err' [= ->].
Qed.

(** A model whose call fails. *)
Lemma C10_execute_error_witness :
  IsValid (NewArticleRequest "Haus" "en") = true
  /\ fst (usecases.Execute (examples.useCase (examples.failing "quota exceeded"))
            (NewArticleRequest "Haus" "en") [])
     = (Some (NewErrorResponse "Failed to process request"),
        Some (errorString "quota exceeded")).
Proof.
  split; [reflexivity|].
  refine (proj1 (proj2 (C10_execute_error_propagation _ _
                          (examples.useCase (examples.failing "quota exceeded"))
                          (NewArticleRequest "Haus" "en") [] eq_refl))
            (errorString "quota exceeded") _).
  vm_compute. reflexivity.
Defined.

(** C4, as stated, fails: a reply that sets the error flag and gives no
    message yields a failure whose error text is empty. *)
Lemma C4_invariant_counterexample :
  ~ (forall (client : ai.Client) (request : ArticleRequest) (trace : list event)
            (r : ArticleResponse),
        fst (fst (usecases.Execute
                    (usecases.NewDetermineArticleUseCase (ai.NewGeminiService client))
                    request trace)) = Some r ->
        spec.invariant r).
Proof.
  intros claim.
  specialize (claim (examples.replying examples.errorWithoutMessage)
                (NewArticleRequest "Haus" "en") [] (NewErrorResponse EmptyString)).
  destruct claim as [[_ Hne] _]; [vm_compute; reflexivity|].
  now apply Hne.
Qed.

(** C4, amended.  Every response of the pipeline has an empty error text
    when success is true and no data when success is false; and a failure
    has a non-empty error text unless it is a model-reported error, that is,
    unless the request is valid and the first candidate that parses has the
    error flag set and an empty error message.  The error text of a
    model-reported error is the error message of the payload as the model
    gave it. *)
Theorem C4_response_shape :
  forall (client : ai.Client) (request : ArticleRequest) (trace : list event),
  exists r : ArticleResponse,
    fst (fst (usecases.Execute
                (usecases.NewDetermineArticleUseCase (ai.NewGeminiService client))
                request trace)) = Some r
    /\ (Success r = true -> Error r = EmptyString)
    /\ (Success r = false -> Data r = [])
    /\ (Success r = false -> Error r = EmptyString ->
        exists (contents : string) (resp : GenerateContentResponse) (p : ai.aiResponse),
          ai.compile request = Some contents
          /\ client ai.modelName contents = inl resp
          /\ spec.firstPayload (Candidates resp) = Some p
          /\ ai.Error p = true /\ ai.ErrorMessage p = EmptyString)
    /\ (Success r = false -> Error r = EmptyString -> IsValid request = true)
    /\ (forall (contents : string) (resp : GenerateContentResponse) (p : ai.aiResponse),
          IsValid request = true ->
          ai.compile request = Some contents ->
          client ai.modelName contents = inl resp ->
          spec.firstPayload (Candidates resp) = Some p ->
          ai.Error p = true ->
          r = NewErrorResponse (ai.ErrorMessage p)).
Proof.
  intros client request trace.
  set (uc := usecases.NewDetermineArticleUseCase (ai.NewGeminiService client)).
  destruct (IsValid request) eqn:Hv.
  - rewrite (Execute_valid uc request trace Hv).
    cbn [GenerateArticleInfo GeminiAIService usecases.aiService uc
         usecases.NewDetermineArticleUseCase].
    destruct (GenerateArticleInfo_result (ai.NewGeminiService client) request
                (trace ++ spec.startEvents request)%list) as (contents & Ec & Er).
    destruct (ai.GenerateArticleInfo _ _ _) as [[r e] trace'].
    cbn [fst snd] in *. cbn [ai.client ai.NewGeminiService] in Er.
    destruct (client ai.modelName contents) as [resp|err] eqn:Eclient.
    + rewrite parseGeminiResponse_result in Er. injection Er as -> ->. cbn [fst snd].
      destruct (spec.firstPayload (Candidates resp)) as [p|] eqn:Ep.
      * exists (ai.classify p). split; [reflexivity|].
        unfold ai.classify. destruct (ai.Error p) eqn:Eerr; cbn.
        -- split; [discriminate|]. split; [reflexivity|].
           split; [intros _ Hmsg; now exists contents, resp, p|].
           split; [reflexivity|].
           intros contents' resp' p' _ Hc' Hcl' Hp' _.
           rewrite Ec in Hc'. injection Hc' as <-.
           rewrite Eclient in Hcl'. injection Hcl' as <-.
           rewrite Ep in Hp'. now injection Hp' as <-.
        -- split; [reflexivity|]. split; [discriminate|].
           split; [discriminate|]. split; [discriminate|].
           intros contents' resp' p' _ Hc' Hcl' Hp' He'.
           rewrite Ec in Hc'. injection Hc' as <-.
           rewrite Eclient in Hcl'. injection Hcl' as <-.
           rewrite Ep in Hp'. injection Hp' as <-. congruence.
      * eexists. split; [reflexivity|]. cbn.
        split; [discriminate|]. split; [reflexivity|].
        split; [intros _ Hmsg; destruct (Candidates resp); discriminate|].
        split; [reflexivity|].
        intros contents' resp' p' _ Hc' Hcl' Hp' _.
        rewrite Ec in Hc'. injection Hc' as <-.
        rewrite Eclient in Hcl'. injection Hcl' as <-.
        rewrite Ep in Hp'. discriminate.
    + injection Er as -> ->. cbn [fst snd].
      eexists. split; [reflexivity|]. cbn.
      split; [discriminate|]. split; [reflexivity|].
      split; [discriminate|]. split; [reflexivity|].
      intros contents' resp' p' _ Hc' Hcl' _ _.
      rewrite Ec in Hc'. injection Hc' as <-.
      rewrite Eclient in Hcl'. discriminate.
  - rewrite (Execute_invalid uc request trace Hv). cbn [fst].
    eexists. split; [reflexivity|]. cbn.
    split; [discriminate|]. split; [reflexivity|].
    split; [discriminate|]. split; [discriminate|].
    intros contents' resp' p' Hv' _ _ _ _. discriminate.
Qed.

(** The reply with the error flag and no message. *)
Lemma C4_response_shape_witness :
  exists r : ArticleResponse,
    fst (fst (usecases.Execute
                (usecases.NewDetermineArticleUseCase
                   (ai.NewGeminiService (examples.replying examples.errorWithoutMessage)))
                (NewArticleRequest "Haus" "en") [])) = Some r
    /\ (Success r = true -> Error r = EmptyString)
    /\ (Success r = false -> Data r = [])
    /\ (Success r = false -> Error r = EmptyString ->
        exists (contents : string) (resp : GenerateContentResponse) (p : ai.aiResponse),
          ai.compile (NewArticleRequest "Haus" "en") = Some contents
          /\ examples.replying examples.errorWithoutMessage ai.modelName contents = inl resp
          /\ spec.firstPayload (Candidates resp) = Some p
          /\ ai.Error p = true /\ ai.ErrorMessage p = EmptyString)
    /\ (Success r = false -> Error r = EmptyString ->
        IsValid (NewArticleRequest "Haus" "en") = true)
    /\ (forall (contents : string) (resp : GenerateContentResponse) (p : ai.aiResponse),
          IsValid (NewArticleRequest "Haus" "en") = true ->
          ai.compile (NewArticleRequest "Haus" "en") = Some contents ->
          examples.replying examples.errorWithoutMessage ai.modelName contents = inl resp ->
          spec.firstPayload (Candidates resp) = Some p ->
          ai.Error p = true ->
          r = NewErrorResponse (ai.ErrorMessage p)).
Proof.
  exact (C4_response_shape (examples.replying examples.errorWithoutMessage)
           (NewArticleRequest "Haus" "en") []).
Defined.

(** * The language of a request *)

Lemma HasPrefix_byte (c sep : ascii) (s : string) :
  strings.HasPrefix (String c s) (String sep EmptyString) = Ascii.eqb c sep.
Proof. cbn. apply andb_true_r. Qed.

Lemma splitFrom_nonempty (sep s : string) (skip : nat) :
  strings.splitFrom sep s skip <> [].
Proof.
  revert skip. induction s as [|c s IH]; intros skip; [discriminate|].
  cbn [strings.splitFrom]. destruct skip as [|skip]; [|apply IH].
  destruct (strings.HasPrefix (String c s) sep); [discriminate|].
  destruct (strings.splitFrom sep s 0); discriminate.
Qed.

Lemma hd_Split_byte (sep : ascii) (s : string) :
  List.hd EmptyString (strings.Split s (String sep EmptyString))
  = spec.upTo (fun c => Ascii.eqb c sep) s.
Proof.
  unfold strings.Split. induction s as [|c s IH]; [reflexivity|].
  cbn [strings.splitFrom spec.upTo]. rewrite HasPrefix_byte.
  destruct (Ascii.eqb c sep); [reflexivity|].
  destruct (strings.splitFrom (String sep EmptyString) s 0) as [|piece rest] eqn:E.
  - now destruct (splitFrom_nonempty _ _ _ E).
  - cbn in *. now rewrite IH.
Qed.

Lemma Contains_byte (sep : ascii) (s : string) :
  strings.Contains s (String sep EmptyString) = spec.occurs sep s.
Proof.
  induction s as [|c s IH]; [reflexivity|].
  cbn [strings.Contains spec.occurs]. now rewrite HasPrefix_byte, IH.
Qed.

Lemma upTo_absent (sep : ascii) (s : string) :
  spec.occurs sep s = false -> spec.upTo (fun c => Ascii.eqb c sep) s = s.
Proof.
  induction s as [|c s IH]; intros H; [reflexivity|].
  cbn in *. apply orb_false_elim in H as [Hc Hs]. now rewrite Hc, IH.
Qed.

(** Cutting at a separator, whether or not it occurs. *)
Lemma cut_upTo (sep : ascii) (s : string) :
  (if strings.Contains s (String sep EmptyString)
   then List.hd EmptyString (strings.Split s (String sep EmptyString))
   else s)
  = spec.upTo (fun c => Ascii.eqb c sep) s.
Proof.
  rewrite Contains_byte, hd_Split_byte.
  destruct (spec.occurs sep s) eqn:E; [reflexivity|].
  symmetry. now apply upTo_absent.
Qed.

Lemma upTo_upTo (s : string) :
  spec.upTo (fun c => Ascii.eqb c ";") (spec.upTo (fun c => Ascii.eqb c "-") s)
  = spec.primarySubtag s.
Proof.
  unfold spec.primarySubtag. induction s as [|c s IH]; [reflexivity|].
  cbn. destruct (Ascii.eqb c "-"); [reflexivity|]. cbn.
  destruct (Ascii.eqb c ";"); [reflexivity|]. now rewrite IH.
Qed.

Lemma occurs_upTo (stop : ascii -> bool) (sep : ascii) (s : string) :
  stop sep = true -> spec.occurs sep (spec.upTo stop s) = false.
Proof.
  intros Hstop. induction s as [|c s IH]; [reflexivity|].
  cbn. destruct (stop c) eqn:Ec; [reflexivity|].
  cbn. rewrite IH, orb_false_r.
  destruct (Ascii.eqb c sep) eqn:E; [|reflexivity].
  apply Ascii.eqb_eq in E. congruence.
Qed.

Lemma extractLanguageFromHeader_spec (header : string) :
  handlers.extractLanguageFromHeader header
  = if String.eqb header EmptyString then "en"
    else spec.primarySubtag (strings.TrimSpace (spec.firstItem header)).
Proof.
  unfold handlers.extractLanguageFromHeader.
  destruct (String.eqb header EmptyString); [reflexivity|].
  pose proof (hd_Split_byte "," header) as Hhd.
  destruct (strings.Split header ",") as [|first rest] eqn:E.
  - now destruct (splitFrom_nonempty _ _ _ E).
  - cbn [List.hd] in Hhd. fold (spec.firstItem header) in Hhd. subst first.
    rewrite (cut_upTo "-"). rewrite (cut_upTo ";"). apply upTo_upTo.
Qed.

(** C9, as stated, fails: the request entity keeps a language code with a
    region suffix as it is. *)
Lemma C9_language_code_counterexample :
  ~ (forall word code : string,
        spec.occurs "-" code = true \/ spec.occurs ";" code = true ->
        Language (NewArticleRequest word code) = spec.primarySubtag code).
Proof.
  intros claim.
  specialize (claim "Haus" "en-US" (or_introl eq_refl)).
  vm_compute in claim. discriminate.
Qed.

(** C9.  Only the HTTP handler strips a language code.  The language of a
    request built from an HTTP language header is the primary subtag of the
    first code of the header: the white-space trimmed text in front of the
    first comma, cut at its first hyphen or semicolon, so that it contains
    neither; [en] takes its place when it is empty.  The header
    [en-US,en;q=0.9] gives [en], and an empty language code gives [en].
    The request entity itself only puts [en] in the place of an empty code
    and keeps every other code as it is, and so does the language that the
    Telegram handler takes from the sender: [en-US] stays [en-US] and
    [pt-br] stays [pt-br]. *)
Theorem C9_language_primary_subtag :
  forall word code : string,
    let language := Language (handlers.articleRequest word code) in
    language
    = (let tag := spec.primarySubtag (strings.TrimSpace (spec.firstItem code)) in
       if String.eqb tag EmptyString then "en" else tag)
    /\ spec.occurs "-" language = false
    /\ spec.occurs ";" language = false
    /\ Language (handlers.articleRequest word "en-US,en;q=0.9") = "en"
    /\ Language (handlers.articleRequest word EmptyString) = "en"
    /\ Language (NewArticleRequest word EmptyString) = "en"
    /\ Language (NewArticleRequest word code)
       = (if String.eqb code EmptyString then "en" else code)
    /\ Language (NewArticleRequest word (bot.getUserLanguage code))
       = (if String.eqb code EmptyString then "en" else code)
    /\ Language (NewArticleRequest word "en-US") = "en-US"
    /\ Language (NewArticleRequest word (bot.getUserLanguage "pt-br")) = "pt-br".
Proof.
  intros word code. cbn zeta.
  assert (E : Language (handlers.articleRequest word code)
              = (let tag := spec.primarySubtag (strings.TrimSpace (spec.firstItem code)) in
                 if String.eqb tag EmptyString then "en" else tag)).
  { unfold handlers.articleRequest, NewArticleRequest. cbn [Language].
    rewrite extractLanguageFromHeader_spec. cbn zeta.
    destruct (String.eqb code EmptyString) eqn:Ecode.
    - apply String.eqb_eq in Ecode. subst code. reflexivity.
    - destruct (String.eqb (spec.primarySubtag _) EmptyString) eqn:Etag.
      + reflexivity.
      + now rewrite Etag. }
  split; [exact E|]. rewrite E. cbn zeta.
  split; [|split].
  - destruct (String.eqb _ EmptyString); [reflexivity|].
    now apply occurs_upTo.
  - destruct (String.eqb _ EmptyString); [reflexivity|].
    now apply occurs_upTo.
  - split; [vm_compute; reflexivity|].
    split; [vm_compute; reflexivity|].
    split; [reflexivity|].
    split; [reflexivity|].
    split.
    + unfold bot.getUserLanguage, NewArticleRequest. cbn [Language].
      destruct (String.eqb code EmptyString) eqn:Ecode; cbn [negb].
      * reflexivity.
      * now rewrite Ecode.
    + split; reflexivity.
Qed.


(** * The prompt *)

Lemma htmlEscaper_plain (s : string) :
  spec.plainText s = true -> template.htmlEscaper s = s.
Proof.
  induction s as [|c s IH]; intros H; [reflexivity|].
  cbn in H. apply andb_prop in H as [Hc Hs]. apply String.eqb_eq in Hc.
  cbn. now rewrite Hc, IH.
Qed.

Lemma Execute_plain (nodes : list template.node) (word language : string) :
  spec.plainText word = true -> spec.plainText language = true ->
  template.Execute nodes [("Word", word); ("Language", language)]
  = spec.substitute nodes word language.
Proof.
  intros Hw Hl.
  induction nodes as [|[text|name] nodes IH];
    cbn [template.Execute spec.substitute template.lookup].
  - reflexivity.
  - now rewrite IH.
  - rewrite IH. f_equal.
    rewrite (String.eqb_sym "Word" name), (String.eqb_sym "Language" name).
    destruct (String.eqb name "Word"); [now apply htmlEscaper_plain|].
    destruct (String.eqb name "Language"); [now apply htmlEscaper_plain|].
    reflexivity.
Qed.

(** For a word and a language without bytes that HTML escapes, the prompt
    is the template with both put in as they are. *)
Lemma compile_plain (request : ArticleRequest) :
  spec.plainText (Word request) = true ->
  spec.plainText (Language request) = true ->
  exists nodes,
    template.Parse ai.prompt = Some nodes
    /\ ai.compile request = Some (spec.substitute nodes (Word request) (Language request)).
Proof.
  intros Hw Hl. unfold ai.compile.
  destruct (template.Parse ai.prompt) as [nodes|] eqn:E.
  - exists nodes. split; [reflexivity|]. now rewrite Execute_plain.
  - vm_compute in E. discriminate.
Qed.

(** C8 fails on the code: the word reaches the prompt HTML-escaped.  For
    the word with an apostrophe the compiled prompt does not contain the
    word; it contains the word with the apostrophe replaced by a character
    reference. *)
Theorem C8_word_is_html_escaped :
  exists contents : string,
    ai.compile (NewArticleRequest "Ku'damm" "en") = Some contents
    /\ strings.Contains contents "Ku'damm" = false
    /\ strings.Contains contents "Ku&#39;damm" = true.
Proof.
  destruct (ai.compile (NewArticleRequest "Ku'damm" "en")) as [contents|] eqn:E.
  - exists contents. split; [reflexivity|].
    assert (Hc : Some contents = ai.compile (NewArticleRequest "Ku'damm" "en")) by now rewrite E.
    clear E. vm_compute in Hc. injection Hc as ->.
    split; vm_compute; reflexivity.
  - vm_compute in E. discriminate.
Qed.

(** * The chat message *)

Lemma eqTranslationsInfo_zero (t : TranslationsInfo) :
  eqTranslationsInfo t zeroTranslationsInfo = true -> t = zeroTranslationsInfo.
Proof.
  destruct t. unfold eqTranslationsInfo, zeroTranslationsInfo. cbn. intros H.
  repeat match goal with
         | H : _ && _ = true |- _ => apply andb_prop in H as [H ?]
         end.
  repeat match goal with
         | H : String.eqb _ _ = true |- _ => apply String.eqb_eq in H
         end.
  now subst.
Qed.

Lemma line_field (label : string) (t : TranslationsInfo)
      (example translation : TranslationsInfo -> string) (st : string * bool) :
  example zeroTranslationsInfo = EmptyString ->
  telegram.line label t (example t) (translation t) st
  = (fst st ++ spec.caseLine label (example t) (translation t),
     snd st || spec.present (example t) (translation t)).
Proof.
  intros Hzero. unfold telegram.line, spec.caseLine, spec.present.
  destruct (eqTranslationsInfo t zeroTranslationsInfo) eqn:E.
  - apply eqTranslationsInfo_zero in E. subst t. rewrite Hzero. cbn.
    rewrite append_empty_r, orb_false_r. now destruct st.
  - cbn [negb andb].
    destruct (telegram.nonEmpty (example t) && telegram.nonEmpty (translation t)).
    + now rewrite orb_true_r.
    + rewrite append_empty_r, orb_false_r. now destruct st.
Qed.

Lemma separator_blankLine (st : string * bool) :
  telegram.separator st = (fst st ++ spec.blankLine (snd st), false).
Proof.
  unfold telegram.separator, spec.blankLine. destruct st as [text []]; cbn.
  - reflexivity.
  - now rewrite append_empty_r.
Qed.

(** What [wr] appends: for the four cases in order, the line of the
    definite and the line of the indefinite article, each present only
    with both texts; and after each of the first three cases a blank line
    if the case had a line. *)
Lemma wr_groups (result : string) (info : ExampleInfo) :
  let d := Definite info in
  let i := Indefinite info in
  let nd := spec.present (NominativeExample d) (NominativeTranslation d) in
  let ni := spec.present (NominativeExample i) (NominativeTranslation i) in
  let ad := spec.present (AccusativeExample d) (AccusativeTranslation d) in
  let ai := spec.present (AccusativeExample i) (AccusativeTranslation i) in
  let dd := spec.present (DativeExample d) (DativeTranslation d) in
  let di := spec.present (DativeExample i) (DativeTranslation i) in
  telegram.wr result info
  = ((((((((((result
      ++ spec.caseLine "Nominative Definite" (NominativeExample d) (NominativeTranslation d))
      ++ spec.caseLine "Nominative Indefinite" (NominativeExample i) (NominativeTranslation i))
      ++ spec.blankLine (nd || ni))
      ++ spec.caseLine "Accusative Definite" (AccusativeExample d) (AccusativeTranslation d))
      ++ spec.caseLine "Accusative Indefinite" (AccusativeExample i) (AccusativeTranslation i))
      ++ spec.blankLine (ad || ai))
      ++ spec.caseLine "Dative Definite" (DativeExample d) (DativeTranslation d))
      ++ spec.caseLine "Dative Indefinite" (DativeExample i) (DativeTranslation i))
      ++ spec.blankLine (dd || di))
      ++ spec.caseLine "Genitive Definite" (GenitiveExample d) (GenitiveTranslation d))
      ++ spec.caseLine "Genitive Indefinite" (GenitiveExample i) (GenitiveTranslation i).
Proof.
  cbn zeta. unfold telegram.wr. cbn zeta.
  rewrite (line_field _ (Definite info) NominativeExample NominativeTranslation) by reflexivity.
  rewrite (line_field _ (Indefinite info) NominativeExample NominativeTranslation) by reflexivity.
  rewrite separator_blankLine. cbn [fst snd orb].
  rewrite (line_field _ (Definite info) AccusativeExample AccusativeTranslation) by reflexivity.
  rewrite (line_field _ (Indefinite info) AccusativeExample AccusativeTranslation) by reflexivity.
  rewrite separator_blankLine. cbn [fst snd orb].
  rewrite (line_field _ (Definite info) DativeExample DativeTranslation) by reflexivity.
  rewrite (line_field _ (Indefinite info) DativeExample DativeTranslation) by reflexivity.
  rewrite separator_blankLine. cbn [fst snd orb].
  rewrite (line_field _ (Definite info) GenitiveExample GenitiveTranslation) by reflexivity.
  rewrite (line_field _ (Indefinite info) GenitiveExample GenitiveTranslation) by reflexivity.
  reflexivity.
Qed.

(** C6 fails on the code in its last part: the blank line that follows a
    case is written whether or not another case follows.  For one
    interpretation with the nominative of the singular only, the message
    ends with a blank line. *)
Theorem C6_message_ends_with_blank_line :
  telegram.formatResponse (NewSuccessResponse [examples.hausNominative])
  = "🇩🇪 <b>das Haus</b>" ++ LF
    ++ "📖 <i>the house</i>" ++ LF ++ LF
    ++ "📝 <b>Singular Examples:</b>" ++ LF
    ++ "• <b>Nominative Definite:</b> Das Haus ist alt. / <i>The house is old.</i>" ++ LF
    ++ LF
  /\ spec.endsWith (telegram.formatResponse (NewSuccessResponse [examples.hausNominative]))
       (LF ++ LF) = true.
Proof. split; vm_compute; reflexivity. Qed.

(** C7 fails on the code: the repair of trailing commas also deletes a
    comma inside a string value.  The serialized payload with the
    translation [the house [building,]] is valid JSON and parses back
    unchanged without the repair, yet extraction returns the translation
    without its comma. *)
Theorem C7_comma_inside_string_is_deleted :
  let payload := {| ai.Error := false; ai.ErrorMessage := EmptyString;
                    ai.Data := [examples.hausBracket] |} in
  ai.Unmarshal (spec.Marshal payload) = Some payload
  /\ fst (ai.parseGeminiResponse
            {| Candidates := [spec.textCandidate (spec.Marshal payload)] |} [])
     = (Some (NewSuccessResponse [examples.hausBracketRead]), None)
  /\ [examples.hausBracketRead] <> [examples.hausBracket].
Proof.
  cbn zeta. split; [vm_compute; reflexivity|].
  split; [vm_compute; reflexivity|]. discriminate.
Qed.

(** ** Two runs from the request to the JSON output *)

(** The model reports that the text is no noun: the console prints the
    failure with the message of the model. *)
Example run_not_a_noun :
  fst (console.ProcessRequest (examples.useCase (examples.replying examples.notANoun))
         "xyz123" "en" [])
  = ("{" ++ LF ++ "  " ++ ai.q "success" ++ ": false," ++ LF
         ++ "  " ++ ai.q "error" ++ ": " ++ ai.q "Not a German noun" ++ LF ++ "}", None).
Proof. vm_compute. reflexivity. Qed.

(** A clean reply with one interpretation: a success with that entry. *)
Example run_haus :
  fst (usecases.Execute (examples.useCase (examples.replying examples.hausReply))
         (NewArticleRequest "Haus" "en") [])
  = (Some (NewSuccessResponse [examples.hausNominative]), None).
Proof. vm_compute. reflexivity. Qed.

(** * Further properties of the code *)

(** ** The prompt, the model call and the text handed to the parser *)

(** ** The prompt, for every word *)

Lemma Contains_here (s sub : string) :
  strings.HasPrefix s sub = true -> strings.Contains s sub = true.
Proof. intros H. destruct s; cbn; now rewrite H. Qed.

Lemma HasPrefix_append (sub rest : string) : strings.HasPrefix (sub ++ rest) sub = true.
Proof.
  induction sub as [|c sub IH]; [reflexivity|].
  cbn. now rewrite Ascii.eqb_refl, IH.
Qed.

Lemma Contains_skip (a s sub : string) :
  strings.Contains s sub = true -> strings.Contains (a ++ s) sub = true.
Proof.
  intros H. induction a as [|c a IH]; [exact H|].
  cbn [append strings.Contains]. rewrite IH. apply orb_true_r.
Qed.

Lemma Contains_middle (a sub rest : string) :
  strings.Contains (a ++ sub ++ rest) sub = true.
Proof. apply Contains_skip, Contains_here, HasPrefix_append. Qed.

Lemma Execute_contains (nodes : list template.node) (data : list (string * string))
      (name : string) :
  In (template.FieldNode name) nodes ->
  strings.Contains (template.Execute nodes data)
    (template.htmlEscaper (template.lookup data name)) = true.
Proof.
  induction nodes as [|node nodes IH]; intros Hin; [contradiction|].
  destruct Hin as [-> | Hin].
  - cbn [template.Execute].
    apply (Contains_middle EmptyString).
  - destruct node as [text|name']; cbn [template.Execute];
      apply Contains_skip; now apply IH.
Qed.

Lemma prompt_fields :
  exists nodes,
    template.Parse ai.prompt = Some nodes
    /\ In (template.FieldNode "Word") nodes
    /\ In (template.FieldNode "Language") nodes.
Proof.
  destruct (template.Parse ai.prompt) as [nodes|] eqn:E.
  - exists nodes. split; [reflexivity|].
    assert (Hn : Some nodes = template.Parse ai.prompt) by now rewrite E.
    clear E. vm_compute in Hn. injection Hn as ->.
    split; cbn; tauto.
  - vm_compute in E. discriminate.
Qed.

(** X1.  For every request the prompt is compiled, and it contains the
    word and the language as the HTML escaper writes them. *)
Theorem prompt_contains_escaped_word_and_language :
  forall request : ArticleRequest,
  exists contents : string,
    ai.compile request = Some contents
    /\ strings.Contains contents (template.htmlEscaper (Word request)) = true
    /\ strings.Contains contents (template.htmlEscaper (Language request)) = true.
Proof.
  intros request. destruct prompt_fields as (nodes & E & Hw & Hl).
  unfold ai.compile. rewrite E. eexists. split; [reflexivity|]. split.
  - exact (Execute_contains nodes _ "Word" Hw).
  - exact (Execute_contains nodes _ "Language" Hl).
Qed.

(** X2.  For a word and a language without bytes that HTML escapes, the
    prompt contains both as they are. *)
Theorem prompt_contains_plain_word_and_language :
  forall request : ArticleRequest,
    spec.plainText (Word request) = true ->
    spec.plainText (Language request) = true ->
    exists contents : string,
      ai.compile request = Some contents
      /\ strings.Contains contents (Word request) = true
      /\ strings.Contains contents (Language request) = true.
Proof.
  intros request Hw Hl. destruct prompt_fields as (nodes & E & Hnw & Hnl).
  unfold ai.compile. rewrite E. eexists. split; [reflexivity|]. split.
  - rewrite <- (htmlEscaper_plain _ Hw) at 2.
    exact (Execute_contains nodes _ "Word" Hnw).
  - rewrite <- (htmlEscaper_plain _ Hl) at 2.
    exact (Execute_contains nodes _ "Language" Hnl).
Qed.

(** The word with an umlaut and the language code [de]. *)
Lemma prompt_contains_plain_witness :
  exists contents : string,
    ai.compile (NewArticleRequest "Mädchen" "de") = Some contents
    /\ strings.Contains contents "Mädchen" = true
    /\ strings.Contains contents "de" = true.
Proof.
  exact (prompt_contains_plain_word_and_language (NewArticleRequest "Mädchen" "de")
           eq_refl eq_refl).
Defined.

(** ** What the extraction records *)

Lemma candidates_trace (l : list Candidate) :
  forall i trace,
  exists logs,
    snd (ai.candidates i l trace) = (trace ++ logs)%list
    /\ forallb observe.isLog logs = true
    /\ List.length logs <= List.length l.
Proof.
  induction l as [|c l IH]; intros i trace.
  - exists []. cbn. rewrite app_nil_r. auto.
  - assert (Hstep : forall e, observe.isLog e = true ->
                exists logs,
                  snd (ai.candidates (S i) l (trace ++ [e])%list) = (trace ++ logs)%list
                  /\ forallb observe.isLog logs = true
                  /\ List.length logs <= S (List.length l)).
    { intros e He. destruct (IH (S i) (trace ++ [e])%list) as (logs & E & Hl & Hn).
      exists (e :: logs). rewrite E, <- app_assoc. cbn. rewrite He, Hl.
      repeat split; lia. }
    cbn [ai.candidates List.length]. unfold bind, emit, ret.
    destruct (Content_ c) as [[parts]|]; [|now apply Hstep].
    destruct parts as [|part parts]; [now apply Hstep|].
    cbn [Parts].
    destruct (String.eqb (ai.textOf (part :: parts) EmptyString) EmptyString);
      [now apply Hstep|].
    destruct (ai.Unmarshal _); [|now apply Hstep].
    exists []. cbn. rewrite app_nil_r. repeat split; lia.
Qed.

Lemma parseGeminiResponse_trace (resp : GenerateContentResponse) (trace : list event) :
  exists logs,
    snd (ai.parseGeminiResponse resp trace) = (trace ++ logs)%list
    /\ forallb observe.isLog logs = true.
Proof.
  unfold ai.parseGeminiResponse. destruct (Candidates resp) as [|c l].
  - eexists. unfold bind, emit, ret. cbn. split; reflexivity.
  - destruct (candidates_trace (c :: l) 0 trace) as (logs & E & Hl & _). now exists logs.
Qed.

Lemma calls_app (a b : list event) :
  observe.calls (a ++ b) = observe.calls a + observe.calls b.
Proof. unfold observe.calls. now rewrite filter_app, length_app. Qed.

Lemma calls_logs (logs : list event) :
  forallb observe.isLog logs = true -> observe.calls logs = 0.
Proof.
  unfold observe.calls. induction logs as [|e logs IH]; [reflexivity|].
  cbn. intros H. apply andb_prop in H as [He Hl].
  destruct e; try discriminate. cbn. now apply IH.
Qed.

(** The outcome and the trace of the AI service. *)
Lemma GenerateArticleInfo_run (s : ai.GeminiService) (request : ArticleRequest)
      (trace : list event) :
  exists contents : string,
    ai.compile request = Some contents
    /\ match ai.client s ai.modelName contents with
       | inr err =>
           ai.GenerateArticleInfo s request trace
           = (None, Some err,
              (trace ++ [GenerateContent ai.modelName contents;
                         Log ERROR [("message", "Failed to generate content with Gemini");
                                    ("error", errorText err);
                                    ("word", Word request);
                                    ("language", Language request)]])%list)
       | inl resp =>
           exists (r : ArticleResponse) (logs : list event),
             ai.GenerateArticleInfo s request trace
             = (Some r, None, (trace ++ GenerateContent ai.modelName contents :: logs)%list)
             /\ forallb observe.isLog logs = true
       end.
Proof.
  destruct (compile_some request) as [contents E]. exists contents. split; [exact E|].
  unfold ai.GenerateArticleInfo. rewrite E. unfold bind, emit, ret. cbn.
  destruct (ai.client s ai.modelName contents) as [resp|err].
  - pose proof (parseGeminiResponse_result resp
                  (trace ++ [GenerateContent ai.modelName contents])%list) as Hr.
    destruct (parseGeminiResponse_trace resp
                (trace ++ [GenerateContent ai.modelName contents])%list) as (logs & Ht & Hl).
    destruct (ai.parseGeminiResponse resp _) as [res trace'].
    cbn [fst snd] in *. subst res trace'.
    eexists. exists logs. split; [|exact Hl].
    now rewrite <- app_assoc.
  - now rewrite <- app_assoc.
Qed.

(** X3.  The AI service calls the model exactly once, with the model name
    and the compiled prompt, before it records anything else; it returns
    either a response and no error, or no response and the error of the
    model. *)
Theorem GenerateArticleInfo_one_call_one_outcome :
  forall (s : ai.GeminiService) (request : ArticleRequest) (trace : list event),
  exists (contents : string) (rest : list event),
    ai.compile request = Some contents
    /\ snd (ai.GenerateArticleInfo s request trace)
       = (trace ++ GenerateContent ai.modelName contents :: rest)%list
    /\ forallb observe.isLog rest = true
    /\ match ai.client s ai.modelName contents with
       | inr err => fst (ai.GenerateArticleInfo s request trace) = (None, Some err)
       | inl _ => exists r, fst (ai.GenerateArticleInfo s request trace) = (Some r, None)
       end.
Proof.
  intros s request trace.
  destruct (GenerateArticleInfo_run s request trace) as (contents & E & Hrun).
  exists contents.
  destruct (ai.client s ai.modelName contents) as [resp|err].
  - destruct Hrun as (r & logs & -> & Hl). exists logs. cbn. eauto.
  - rewrite Hrun. eexists. cbn [fst snd].
    split; [exact E|]. split; [reflexivity|]. split; reflexivity.
Qed.

(** X4.  With the Gemini service, what the use case records is its span
    start, then log entries and calls of the model only, then its span end;
    the model is called once for a valid request and not at all for an
    invalid one. *)
Theorem Execute_trace_brackets_one_call :
  forall (client : ai.Client) (request : ArticleRequest) (trace : list event),
  exists mid : list event,
    snd (usecases.Execute
           (usecases.NewDetermineArticleUseCase (ai.NewGeminiService client))
           request trace)
    = (trace ++ SpanStart "Process Article Request" :: mid ++ [SpanEnd])%list
    /\ forallb (fun e => observe.isLog e || observe.isCall e) mid = true
    /\ observe.calls mid = if IsValid request then 1 else 0.
Proof.
  intros client request trace.
  set (uc := usecases.NewDetermineArticleUseCase (ai.NewGeminiService client)).
  destruct (IsValid request) eqn:Hv.
  - rewrite (Execute_valid uc request trace Hv).
    cbn [GenerateArticleInfo GeminiAIService usecases.aiService uc
         usecases.NewDetermineArticleUseCase].
    destruct (GenerateArticleInfo_run (ai.NewGeminiService client) request
                (trace ++ spec.startEvents request)%list) as (contents & _ & Hrun).
    set (info := Log INFO [("message", "Processing article request");
                           ("word", Word request); ("language", Language request)]).
    destruct (ai.client _ ai.modelName contents) as [resp|err].
    + destruct Hrun as (r & logs & -> & Hl). cbn [snd fst].
      exists (info :: GenerateContent ai.modelName contents :: logs).
      split; [|split].
      * unfold spec.startEvents. rewrite <- !app_assoc. reflexivity.
      * cbn. apply forallb_forall. intros e He.
        rewrite forallb_forall in Hl. now rewrite (Hl e He).
      * change (info :: GenerateContent ai.modelName contents :: logs)
          with ([info; GenerateContent ai.modelName contents] ++ logs)%list.
        now rewrite calls_app, (calls_logs _ Hl).
    + rewrite Hrun. cbn [snd fst]. eexists (info :: _ :: _ :: nil).
      split; [|split].
      * unfold spec.startEvents. rewrite <- !app_assoc. reflexivity.
      * reflexivity.
      * reflexivity.
  - rewrite (Execute_invalid uc request trace Hv). cbn [snd].
    eexists [_]. split; [|split]; reflexivity.
Qed.

(** ** Texts without a JSON object, and texts that need no repair *)

Lemma indexFirst_absent (c : ascii) (s : string) :
  spec.occurs c s = false -> spec.indexFirst c s = None.
Proof.
  induction s as [|a s IH]; intros H; [reflexivity|].
  cbn in *. apply orb_false_elim in H as [Ha Hs]. now rewrite Ha, IH.
Qed.

Lemma indexLast_absent (c : ascii) (s : string) :
  spec.occurs c s = false -> spec.indexLast c s = None.
Proof.
  induction s as [|a s IH]; intros H; [reflexivity|].
  cbn in *. apply orb_false_elim in H as [Ha Hs]. now rewrite IH, Ha.
Qed.

Lemma textCandidate_text (text : string) :
  spec.candidateText (spec.textCandidate text) = text.
Proof.
  unfold spec.candidateText, spec.textCandidate. cbn.
  destruct (String.eqb text EmptyString) eqn:E; [|reflexivity].
  apply String.eqb_eq in E. now subst.
Qed.

(** X5.  A candidate whose text has no opening brace, or no closing one,
    is passed over: alone, it gives the failure that the reply could not be
    parsed. *)
Theorem candidate_without_braces_is_unparsable :
  forall (text : string) (trace : list event),
    spec.occurs "{" text = false \/ spec.occurs "}" text = false ->
    ai.clean text = EmptyString
    /\ fst (ai.parseGeminiResponse {| Candidates := [spec.textCandidate text] |} trace)
       = (Some (NewErrorResponse "Failed to parse AI response"), None).
Proof.
  intros text trace H.
  assert (Hc : ai.clean text = EmptyString).
  { rewrite clean_spec. unfold spec.jsonPayload. destruct H as [H | H].
    - now rewrite (indexFirst_absent _ _ H).
    - rewrite (indexLast_absent _ _ H). now destruct (spec.indexFirst "{" text). }
  split; [exact Hc|].
  rewrite parseGeminiResponse_result. cbn [Candidates spec.firstPayload].
  unfold spec.payload. rewrite textCandidate_text, Hc.
  now destruct (String.eqb text EmptyString).
Qed.

(** A refusal in prose. *)
Lemma candidate_without_braces_witness :
  ai.clean "I cannot answer that." = EmptyString
  /\ fst (ai.parseGeminiResponse
            {| Candidates := [spec.textCandidate "I cannot answer that."] |} [])
     = (Some (NewErrorResponse "Failed to parse AI response"), None).
Proof.
  exact (candidate_without_braces_is_unparsable "I cannot answer that." []
           (or_introl eq_refl)).
Defined.

Lemma dropTrailingCommas_close (mid : string) :
  exists mid', spec.dropTrailingCommas (mid ++ "}") = mid' ++ "}"
               /\ String.length mid' <= String.length mid.
Proof.
  induction mid as [|c mid (mid' & E & Hn)].
  - now exists EmptyString.
  - cbn [append spec.dropTrailingCommas]. rewrite E.
    destruct (Ascii.eqb c "," && spec.closes (mid ++ "}")).
    + exists mid'. split; [reflexivity | simpl; lia].
    + exists (String c mid'). split; [reflexivity | simpl; lia].
Qed.

Lemma length_substring_le (n m : nat) (s : string) :
  String.length (substring n m s) <= String.length s.
Proof.
  revert n m. induction s as [|c s IH]; intros n m.
  - destruct n, m; simpl; lia.
  - destruct n as [|n].
    + destruct m as [|m]; simpl; [lia|]. specialize (IH 0 m). lia.
    + simpl. specialize (IH n m). lia.
Qed.

Lemma length_jsonPayload_le (text : string) :
  String.length (spec.jsonPayload text) <= String.length text.
Proof.
  unfold spec.jsonPayload.
  destruct (spec.indexFirst "{" text) as [i|]; [|simpl; lia].
  destruct (spec.indexLast "}" text) as [j|]; [|simpl; lia].
  destruct (i <? j); [apply length_substring_le | simpl; lia].
Qed.

(** X6.  The text handed to the parser is empty or stands between an
    opening and a closing brace, and it is never longer than the text of
    the candidate. *)
Theorem clean_is_empty_or_braced :
  forall text : string,
    (ai.clean text = EmptyString
     \/ exists mid, ai.clean text = String "{" (mid ++ "}"))
    /\ String.length (ai.clean text) <= String.length text.
Proof.
  intros text. rewrite clean_spec.
  pose proof (length_jsonPayload_le text) as Hlen.
  rewrite <- FindString_re_payload in *.
  destruct (FindString_re_shape text) as [E | [mid E]]; rewrite E in *.
  - split; [now left | simpl; lia].
  - cbn [spec.dropTrailingCommas Ascii.eqb Bool.eqb andb].
    destruct (dropTrailingCommas_close mid) as (mid' & E' & Hn). rewrite E'.
    split; [right; now exists mid'|].
    cbn [String.length] in *. rewrite !length_append in *. simpl in *. lia.
Qed.

Lemma dropTrailingCommas_clean (s : string) :
  more.noTrailingComma s = true -> spec.dropTrailingCommas s = s.
Proof.
  induction s as [|c s IH]; intros H; [reflexivity|].
  cbn in *. apply andb_prop in H as [Hc Hs].
  apply negb_true_iff in Hc. now rewrite Hc, IH.
Qed.

(** X7.  A text between braces in which no comma stands in front of a
    closing brace or bracket is handed to the parser as it is. *)
Theorem clean_keeps_text_without_trailing_comma :
  forall mid : string,
    more.noTrailingComma (String "{" (mid ++ "}")) = true ->
    ai.clean (String "{" (mid ++ "}")) = String "{" (mid ++ "}").
Proof.
  intros mid H.
  rewrite (clean_wrapped EmptyString mid EmptyString eq_refl eq_refl : ai.clean (String "{" (mid ++ "}")) = _).
  now apply dropTrailingCommas_clean.
Qed.

(** The object of the fenced reply. *)
Lemma clean_keeps_text_witness :
  more.noTrailingComma (String "{" (examples.emptyDataMembers ++ "}")) = true
  /\ ai.clean (String "{" (examples.emptyDataMembers ++ "}"))
     = String "{" (examples.emptyDataMembers ++ "}").
Proof.
  split; [reflexivity|].
  exact (clean_keeps_text_without_trailing_comma examples.emptyDataMembers eq_refl).
Defined.

(** ** Candidates and the chat message *)

(** ** The text of a candidate *)

Lemma textOf_from (parts : list Part) :
  forall acc, ai.textOf parts acc = acc ++ more.allText parts.
Proof.
  induction parts as [|part parts IH]; intros acc; cbn.
  - now rewrite append_empty_r.
  - rewrite IH. destruct (String.eqb (Text part) EmptyString) eqn:E; cbn.
    + apply String.eqb_eq in E. now rewrite E.
    + now rewrite append_assoc.
Qed.

(** X8.  The text of a candidate is the concatenation of the texts of all
    its parts, in order: leaving out the empty ones changes nothing. *)
Theorem candidate_text_is_concatenation :
  forall parts : list Part,
    spec.candidateText {| Content_ := Some {| Parts := parts |} |} = more.allText parts.
Proof. intros parts. unfold spec.candidateText. cbn. apply textOf_from. Qed.

(** X9.  Extraction only logs: it records at most one entry per candidate
    (one for an empty reply), each a log entry, and so never calls the
    model. *)
Theorem parseGeminiResponse_only_logs :
  forall (resp : GenerateContentResponse) (trace : list event),
  exists logs : list event,
    snd (ai.parseGeminiResponse resp trace) = (trace ++ logs)%list
    /\ forallb observe.isLog logs = true
    /\ List.length logs <= Nat.max 1 (List.length (Candidates resp))
    /\ observe.calls (snd (ai.parseGeminiResponse resp trace)) = observe.calls trace.
Proof.
  intros resp trace. unfold ai.parseGeminiResponse.
  destruct (Candidates resp) as [|c l] eqn:E.
  - eexists [_]. unfold bind, emit, ret. cbn [fst snd].
    split; [reflexivity|]. split; [reflexivity|]. split; [cbn; lia|].
    rewrite calls_app. cbn. lia.
  - destruct (candidates_trace (c :: l) 0 trace) as (logs & Et & Hl & Hn).
    exists logs. rewrite Et, calls_app, (calls_logs _ Hl).
    repeat split; try assumption; lia.
Qed.

(** ** The chat message *)

Lemma wr_append (result : string) (info : ExampleInfo) :
  telegram.wr result info = result ++ telegram.wr EmptyString info.
Proof.
  rewrite (wr_groups result info), (wr_groups EmptyString info). cbn zeta.
  rewrite !append_assoc. reflexivity.
Qed.

(** X10.  What [wr] appends are the lines of the four cases in the order
    nominative, accusative, dative, genitive, for each case the definite
    before the indefinite article, a line being written exactly when its
    example and its translation are both non-empty; and after each of the
    first three cases a blank line exactly when the case has a line. *)
Theorem wr_cases_in_order :
  forall (result : string) (info : ExampleInfo),
    let d := Definite info in
    let i := Indefinite info in
    telegram.wr result info
    = result
      ++ more.caseLines "Nominative" (NominativeExample d) (NominativeTranslation d)
           (NominativeExample i) (NominativeTranslation i)
      ++ spec.blankLine (more.casePresent (NominativeExample d) (NominativeTranslation d)
                           (NominativeExample i) (NominativeTranslation i))
      ++ more.caseLines "Accusative" (AccusativeExample d) (AccusativeTranslation d)
           (AccusativeExample i) (AccusativeTranslation i)
      ++ spec.blankLine (more.casePresent (AccusativeExample d) (AccusativeTranslation d)
                           (AccusativeExample i) (AccusativeTranslation i))
      ++ more.caseLines "Dative" (DativeExample d) (DativeTranslation d)
           (DativeExample i) (DativeTranslation i)
      ++ spec.blankLine (more.casePresent (DativeExample d) (DativeTranslation d)
                           (DativeExample i) (DativeTranslation i))
      ++ more.caseLines "Genitive" (GenitiveExample d) (GenitiveTranslation d)
           (GenitiveExample i) (GenitiveTranslation i).
Proof.
  intros result info. cbn zeta. rewrite (wr_groups result info). cbn zeta.
  unfold more.caseLines, more.casePresent. cbn [append].
  rewrite !append_assoc. reflexivity.
Qed.

Lemma block_blockText (result : string) (info : ArticleInfo) :
  telegram.block result info = result ++ more.blockText info.
Proof.
  unfold telegram.block, more.blockText, more.numberBlock. cbn zeta. cbn [fst snd].
  destruct (eqExampleInfo (Singular (Example info)) zeroExampleInfo);
    destruct (eqExampleInfo (Plural (Example info)) zeroExampleInfo);
    cbn [negb andb fst snd].
  - rewrite !append_assoc. cbn [append]. now rewrite !append_empty_r.
  - rewrite (wr_append _ (Plural (Example info))).
    rewrite !append_assoc. cbn [append]. reflexivity.
  - rewrite (wr_append _ (Singular (Example info))).
    rewrite !append_assoc. cbn [append]. now rewrite !append_empty_r.
  - rewrite (wr_append _ (Plural (Example info))).
    rewrite (wr_append _ (Singular (Example info))).
    rewrite !append_assoc. cbn [append]. reflexivity.
Qed.

Lemma blocks_following (data : list ArticleInfo) :
  forall (result : string) (i : nat),
    0 < i -> telegram.blocks result i data = result ++ more.following data.
Proof.
  induction data as [|info data IH]; intros result i Hi; cbn [telegram.blocks more.following].
  - now rewrite append_empty_r.
  - destruct (0 <? i) eqn:E; [|apply Nat.ltb_ge in E; lia].
    rewrite IH by lia. rewrite block_blockText.
    unfold more.divider. rewrite !append_assoc. reflexivity.
Qed.

Lemma formatResponse_success (info : ArticleInfo) (data : list ArticleInfo) :
  telegram.formatResponse (NewSuccessResponse (info :: data))
  = more.blockText info ++ more.following data.
Proof.
  unfold telegram.formatResponse. cbn [Success NewSuccessResponse negb Data telegram.blocks].
  cbn [Nat.ltb Nat.leb]. rewrite blocks_following by lia.
  now rewrite block_blockText.
Qed.

(** X11.  The chat message of a response: the error line for a failure,
    the fixed text for a success without interpretations, and otherwise the
    text of each interpretation by itself, in order, with the divider in
    front of every interpretation after the first. *)
Theorem formatResponse_interpretations :
  forall response : ArticleResponse,
    telegram.formatResponse response
    = if Success response then
        match Data response with
        | [] => "❌ No information found for this word."
        | info :: data => more.blockText info ++ more.following data
        end
      else "❌ <b>Error:</b> " ++ Error response.
Proof.
  intros [success err data]. cbn [Success Data Error].
  destruct success; [|reflexivity].
  destruct data as [|info data]; [reflexivity|].
  exact (formatResponse_success info data).
Qed.

(** X12.  A chat message never starts with white space: it starts with the
    cross mark or with the flag of the first interpretation. *)
Theorem formatResponse_starts_with_marker :
  forall response : ArticleResponse,
    strings.HasPrefix (telegram.formatResponse response) "❌" = true
    \/ strings.HasPrefix (telegram.formatResponse response) "🇩🇪 <b>" = true.
Proof.
  intros [success err data].
  destruct success; [|left; reflexivity].
  destruct data as [|info data]; [left; reflexivity|].
  right. unfold telegram.formatResponse. cbn [Success Data negb telegram.blocks Nat.ltb Nat.leb].
  rewrite blocks_following by lia. rewrite block_blockText.
  unfold more.blockText. cbn zeta. cbn [append]. reflexivity.
Qed.


Lemma ended_append (a b : string) : more.ended a -> more.ended b -> more.ended (a ++ b).
Proof.
  intros Ha [-> | [body ->]].
  - now rewrite append_empty_r.
  - right. exists (a ++ body). now rewrite append_assoc.
Qed.

Lemma ended_caseLine (label example translation : string) :
  more.ended (spec.caseLine label example translation).
Proof.
  unfold spec.caseLine. destruct (spec.present example translation); [|now left].
  right. eexists. rewrite <- !append_assoc. reflexivity.
Qed.

Lemma ended_blankLine (b : bool) : more.ended (spec.blankLine b).
Proof. destruct b; [right; now exists EmptyString | now left]. Qed.

Lemma ended_wr (info : ExampleInfo) : more.ended (telegram.wr EmptyString info).
Proof.
  rewrite (wr_groups EmptyString info). cbn zeta.
  repeat apply ended_append; try apply ended_caseLine; try apply ended_blankLine.
  now left.
Qed.

Lemma ended_numberBlock (label : string) (e : ExampleInfo) : more.ended (more.numberBlock label e).
Proof.
  unfold more.numberBlock. destruct (negb _); [|now left].
  rewrite <- append_assoc. apply ended_append; [|apply ended_wr].
  right. now exists label.
Qed.

Lemma blockText_ends (info : ArticleInfo) : exists body, more.blockText info = body ++ LF.
Proof.
  assert (Hrest : more.ended (more.numberBlock "📝 <b>Singular Examples:</b>"
                           (Singular (Example info))
                         ++ (if negb (eqExampleInfo (Singular (Example info)) zeroExampleInfo)
                                && negb (eqExampleInfo (Plural (Example info)) zeroExampleInfo)
                             then LF else EmptyString)
                         ++ more.numberBlock "📝 <b>Plural Examples:</b>"
                              (Plural (Example info)))).
  { repeat apply ended_append; try apply ended_numberBlock.
    destruct (_ && _); [right; now exists EmptyString | now left]. }
  unfold more.blockText. cbn zeta.
  destruct Hrest as [-> | [body ->]].
  - eexists. rewrite append_empty_r.
    rewrite <- !append_assoc. reflexivity.
  - eexists. rewrite <- !append_assoc. reflexivity.
Qed.

Lemma following_ends (data : list ArticleInfo) : more.ended (more.following data).
Proof.
  induction data as [|info data IH]; [now left|].
  cbn [more.following]. destruct (blockText_ends info) as [body ->].
  apply ended_append; [|apply ended_append; [right; now exists body | exact IH]].
  right. exists (LF ++ LF ++ strings.Repeat "─" 10 ++ LF). reflexivity.
Qed.

(** X13.  The chat message of a success with interpretations always ends
    with a line feed. *)
Theorem formatResponse_ends_with_line_feed :
  forall (info : ArticleInfo) (data : list ArticleInfo),
  exists body : string,
    telegram.formatResponse (NewSuccessResponse (info :: data)) = body ++ LF.
Proof.
  intros info data. rewrite formatResponse_success.
  destruct (blockText_ends info) as [body E].
  destruct (following_ends data) as [-> | [rest ->]].
  - exists body. now rewrite append_empty_r.
  - exists (more.blockText info ++ rest). now rewrite append_assoc.
Qed.

(** ** The handlers: Telegram, HTTP and console *)

(** ** The handler of a chat message *)

(** X14.  A chat message that is empty or white space only is answered
    with the request to send a word; the use case is not run, so nothing is
    recorded but the span of the handler. *)
Theorem handleText_blank_message :
  forall (S : Type) (H : AIService S) (uc : usecases.DetermineArticleUseCase S)
         (text languageCode : string) (trace : list event),
    strings.TrimSpace text = EmptyString ->
    bot.handleText uc text languageCode trace
    = (Some ("Please send me a German word to analyze.", bot.Plain),
       (trace ++ [SpanStart "Telegram Text Message"; SpanEnd])%list).
Proof.
  intros S H uc text languageCode trace Hblank.
  unfold bot.handleText, bind, emit, ret. rewrite Hblank. cbn.
  now rewrite <- app_assoc.
Qed.

(** A message of spaces and a line feed. *)
Lemma handleText_blank_witness :
  bot.handleText (examples.useCase (examples.replying examples.fenced))
    ("  " ++ LF) "de" []
  = (Some ("Please send me a German word to analyze.", bot.Plain),
     [SpanStart "Telegram Text Message"; SpanEnd]).
Proof.
  exact (handleText_blank_message _ _
           (examples.useCase (examples.replying examples.fenced))
           ("  " ++ LF) "de" [] eq_refl).
Defined.

Lemma Execute_gemini (client : ai.Client) (request : ArticleRequest) (trace : list event) :
  exists (r : ArticleResponse) (e : option error) (trace' : list event),
    usecases.Execute (usecases.NewDetermineArticleUseCase (ai.NewGeminiService client))
      request trace = (Some r, e, trace')
    /\ observe.calls trace' <= observe.calls trace + 1
    /\ (forall err, e = Some err ->
          r = NewErrorResponse "Failed to process request"
          /\ exists contents, ai.compile request = Some contents
                              /\ client ai.modelName contents = inr err)
    /\ (forall contents err,
          IsValid request = true ->
          ai.compile request = Some contents ->
          client ai.modelName contents = inr err ->
          e = Some err).
Proof.
  set (uc := usecases.NewDetermineArticleUseCase (ai.NewGeminiService client)).
  destruct (IsValid request) eqn:Hv.
  - rewrite (Execute_valid uc request trace Hv).
    cbn [GenerateArticleInfo GeminiAIService usecases.aiService uc
         usecases.NewDetermineArticleUseCase].
    destruct (GenerateArticleInfo_run (ai.NewGeminiService client) request
                (trace ++ spec.startEvents request)%list) as (contents & Ec & Hrun).
    cbn [ai.client ai.NewGeminiService] in Hrun.
    destruct (client ai.modelName contents) as [resp|err] eqn:Eclient.
    + destruct Hrun as (r & logs & -> & Hl). cbn [fst snd].
      exists r, None. eexists. split; [reflexivity|].
      split; [|split; [discriminate|]].
      * change (GenerateContent ai.modelName contents :: logs)
          with ([GenerateContent ai.modelName contents] ++ logs)%list.
        rewrite !calls_app, (calls_logs _ Hl). cbn. lia.
      * intros contents' err _ Hc Hclient. congruence.
    + rewrite Hrun. cbn [fst snd].
      eexists. exists (Some err). eexists. split; [reflexivity|].
      split; [|split].
      * rewrite !calls_app. cbn. lia.
      * intros err' [= <-]. split; [reflexivity|]. now exists contents.
      * intros contents' err' _ Hc Hclient. congruence.
  - rewrite (Execute_invalid uc request trace Hv).
    eexists. exists None. eexists. split; [reflexivity|].
    split; [|split; [discriminate|discriminate]].
    rewrite calls_app. cbn. lia.
Qed.

(** X15.  With the Gemini service the handler always has an answer to
    send and calls the model at most once.  When the call of the model
    fails, the answer is the fixed apology, sent as plain text, whatever the
    error says. *)
Theorem handleText_always_answers :
  forall (client : ai.Client) (text languageCode : string) (trace : list event),
  exists (message : string) (mode : bot.sendOption),
    fst (bot.handleText
           (usecases.NewDetermineArticleUseCase (ai.NewGeminiService client))
           text languageCode trace) = Some (message, mode)
    /\ observe.calls
         (snd (bot.handleText
                 (usecases.NewDetermineArticleUseCase (ai.NewGeminiService client))
                 text languageCode trace))
       <= observe.calls trace + 1
    /\ (forall contents err,
          strings.TrimSpace text <> EmptyString ->
          ai.compile (NewArticleRequest (strings.TrimSpace text)
                        (bot.getUserLanguage languageCode)) = Some contents ->
          client ai.modelName contents = inr err ->
          (message, mode)
          = ("Sorry, I encountered an error while processing your request. Please try again.",
             bot.Plain)).
Proof.
  intros client text languageCode trace.
  unfold bot.handleText, bind, emit, ret.
  destruct (String.eqb (strings.TrimSpace text) EmptyString) eqn:Eblank.
  - apply String.eqb_eq in Eblank. cbn [fst snd].
    do 2 eexists. split; [reflexivity|]. split.
    + rewrite !calls_app. cbn. lia.
    + intros contents err Hne. contradiction.
  - destruct (Execute_gemini client
                (NewArticleRequest (strings.TrimSpace text) (bot.getUserLanguage languageCode))
                (trace ++ [SpanStart "Telegram Text Message"])%list)
      as (r & e & trace' & -> & Hcalls & Herr & Hfail).
    rewrite calls_app in Hcalls. cbn in Hcalls.
    destruct e as [err|]; cbn [fst snd].
    + do 2 eexists. split; [reflexivity|]. split.
      * rewrite calls_app. cbn. lia.
      * reflexivity.
    + do 2 eexists. split; [reflexivity|]. split.
      * rewrite calls_app. cbn. lia.
      * intros contents err Hne Hc Hclient.
        assert (Hv : IsValid (NewArticleRequest (strings.TrimSpace text)
                                 (bot.getUserLanguage languageCode)) = true).
        { unfold IsValid, NewArticleRequest. cbn [Word]. now rewrite Eblank. }
        discriminate (Hfail contents err Hv Hc Hclient).
Qed.

(** ** The HTTP handler *)

Section Rest.

Context {S : Type} `{AIService S}.
Variable formWord : rest.Request -> string + error.
Variable decodeWord : string -> string + error.
Variable uc : usecases.DetermineArticleUseCase S.

Lemma serve_shape (w : rest.ResponseWriter) (word language : string) (trace : list event) :
  exists data code,
    fst (rest.serve uc w word language trace) = rest.writeJSONResponse w data code
    /\ In code [200; 400; 500].
Proof.
  unfold rest.serve, bind, emit, ret.
  destruct (String.eqb word EmptyString).
  - do 2 eexists. split; [reflexivity|]. cbn. tauto.
  - destruct (usecases.Execute uc _ trace) as [[response e] trace'].
    destruct e; cbn [fst snd].
    + do 2 eexists. split; [reflexivity|]. cbn. tauto.
    + do 2 eexists. split; [reflexivity|]. cbn. tauto.
Qed.

Lemma HandleArticleRequest_shape (r : rest.Request) (trace : list event) :
  fst (rest.HandleArticleRequest formWord decodeWord uc rest.newWriter r trace)
  = rest.WriteHeader (rest.setCORSHeaders rest.newWriter) 200
  \/ exists data code,
       fst (rest.HandleArticleRequest formWord decodeWord uc rest.newWriter r trace)
       = rest.writeJSONResponse (rest.setCORSHeaders rest.newWriter) data code
       /\ In code [200; 400; 405; 500].
Proof.
  unfold rest.HandleArticleRequest, bind, emit, ret.
  destruct (String.eqb (rest.Method r) "OPTIONS"); [now left|]. right.
  set (w := rest.setCORSHeaders rest.newWriter).
  assert (Hserve : forall word language tr,
             exists data code,
               fst (let (w', tr') := rest.serve uc w word language tr in
                    (w', (tr' ++ [SpanEnd])%list))
               = rest.writeJSONResponse w data code
               /\ In code [200; 400; 405; 500]).
  { intros word language tr.
    destruct (serve_shape w word language tr) as (data & code & E & Hin).
    destruct (rest.serve uc w word language tr) as [w' tr']. cbn [fst] in *.
    exists data, code. split; [exact E|]. cbn in *. tauto. }
  destruct (String.eqb (handlers.extractLanguageFromHeader (rest.AcceptLanguage r))
              EmptyString);
    destruct (String.eqb (rest.Method r) "GET");
    try (destruct (formWord r); [apply Hserve|]);
    try (destruct (String.eqb (rest.Method r) "POST");
         [destruct (decodeWord (rest.Body r)); [apply Hserve|]|]);
    cbn [fst]; do 2 eexists; (split; [reflexivity|]); cbn; tauto.
Qed.

(** X16.  Every response of the HTTP handler carries the four CORS
    headers, and its status code is 200, 400, 405 or 500. *)
Theorem HandleArticleRequest_cors_and_status :
  forall (r : rest.Request) (trace : list event),
    let w := fst (rest.HandleArticleRequest formWord decodeWord uc
                    rest.newWriter r trace) in
    (forall key value, In (key, value) more.cors ->
                       more.lookup (rest.Header w) key = Some value)
    /\ exists code, rest.StatusCode w = Some code /\ In code [200; 400; 405; 500].
Proof.
  intros r trace. cbn zeta.
  destruct (HandleArticleRequest_shape r trace) as [-> | (data & code & -> & Hin)].
  - split.
    + intros key value Hk. cbn in Hk.
      destruct Hk as [[= <- <-] | [[= <- <-] | [[= <- <-] | [[= <- <-] | []]]]];
        reflexivity.
    + exists 200. cbn. tauto.
  - split.
    + intros key value Hk. cbn in Hk.
      destruct Hk as [[= <- <-] | [[= <- <-] | [[= <- <-] | [[= <- <-] | []]]]];
        reflexivity.
    + exists code. split; [reflexivity | exact Hin].
Qed.

End Rest.


Lemma calls_snoc (t : list event) (e : event) :
  observe.isCall e = false -> observe.calls (t ++ [e]) = observe.calls t.
Proof. intros He. rewrite calls_app. unfold observe.calls. cbn. rewrite He. cbn. lia. Qed.

(** X17.  A request without a word, by GET or by POST, is answered with
    status 400 and the error that the word is required; the use case is not
    run and the model is not called. *)
Theorem HandleArticleRequest_word_required :
  forall (S : Type) (H : AIService S)
         (formWord : rest.Request -> string + error) (decodeWord : string -> string + error)
         (uc : usecases.DetermineArticleUseCase S) (r : rest.Request) (trace : list event),
    (rest.Method r = "GET" /\ formWord r = inl EmptyString)
    \/ (rest.Method r = "POST" /\ decodeWord (rest.Body r) = inl EmptyString) ->
    let out := rest.HandleArticleRequest formWord decodeWord uc rest.newWriter r trace in
    rest.StatusCode (fst out) = Some 400
    /\ rest.Written (fst out) = more.errorBody "Word parameter is required"
    /\ observe.calls (snd out) = observe.calls trace.
Proof.
  intros S H formWord decodeWord uc r trace Hreq. cbn zeta.
  unfold rest.HandleArticleRequest, rest.serve, bind, emit, ret.
  destruct Hreq as [[-> ->] | [-> ->]]; cbn [String.eqb Ascii.eqb Bool.eqb andb];
    destruct (String.eqb (handlers.extractLanguageFromHeader (rest.AcceptLanguage r))
                EmptyString);
    cbn [fst snd]; (split; [reflexivity|]); (split; [reflexivity|]);
    rewrite ?calls_app; cbn; lia.
Qed.

(** A POST request whose body has the empty word. *)
Lemma HandleArticleRequest_word_required_witness :
  let r := {| rest.Method := "POST"; rest.AcceptLanguage := "de-DE";
              rest.RawQuery := EmptyString;
              rest.Body := "{" ++ ai.q "word" ++ ":" ++ ai.q EmptyString ++ "}" |} in
  let out := rest.HandleArticleRequest more.noForm more.decodeWholeBody
               (examples.useCase (examples.replying examples.fenced))
               rest.newWriter r [] in
  rest.StatusCode (fst out) = Some 400
  /\ rest.Written (fst out) = more.errorBody "Word parameter is required"
  /\ observe.calls (snd out) = observe.calls [].
Proof.
  exact (HandleArticleRequest_word_required _ _ more.noForm more.decodeWholeBody
           (examples.useCase (examples.replying examples.fenced))
           {| rest.Method := "POST"; rest.AcceptLanguage := "de-DE";
              rest.RawQuery := EmptyString;
              rest.Body := "{" ++ ai.q "word" ++ ":" ++ ai.q EmptyString ++ "}" |} []
           (or_intror (conj eq_refl eq_refl))).
Defined.

(** X18.  The request methods other than GET and POST never reach the use
    case: OPTIONS is answered with status 200, the CORS headers and no body,
    and nothing is recorded; every other method with status 405 and the
    error that the method is not allowed. *)
Theorem HandleArticleRequest_other_methods :
  forall (S : Type) (H : AIService S)
         (formWord : rest.Request -> string + error) (decodeWord : string -> string + error)
         (uc : usecases.DetermineArticleUseCase S) (r : rest.Request) (trace : list event),
    rest.Method r <> "GET" ->
    rest.Method r <> "POST" ->
    let out := rest.HandleArticleRequest formWord decodeWord uc rest.newWriter r trace in
    observe.calls (snd out) = observe.calls trace
    /\ if String.eqb (rest.Method r) "OPTIONS"
       then out = ({| rest.Header := more.cors; rest.StatusCode := Some 200;
                      rest.Written := EmptyString |}, trace)
       else rest.StatusCode (fst out) = Some 405
            /\ rest.Written (fst out) = more.errorBody "Method not allowed".
Proof.
  intros S H formWord decodeWord uc r trace Hget Hpost. cbn zeta.
  unfold rest.HandleArticleRequest, bind, emit, ret.
  destruct (String.eqb (rest.Method r) "OPTIONS"); [split; reflexivity|].
  destruct (String.eqb (rest.Method r) "GET") eqn:Eg;
    [apply String.eqb_eq in Eg; contradiction|].
  destruct (String.eqb (rest.Method r) "POST") eqn:Ep;
    [apply String.eqb_eq in Ep; contradiction|].
  destruct (String.eqb (handlers.extractLanguageFromHeader (rest.AcceptLanguage r))
              EmptyString);
    cbn [fst snd]; (split; [rewrite ?calls_app; cbn; lia|]); split; reflexivity.
Qed.

(** A DELETE request. *)
Lemma HandleArticleRequest_other_methods_witness :
  let r := {| rest.Method := "DELETE"; rest.AcceptLanguage := EmptyString;
              rest.RawQuery := EmptyString; rest.Body := EmptyString |} in
  let out := rest.HandleArticleRequest more.noForm more.decodeWholeBody
               (examples.useCase (examples.replying examples.fenced))
               rest.newWriter r [] in
  observe.calls (snd out) = observe.calls []
  /\ rest.StatusCode (fst out) = Some 405
  /\ rest.Written (fst out) = more.errorBody "Method not allowed".
Proof.
  refine (HandleArticleRequest_other_methods _ _ more.noForm more.decodeWholeBody
            (examples.useCase (examples.replying examples.fenced))
            {| rest.Method := "DELETE"; rest.AcceptLanguage := EmptyString;
               rest.RawQuery := EmptyString; rest.Body := EmptyString |} [] _ _);
    discriminate.
Defined.

(** X19.  With the Gemini service, status 500 is written only when the
    call of the model failed for the request of the handler, the non-empty
    word of the GET form or of the POST body with the language of the
    header; and then the body is the fixed internal-error response,
    whatever the error says: every other failure of the pipeline is
    answered with another status. *)
Theorem HandleArticleRequest_internal_error :
  forall (client : ai.Client)
         (formWord : rest.Request -> string + error) (decodeWord : string -> string + error)
         (r : rest.Request) (trace : list event),
    let out := rest.HandleArticleRequest formWord decodeWord
                 (usecases.NewDetermineArticleUseCase (ai.NewGeminiService client))
                 rest.newWriter r trace in
    rest.StatusCode (fst out) = Some 500 ->
    rest.Written (fst out) = more.errorBody "Internal server error"
    /\ exists (word contents : string) (err : error),
         ((rest.Method r = "GET" /\ formWord r = inl word)
          \/ (rest.Method r = "POST" /\ decodeWord (rest.Body r) = inl word))
         /\ word <> EmptyString
         /\ ai.compile (handlers.articleRequest word (rest.AcceptLanguage r)) = Some contents
         /\ client ai.modelName contents = inr err.
Proof.
  intros client formWord decodeWord r trace. cbn zeta.
  set (uc := usecases.NewDetermineArticleUseCase (ai.NewGeminiService client)).
  assert (Hserve : forall w word language tr,
             rest.StatusCode w = None ->
             rest.Written w = EmptyString ->
             rest.StatusCode (fst (rest.serve uc w word language tr)) = Some 500 ->
             rest.Written (fst (rest.serve uc w word language tr))
             = more.errorBody "Internal server error"
             /\ word <> EmptyString
             /\ exists (contents : string) (err : error),
                  ai.compile (NewArticleRequest word language) = Some contents
                  /\ client ai.modelName contents = inr err).
  { intros w word language tr Hst Hw. unfold rest.serve, bind, emit, ret.
    destruct (String.eqb word EmptyString) eqn:Eword.
    - cbn. unfold rest.WriteHeader. cbn. rewrite Hst. discriminate.
    - destruct (Execute_gemini client (NewArticleRequest word language) tr)
        as (resp & e & tr' & E & _ & Herr & _).
      fold uc in E. rewrite E. cbn [fst snd].
      destruct e as [err|].
      + intros _. split; [|split].
        * cbn. unfold rest.WriteHeader. cbn. rewrite Hst, Hw. reflexivity.
        * intros ->. discriminate Eword.
        * destruct (Herr err eq_refl) as (_ & contents & Hc & Hcl).
          now exists contents, err.
      + cbn. unfold rest.WriteHeader. cbn. rewrite Hst. discriminate. }
  assert (Hen : forall word,
             handlers.extractLanguageFromHeader (rest.AcceptLanguage r) = EmptyString ->
             handlers.articleRequest word (rest.AcceptLanguage r)
             = NewArticleRequest word "en").
  { intros word Hl. unfold handlers.articleRequest. now rewrite Hl. }
  assert (Hlang : forall word,
             String.eqb (handlers.extractLanguageFromHeader (rest.AcceptLanguage r))
               EmptyString = false ->
             handlers.articleRequest word (rest.AcceptLanguage r)
             = NewArticleRequest word
                 (handlers.extractLanguageFromHeader (rest.AcceptLanguage r))).
  { intros word Hl. unfold handlers.articleRequest. cbn zeta. now rewrite Hl. }
  unfold rest.HandleArticleRequest, bind, emit, ret.
  destruct (String.eqb (rest.Method r) "OPTIONS"); [discriminate|].
  set (w := rest.setCORSHeaders rest.newWriter).
  destruct (String.eqb (handlers.extractLanguageFromHeader (rest.AcceptLanguage r))
              EmptyString) eqn:El;
    destruct (String.eqb (rest.Method r) "GET") eqn:Eg;
    try (destruct (formWord r) as [word|] eqn:Ef;
         [ match goal with
           | |- context [rest.serve uc w ?word ?language ?tr] =>
               pose proof (Hserve w word language tr eq_refl eq_refl) as Hs;
               destruct (rest.serve uc w word language tr) as [w' tr'];
               intros Hst; destruct (Hs Hst) as (Hbody & Hne & contents & err & Hc & Hcl);
               split; [exact Hbody|];
               exists word, contents, err;
               split; [left; split; [now apply String.eqb_eq | reflexivity]|];
               split; [exact Hne|];
               split; [|exact Hcl];
               first [ rewrite (Hen word (proj1 (String.eqb_eq _ _) El)); exact Hc
                     | rewrite (Hlang word eq_refl); exact Hc ]
           end
         | discriminate ]);
    try (destruct (String.eqb (rest.Method r) "POST") eqn:Ep;
         [ destruct (decodeWord (rest.Body r)) as [word|] eqn:Ed;
           [ match goal with
             | |- context [rest.serve uc w ?word ?language ?tr] =>
                 pose proof (Hserve w word language tr eq_refl eq_refl) as Hs;
                 destruct (rest.serve uc w word language tr) as [w' tr'];
                 intros Hst; destruct (Hs Hst) as (Hbody & Hne & contents & err & Hc & Hcl);
                 split; [exact Hbody|];
                 exists word, contents, err;
                 split; [right; split; [now apply String.eqb_eq | reflexivity]|];
                 split; [exact Hne|];
                 split; [|exact Hcl];
                 first [ rewrite (Hen word (proj1 (String.eqb_eq _ _) El)); exact Hc
                       | rewrite (Hlang word eq_refl); exact Hc ]
             end
           | discriminate ]
         | discriminate ]).
Qed.

(** A GET request for a word while the model is out of quota. *)
Lemma HandleArticleRequest_internal_error_witness :
  let out := rest.HandleArticleRequest (fun _ => inl "Haus") more.decodeWholeBody
               (usecases.NewDetermineArticleUseCase
                  (ai.NewGeminiService (examples.failing "quota exceeded")))
               rest.newWriter
               {| rest.Method := "GET"; rest.AcceptLanguage := "en";
                  rest.RawQuery := "word=Haus"; rest.Body := EmptyString |} [] in
  rest.StatusCode (fst out) = Some 500
  /\ rest.Written (fst out) = more.errorBody "Internal server error".
Proof.
  assert (Hst : rest.StatusCode
                  (fst (rest.HandleArticleRequest (fun _ => inl "Haus") more.decodeWholeBody
                          (usecases.NewDetermineArticleUseCase
                             (ai.NewGeminiService (examples.failing "quota exceeded")))
                          rest.newWriter
                          {| rest.Method := "GET"; rest.AcceptLanguage := "en";
                             rest.RawQuery := "word=Haus"; rest.Body := EmptyString |} []))
                = Some 500) by (vm_compute; reflexivity).
  split; [exact Hst|].
  exact (proj1 (HandleArticleRequest_internal_error (examples.failing "quota exceeded")
                  (fun _ => inl "Haus") more.decodeWholeBody
                  {| rest.Method := "GET"; rest.AcceptLanguage := "en";
                     rest.RawQuery := "word=Haus"; rest.Body := EmptyString |} [] Hst)).
Defined.

(** ** The console *)


(** X20.  For the empty word the console handler returns the indented JSON
    of the empty-word failure and no error, whatever the language and the
    AI service are; the service is not called. *)
Theorem ProcessRequest_empty_word :
  forall (S : Type) (H : AIService S) (uc : usecases.DetermineArticleUseCase S)
         (language : string) (trace : list event),
    fst (console.ProcessRequest uc EmptyString language trace) = (more.emptyWordJSON, None)
    /\ observe.calls (snd (console.ProcessRequest uc EmptyString language trace))
       = observe.calls trace.
Proof.
  intros S H uc language trace.
  unfold console.ProcessRequest, bind, emit, ret.
  rewrite Execute_invalid by reflexivity. cbn [fst snd].
  split; [vm_compute; reflexivity|].
  rewrite !calls_app. cbn. lia.
Qed.

(** X21.  With the Gemini service the console command exits with code 1
    in two cases only: no word was given, and then it prints the two usage
    lines and records nothing; or the call of the model failed for the
    request of the word and the language of the arguments, and then it
    prints nothing and reports the error.  Every other outcome, failure
    responses included, is printed as one text with exit code 0. *)
Theorem main_exit_code :
  forall (client : ai.Client) (args : list string) (trace : list event),
    let out := cmd.main (usecases.NewDetermineArticleUseCase (ai.NewGeminiService client))
                 args trace in
    (List.length args < 2 ->
     cmd.ExitCode (fst out) = 1 /\ cmd.Fatal (fst out) = None /\ snd out = trace
     /\ cmd.Stdout (fst out)
        = [ "Usage: go run cmd/console/main.go <word> [language]";
            "Example: go run cmd/console/main.go Haus en" ])
    /\ (2 <= List.length args ->
        (cmd.ExitCode (fst out) = 0 /\ cmd.Fatal (fst out) = None
         /\ exists text, cmd.Stdout (fst out) = [text])
        \/ (cmd.ExitCode (fst out) = 1 /\ cmd.Stdout (fst out) = []
            /\ exists (contents : string) (err : error),
                 ai.compile (NewArticleRequest (List.nth 1 args EmptyString)
                               (List.nth 2 args "en")) = Some contents
                 /\ client ai.modelName contents = inr err
                 /\ cmd.Fatal (fst out)
                    = Some ("Failed to process request: " ++ errorText err))).
Proof.
  intros client args trace. cbn zeta.
  destruct args as [|program [|word rest]].
  - split; [intros _; repeat split | cbn; lia].
  - split; [intros _; repeat split | cbn; lia].
  - split; [cbn; lia|]. intros _.
    replace (List.nth 2 (program :: word :: rest) "en")
      with (match rest with language :: _ => language | [] => "en" end)
      by (now destruct rest).
    cbn [List.nth].
    unfold cmd.main, console.ProcessRequest, bind, emit, ret.
    set (language := match rest with language :: _ => language | [] => "en" end).
    destruct (Execute_gemini client (NewArticleRequest word language)
                ((trace ++ [SpanStart "ConsoleHandler.ProcessRequest"])
                   ++ [Log INFO [("message", "Processing console request");
                                 ("word", word); ("language", language)]])%list)
      as (resp & e & tr' & -> & _ & Herr & _).
    destruct e as [err|]; cbn [fst snd].
    + right. repeat split.
      destruct (Herr err eq_refl) as (_ & contents & Hc & Hcl).
      now exists contents, err.
    + left. repeat split. eexists. reflexivity.
Qed.

(** ** Reading a payload back *)

Lemma omitempty_cases (key s : string) :
  (s = EmptyString /\ json.omitempty key s = [])
  \/ json.omitempty key s = [(key, json.Str s)].
Proof.
  unfold json.omitempty. destruct (String.eqb s EmptyString) eqn:E.
  - left. apply String.eqb_eq in E. now subst.
  - now right.
Qed.

Lemma storeTranslationsInfo_of (t : TranslationsInfo) :
  json.storeTranslationsInfo (json.ofTranslationsInfo t) zeroTranslationsInfo = Some t.
Proof.
  destruct t as [s1 s2 s3 s4 s5 s6 s7 s8].
  unfold json.storeTranslationsInfo, json.storeStruct, json.ofTranslationsInfo.
  cbn [NominativeExample NominativeTranslation AccusativeExample AccusativeTranslation
       DativeExample DativeTranslation GenitiveExample GenitiveTranslation].
  destruct (omitempty_cases "nominativeExample" s1) as [[-> ->] | ->];
  destruct (omitempty_cases "nominativeTranslation" s2) as [[-> ->] | ->];
  destruct (omitempty_cases "accusativeExample" s3) as [[-> ->] | ->];
  destruct (omitempty_cases "accusativeTranslation" s4) as [[-> ->] | ->];
  destruct (omitempty_cases "dativeExample" s5) as [[-> ->] | ->];
  destruct (omitempty_cases "dativeTranslation" s6) as [[-> ->] | ->];
  destruct (omitempty_cases "genitiveExample" s7) as [[-> ->] | ->];
  destruct (omitempty_cases "genitiveTranslation" s8) as [[-> ->] | ->];
  reflexivity.
Qed.

Lemma storeExampleInfo_of (e : ExampleInfo) :
  json.storeExampleInfo (json.ofExampleInfo e) zeroExampleInfo = Some e.
Proof.
  destruct e as [d i].
  unfold json.storeExampleInfo, json.storeStruct, json.ofExampleInfo.
  cbn [json.storeMembers]. unfold json.setExampleInfo at 1.
  cbn [json.field json.indexOf String.eqb Ascii.eqb Bool.eqb andb Definite Indefinite
       zeroExampleInfo].
  rewrite storeTranslationsInfo_of. unfold json.setExampleInfo.
  cbn [json.field json.indexOf String.eqb Ascii.eqb Bool.eqb andb Definite Indefinite].
  now rewrite storeTranslationsInfo_of.
Qed.

Lemma storeExamplesInfo_of (e : ExamplesInfo) :
  json.storeExamplesInfo (json.ofExamplesInfo e) zeroExamplesInfo = Some e.
Proof.
  destruct e as [s p].
  unfold json.storeExamplesInfo, json.storeStruct, json.ofExamplesInfo.
  cbn [json.storeMembers]. unfold json.setExamplesInfo at 1.
  cbn [json.field json.indexOf String.eqb Ascii.eqb Bool.eqb andb Singular Plural
       zeroExamplesInfo].
  rewrite storeExampleInfo_of. unfold json.setExamplesInfo.
  cbn [json.field json.indexOf String.eqb Ascii.eqb Bool.eqb andb Singular Plural].
  now rewrite storeExampleInfo_of.
Qed.

Lemma storeArticleInfo_of (a : ArticleInfo) :
  json.storeArticleInfo (json.ofArticleInfo a) zeroArticleInfo = Some a.
Proof.
  destruct a as [w t e].
  unfold json.storeArticleInfo, json.storeStruct, json.ofArticleInfo.
  cbn [json.storeMembers]. unfold json.setArticleInfo.
  cbn [json.field json.indexOf String.eqb Ascii.eqb Bool.eqb andb WordWithArticle
       Translation Example zeroArticleInfo json.storeString].
  now rewrite storeExamplesInfo_of.
Qed.

Lemma storeItems_of (l : list ArticleInfo) :
  json.storeItems zeroArticleInfo json.storeArticleInfo (List.map json.ofArticleInfo l) []
  = Some (l, List.length l).
Proof.
  induction l as [|a l IH]; [reflexivity|].
  cbn [List.map json.storeItems List.hd List.tl List.length].
  now rewrite storeArticleInfo_of, IH.
Qed.

Lemma storeSlice_of (l : list ArticleInfo) :
  json.storeSlice zeroArticleInfo json.storeArticleInfo
    (json.Array (List.map json.ofArticleInfo l)) []
  = Some (l, List.length l).
Proof.
  destruct l as [|a l]; [reflexivity|].
  unfold json.storeSlice. cbn [List.map]. apply (storeItems_of (a :: l)).
Qed.

Lemma Unmarshal_of (p : ai.aiResponse) (text : string) :
  json.parse text = Some (more.ofAiResponse p) ->
  ai.Unmarshal text = Some p.
Proof.
  intros Hparse. unfold ai.Unmarshal. rewrite Hparse.
  destruct p as [err msg data].
  unfold more.ofAiResponse, json.storeStruct. cbn [json.storeMembers].
  unfold ai.setAiResponse.
  cbn [json.field json.indexOf String.eqb Ascii.eqb Bool.eqb andb ai.Error ai.ErrorMessage
       ai.Data json.storeBool json.storeString ai.varError ai.varErrorMessage ai.varData
       fst snd].
  rewrite storeSlice_of.
  cbn [ai.varError ai.varErrorMessage ai.varData fst snd].
  now rewrite List.firstn_all.
Qed.

(** X22. A reply whose JSON value is a payload written with the tags of its
    struct and of the entities is parsed into exactly that payload; and
    when the text handed to the parser for the first candidate is such a
    reply, extraction returns the response for that payload, a failure with
    its message or a success with its data, whatever candidates follow. *)
Theorem Unmarshal_reads_tagged_payload (p : ai.aiResponse) (text : string) :
  json.parse text = Some (more.ofAiResponse p) ->
  ai.Unmarshal text = Some p
  /\ forall (reply : string) (others : list Candidate) (trace : list event),
       ai.clean reply = text ->
       fst (ai.parseGeminiResponse
              {| Candidates := spec.textCandidate reply :: others |} trace)
       = (Some (if ai.Error p then NewErrorResponse (ai.ErrorMessage p)
                else NewSuccessResponse (ai.Data p)), None).
Proof.
  intros Hparse. split; [now apply Unmarshal_of|].
  intros reply others trace Hclean.
  rewrite parseGeminiResponse_result. cbn [Candidates spec.firstPayload].
  rewrite (payload_some (spec.textCandidate reply) p).
  - reflexivity.
  - rewrite textCandidate_text. intros ->.
    vm_compute in Hclean. subst text. vm_compute in Hparse. discriminate.
  - rewrite textCandidate_text, Hclean. now apply Unmarshal_of.
Qed.

Lemma Unmarshal_reads_tagged_payload_witness :
  ai.Unmarshal
    (json.encode (more.ofAiResponse
       {| ai.Error := false; ai.ErrorMessage := EmptyString;
          ai.Data := [examples.hausNominative] |}))
  = Some {| ai.Error := false; ai.ErrorMessage := EmptyString;
            ai.Data := [examples.hausNominative] |}.
Proof.
  apply (Unmarshal_reads_tagged_payload
           {| ai.Error := false; ai.ErrorMessage := EmptyString;
              ai.Data := [examples.hausNominative] |}).
  vm_compute. reflexivity.
Defined.

(** ** The escaped values of the prompt *)

Lemma occurs_append (c : ascii) (a b : string) :
  spec.occurs c (a ++ b) = spec.occurs c a || spec.occurs c b.
Proof.
  induction a as [|x a IH]; [reflexivity|].
  cbn [String.append spec.occurs]. now rewrite IH, orb_assoc.
Qed.

Lemma htmlReplacement_markup (c x : ascii) :
  In c more.markup -> spec.occurs c (template.htmlReplacement x) = false.
Proof.
  intros H. cbv [more.markup In] in H.
  destruct x as [[] [] [] [] [] [] [] []];
    (destruct H as [<-|[<-|[<-|[<-|[<-|[<-|[]]]]]]]; vm_compute; reflexivity).
Qed.

Lemma htmlEscaper_markup (s : string) (c : ascii) :
  In c more.markup -> spec.occurs c (template.htmlEscaper s) = false.
Proof.
  intros H. induction s as [|x s IH]; [reflexivity|].
  cbn [template.htmlEscaper]. rewrite occurs_append, IH.
  now rewrite (htmlReplacement_markup c x H).
Qed.

Lemma count_append (c : ascii) (a b : string) :
  more.count c (a ++ b) = more.count c a + more.count c b.
Proof.
  induction a as [|x a IH]; [reflexivity|].
  cbn [String.append more.count]. rewrite IH. lia.
Qed.

Lemma count_absent (c : ascii) (s : string) :
  spec.occurs c s = false -> more.count c s = 0.
Proof.
  induction s as [|x s IH]; [reflexivity|].
  cbn [spec.occurs more.count]. intros H.
  apply orb_false_elim in H as [-> Hs]. now rewrite IH.
Qed.

Lemma Execute_count (nodes : list template.node) (data data' : list (string * string))
      (c : ascii) :
  In c more.markup ->
  more.count c (template.Execute nodes data) = more.count c (template.Execute nodes data').
Proof.
  intros H. induction nodes as [|[text|name] nodes IH]; [reflexivity| |];
    cbn [template.Execute]; rewrite !count_append, IH; [reflexivity|].
  now rewrite !(count_absent c _ (htmlEscaper_markup _ c H)).
Qed.

(** X23.  What the prompt has in place of the word or of the language has
    none of the bytes NUL, double quote, apostrophe, plus, less-than and
    greater-than, whatever the value is; so the prompt of a request has
    each of these bytes as often as the prompt for the empty word and
    language has it: no word and no language adds one. *)
Theorem escaped_value_has_no_markup (s : string) (c : ascii) :
  In c more.markup ->
  spec.occurs c (template.htmlEscaper s) = false
  /\ forall request : ArticleRequest,
       exists contents blank : string,
         ai.compile request = Some contents
         /\ ai.compile {| Word := EmptyString; Language := EmptyString |} = Some blank
         /\ more.count c contents = more.count c blank.
Proof.
  intros H. split; [now apply htmlEscaper_markup|].
  intros request. unfold ai.compile.
  destruct (template.Parse ai.prompt) as [tmpl|] eqn:E.
  - do 2 eexists. split; [reflexivity|]. split; [reflexivity|].
    now apply Execute_count.
  - destruct (compile_some request) as [contents Hc].
    unfold ai.compile in Hc. rewrite E in Hc. discriminate.
Qed.

Lemma escaped_value_has_no_markup_witness :
  spec.occurs "<" (template.htmlEscaper "<b>Haus</b>") = false.
Proof.
  apply (escaped_value_has_no_markup "<b>Haus</b>" "<").
  cbv [more.markup In]. tauto.
Defined.
